(** * Sphere.js: the UV-sphere mesh builder

    A shallow embedding of [Sphere.js] (constructor, [set] and the setters,
    the smooth and flat builders, the interleaver, the VBO upload and
    [Sphere.computeFaceNormal]) together with the properties of the mesh
    arrays it produces.

    Conventions of the embedding:
    - integer-valued JavaScript numbers (shape parameters, loop counters,
      array offsets, index values) are [Z], which is exact as long as they
      stay below 2^53; a sector or stack count that is no integer is
      outside the embedding;
    - every other number goes through the interface [JsNumber]: [F] is the
      type of double precision values the arithmetic runs in, [F32] the
      type of the elements of a [Float32Array]; storing rounds with
      [fround], reading widens with [widen]. Its instances are
      [ExactNumber], the real numbers, on which concrete runs are made,
      and [Binary64], the IEEE 754 numbers of the language;
    - a typed array is a [list]; its length is fixed at allocation, a store
      out of range is dropped, a load out of range yields [undefined];
    - [newTypedArray] allocates any length; the limits of the language and
      of an engine are those of [newTypedArrayOn], and [setOn] is [set]
      under them;
    - a [Uint16Array] store wraps modulo 2^16;
    - a thrown exception is the [Throw] result of the monad [Js];
    - the WebGL context is the log of the calls made on it. *)

From Stdlib Require Import ZArith Lia List Reals Lra.
From Stdlib Require Floats.
From stdpp Require Import base tactics option list list_numbers.

Local Open Scope Z_scope.

(** ** Numbers *)

Class JsNumber (F F32 : Type) := {
  num_of_Z : Z -> F;              (* an integer valued number *)
  fadd : F -> F -> F;
  fsub : F -> F -> F;
  fmul : F -> F -> F;
  fdiv : F -> F -> F;
  fsqrt : F -> F;                 (* Math.sqrt *)
  fcos : F -> F;                  (* Math.cos *)
  fsin : F -> F;                  (* Math.sin *)
  fPI : F;                        (* Math.PI *)
  feps : F;                       (* the literal 0.000001 *)
  fgt : F -> F -> bool;           (* a > b *)
  fne : F -> F -> bool;           (* a != b *)
  fround : F -> F32;              (* conversion done by a Float32Array store *)
  widen : F32 -> F;               (* value read from a Float32Array *)
  f32_zero : F32;                 (* initial element of a Float32Array *)
  f32_undef : F32;                (* [undefined] stored in a Float32Array: NaN *)
  fround_widen : forall x, fround (widen x) = x
}.

(** ** Exceptions *)

Inductive JsError := RangeError | TypeError.

Inductive Js (A : Type) :=
| Throw (e : JsError)
| Return (a : A).
Arguments Throw {A} e.
Arguments Return {A} a.

#[global] Instance Js_ret : MRet Js := fun A a => Return a.
#[global] Instance Js_bind : MBind Js := fun A B k c =>
  match c with
  | Throw e => Throw e
  | Return a => k a
  end.

(** ** Counted loops *)

(** [for (i = lo; i < hi; ++i) body], the body updating a state. *)
Definition for_range {St} (lo hi : Z) (body : Z -> St -> St) (s : St) : St :=
  fold_left (fun s i => body i s) (seqZ lo (hi - lo)) s.

Fixpoint for_eachM {St} (l : list Z) (body : Z -> St -> Js St) (s : St) : Js St :=
  match l with
  | [] => Return s
  | i :: l' => s' ← body i s; for_eachM l' body s'
  end.

(** The same loop with a body that may throw. *)
Definition for_rangeM {St} (lo hi : Z) (body : Z -> St -> Js St) (s : St) : Js St :=
  for_eachM (seqZ lo (hi - lo)) body s.

(** ** Typed arrays *)

(** [new Float32Array(len)], [new Uint16Array(len)] where every length
    can be allocated: a negative length is a RangeError. The upper limits
    are those of [newTypedArrayOn]. *)
Definition newTypedArray {A} (zero : A) (len : Z) : Js (list A) :=
  if decide (len < 0) then Throw RangeError
  else Return (replicate (Z.to_nat len) zero).

(** [a[i] = x] on a typed array. *)
Definition ta_store {A} (a : list A) (i : Z) (x : A) : list A :=
  if decide (0 <= i) then <[Z.to_nat i := x]> a else a.

(** [a[i]] on a typed array, [None] standing for [undefined]. *)
Definition ta_load {A} (a : list A) (i : Z) : option A :=
  if decide (0 <= i) then a !! Z.to_nat i else None.

(** Conversion done by a Uint16Array store. *)
Definition to_uint16 (n : Z) : Z := n mod 65536.

(** ** The WebGL context *)

Inductive GLTarget := ARRAY_BUFFER | ELEMENT_ARRAY_BUFFER.

Inductive GLData (F32 : Type) :=
| FloatData (d : list F32)
| ShortData (d : list Z).
Arguments FloatData {F32} d.
Arguments ShortData {F32} d.

(** Calls of [Sphere.js] on the context; the usage hint is always
    [gl.STATIC_DRAW]. *)
Inductive GLCall (F32 : Type) :=
| bindBuffer (target : GLTarget) (buffer : option nat)
| bufferData (target : GLTarget) (data : GLData F32).
Arguments bindBuffer {F32} target buffer.
Arguments bufferData {F32} target data.

Record GL (F32 : Type) := {
  glBuffers : nat;                (* buffers created so far *)
  glCalls : list (GLCall F32)     (* calls made so far, oldest first *)
}.
Arguments glBuffers {F32} g.
Arguments glCalls {F32} g.

Definition createBuffer {F32} (g : GL F32) : GL F32 * nat :=
  ({| glBuffers := S (glBuffers g); glCalls := glCalls g |}, glBuffers g).

Definition gl_call {F32} (c : GLCall F32) (g : GL F32) : GL F32 :=
  {| glBuffers := glBuffers g; glCalls := glCalls g ++ [c] |}.

(** ** The Sphere object *)

Section SphereJs.
Context {F F32 : Type} {num : JsNumber F F32}.

Record Sphere := {
  gl : option (GL F32);
  radius : F;
  sectorCount : Z;
  stackCount : Z;
  smooth : bool;
  vertices : list F32;
  normals : list F32;
  texCoords : list F32;
  indices : list Z;
  interleavedVertices : list F32;
  stride : Z;
  vboVertex : option nat;
  vboIndex : option nat
}.

Definition with_gl (g : option (GL F32)) (this : Sphere) : Sphere :=
  {| gl := g; radius := radius this; sectorCount := sectorCount this;
     stackCount := stackCount this; smooth := smooth this;
     vertices := vertices this; normals := normals this;
     texCoords := texCoords this; indices := indices this;
     interleavedVertices := interleavedVertices this; stride := stride this;
     vboVertex := vboVertex this; vboIndex := vboIndex this |}.

Definition with_radius (r : F) (this : Sphere) : Sphere :=
  {| gl := gl this; radius := r; sectorCount := sectorCount this;
     stackCount := stackCount this; smooth := smooth this;
     vertices := vertices this; normals := normals this;
     texCoords := texCoords this; indices := indices this;
     interleavedVertices := interleavedVertices this; stride := stride this;
     vboVertex := vboVertex this; vboIndex := vboIndex this |}.

Definition with_sectorCount (n : Z) (this : Sphere) : Sphere :=
  {| gl := gl this; radius := radius this; sectorCount := n;
     stackCount := stackCount this; smooth := smooth this;
     vertices := vertices this; normals := normals this;
     texCoords := texCoords this; indices := indices this;
     interleavedVertices := interleavedVertices this; stride := stride this;
     vboVertex := vboVertex this; vboIndex := vboIndex this |}.

Definition with_stackCount (n : Z) (this : Sphere) : Sphere :=
  {| gl := gl this; radius := radius this; sectorCount := sectorCount this;
     stackCount := n; smooth := smooth this;
     vertices := vertices this; normals := normals this;
     texCoords := texCoords this; indices := indices this;
     interleavedVertices := interleavedVertices this; stride := stride this;
     vboVertex := vboVertex this; vboIndex := vboIndex this |}.

Definition with_smooth (b : bool) (this : Sphere) : Sphere :=
  {| gl := gl this; radius := radius this; sectorCount := sectorCount this;
     stackCount := stackCount this; smooth := b;
     vertices := vertices this; normals := normals this;
     texCoords := texCoords this; indices := indices this;
     interleavedVertices := interleavedVertices this; stride := stride this;
     vboVertex := vboVertex this; vboIndex := vboIndex this |}.

Definition with_vertices (a : list F32) (this : Sphere) : Sphere :=
  {| gl := gl this; radius := radius this; sectorCount := sectorCount this;
     stackCount := stackCount this; smooth := smooth this;
     vertices := a; normals := normals this;
     texCoords := texCoords this; indices := indices this;
     interleavedVertices := interleavedVertices this; stride := stride this;
     vboVertex := vboVertex this; vboIndex := vboIndex this |}.

Definition with_normals (a : list F32) (this : Sphere) : Sphere :=
  {| gl := gl this; radius := radius this; sectorCount := sectorCount this;
     stackCount := stackCount this; smooth := smooth this;
     vertices := vertices this; normals := a;
     texCoords := texCoords this; indices := indices this;
     interleavedVertices := interleavedVertices this; stride := stride this;
     vboVertex := vboVertex this; vboIndex := vboIndex this |}.

Definition with_texCoords (a : list F32) (this : Sphere) : Sphere :=
  {| gl := gl this; radius := radius this; sectorCount := sectorCount this;
     stackCount := stackCount this; smooth := smooth this;
     vertices := vertices this; normals := normals this;
     texCoords := a; indices := indices this;
     interleavedVertices := interleavedVertices this; stride := stride this;
     vboVertex := vboVertex this; vboIndex := vboIndex this |}.

Definition with_indices (a : list Z) (this : Sphere) : Sphere :=
  {| gl := gl this; radius := radius this; sectorCount := sectorCount this;
     stackCount := stackCount this; smooth := smooth this;
     vertices := vertices this; normals := normals this;
     texCoords := texCoords this; indices := a;
     interleavedVertices := interleavedVertices this; stride := stride this;
     vboVertex := vboVertex this; vboIndex := vboIndex this |}.

Definition with_interleavedVertices (a : list F32) (this : Sphere) : Sphere :=
  {| gl := gl this; radius := radius this; sectorCount := sectorCount this;
     stackCount := stackCount this; smooth := smooth this;
     vertices := vertices this; normals := normals this;
     texCoords := texCoords this; indices := indices this;
     interleavedVertices := a; stride := stride this;
     vboVertex := vboVertex this; vboIndex := vboIndex this |}.

(** *** Accessors *)

Definition getIndexCount (this : Sphere) : Z := Z.of_nat (length (indices this)).
(** The divisions below are exact on every array the builders allocate. *)
Definition getTriangleCount (this : Sphere) : Z := getIndexCount this / 3.
Definition getVertexCount (this : Sphere) : Z := Z.of_nat (length (vertices this)) / 3.
Definition getNormalCount (this : Sphere) : Z := Z.of_nat (length (normals this)) / 3.
Definition getTexCoordCount (this : Sphere) : Z := Z.of_nat (length (texCoords this)) / 2.

(** *** add vertex, normal, texcoord and indices *)

Definition addVertex (index : Z) (x y z : F) (this : Sphere) : Sphere :=
  let a := ta_store (vertices this) index (fround x) in
  let a := ta_store a (index + 1) (fround y) in
  let a := ta_store a (index + 2) (fround z) in
  with_vertices a this.

Definition addNormal (index : Z) (x y z : F) (this : Sphere) : Sphere :=
  let a := ta_store (normals this) index (fround x) in
  let a := ta_store a (index + 1) (fround y) in
  let a := ta_store a (index + 2) (fround z) in
  with_normals a this.

Definition addTexCoord (index : Z) (s t : F) (this : Sphere) : Sphere :=
  let a := ta_store (texCoords this) index (fround s) in
  let a := ta_store a (index + 1) (fround t) in
  with_texCoords a this.

Definition addIndices (index : Z) (i1 i2 i3 : Z) (this : Sphere) : Sphere :=
  let a := ta_store (indices this) index (to_uint16 i1) in
  let a := ta_store a (index + 1) (to_uint16 i2) in
  let a := ta_store a (index + 2) (to_uint16 i3) in
  with_indices a this.

(** *** Allocation *)

(** [clearArrays] assigns [length = 0] to the five arrays. A typed array
    ignores the assignment (its [length] has no setter and [Sphere.js] is
    not in strict mode), and the only other arrays the fields ever hold
    are the empty ones of the constructor: no array changes. *)
Definition clearArrays (this : Sphere) : Sphere := this.

Definition resizeArraysSmooth (this : Sphere) : Js Sphere :=
  let this := clearArrays this in
  let count := (sectorCount this + 1) * (stackCount this + 1) in
  v ← newTypedArray f32_zero (3 * count);
  n ← newTypedArray f32_zero (3 * count);
  t ← newTypedArray f32_zero (2 * count);
  i ← newTypedArray 0 (6 * sectorCount this * (stackCount this - 1));
  mret (with_indices i (with_texCoords t (with_normals n (with_vertices v this)))).

Definition resizeArraysFlat (this : Sphere) : Js Sphere :=
  let this := clearArrays this in
  let count := 6 * sectorCount this + 4 * sectorCount this * (stackCount this - 2) in
  v ← newTypedArray f32_zero (3 * count);
  n ← newTypedArray f32_zero (3 * count);
  t ← newTypedArray f32_zero (2 * count);
  i ← newTypedArray 0 (6 * sectorCount this * (stackCount this - 1));
  mret (with_indices i (with_texCoords t (with_normals n (with_vertices v this)))).

(** *** Interleaved vertices: V/N/T *)

(** The number stored by [dst[k] = src[i]] between Float32Arrays. *)
Definition copied (o : option F32) : F32 :=
  match o with
  | Some x => fround (widen x)
  | None => f32_undef
  end.

(** Body of the loop of [buildInterleavedVertices]; the state carries
    [this] and the counters [i], [j], [k]. *)
Definition interleaveStep (st : Sphere * Z * Z * Z) : Sphere * Z * Z * Z :=
  let '(this, i, j, k) := st in
  let a := interleavedVertices this in
  let a := ta_store a k (copied (ta_load (vertices this) i)) in
  let a := ta_store a (k + 1) (copied (ta_load (vertices this) (i + 1))) in
  let a := ta_store a (k + 2) (copied (ta_load (vertices this) (i + 2))) in
  let a := ta_store a (k + 3) (copied (ta_load (normals this) i)) in
  let a := ta_store a (k + 4) (copied (ta_load (normals this) (i + 1))) in
  let a := ta_store a (k + 5) (copied (ta_load (normals this) (i + 2))) in
  let a := ta_store a (k + 6) (copied (ta_load (texCoords this) j)) in
  let a := ta_store a (k + 7) (copied (ta_load (texCoords this) (j + 1))) in
  (with_interleavedVertices a this, i + 3, j + 2, k + 8).

(** The array is allocated afresh (the assignment [length = 0] before it
    changes nothing, as in [clearArrays]); then
    [for (i=0, j=0, k=0; i < this.vertices.length; i+=3, j+=2, k+=8)]
    runs its body once for every started group of three elements. *)
Definition buildInterleavedVertices (this : Sphere) : Js Sphere :=
  let vertexCount := getVertexCount this in
  a ← newTypedArray f32_zero (vertexCount * 8);
  let this := with_interleavedVertices a this in
  let len := Z.of_nat (length (vertices this)) in
  let '(this, _, _, _) :=
    for_range 0 ((len + 2) / 3) (fun _ => interleaveStep) (this, 0, 0, 0) in
  mret this.

(** *** Copy interleaved vertex data to VBOs *)

Definition buildVbos (this : Sphere) : Js Sphere :=
  match gl this with
  | None => Throw TypeError
  | Some g =>
    let g := gl_call (bindBuffer ARRAY_BUFFER (vboVertex this)) g in
    let g := gl_call (bufferData ARRAY_BUFFER (FloatData (interleavedVertices this))) g in
    let g := gl_call (bindBuffer ARRAY_BUFFER None) g in
    let g := gl_call (bindBuffer ELEMENT_ARRAY_BUFFER (vboIndex this)) g in
    let g := gl_call (bufferData ELEMENT_ARRAY_BUFFER (ShortData (indices this))) g in
    let g := gl_call (bindBuffer ELEMENT_ARRAY_BUFFER None) g in
    mret (with_gl (Some g) this)
  end.

(** *** Vertices of the sphere with smooth shading *)

(** Body of the sector loop; the state carries [this], [ii] and [jj]. *)
Definition smoothVertexStep (lengthInv sectorStep xy z : F) (i j : Z)
    (st : Sphere * Z * Z) : Sphere * Z * Z :=
  let '(this, ii, jj) := st in
  let sectorAngle := fmul (num_of_Z j) sectorStep in
  let x := fmul xy (fcos sectorAngle) in
  let y := fmul xy (fsin sectorAngle) in
  let this := addVertex ii x y z this in
  let nx := fmul x lengthInv in
  let ny := fmul y lengthInv in
  let nz := fmul z lengthInv in
  let this := addNormal ii nx ny nz this in
  let s := fdiv (num_of_Z j) (num_of_Z (sectorCount this)) in
  let t := fdiv (num_of_Z i) (num_of_Z (stackCount this)) in
  let this := addTexCoord jj s t this in
  (this, ii + 3, jj + 2).

(** Body of the stack loop. *)
Definition smoothStackStep (lengthInv sectorStep stackStep : F) (i : Z)
    (st : Sphere * Z * Z) : Sphere * Z * Z :=
  let this := st.1.1 in
  let stackAngle := fsub (fdiv fPI (num_of_Z 2)) (fmul (num_of_Z i) stackStep) in
  let xy := fmul (radius this) (fcos stackAngle) in
  let z := fmul (radius this) (fsin stackAngle) in
  for_range 0 (sectorCount this + 1)
    (smoothVertexStep lengthInv sectorStep xy z i) st.

Definition smoothVertexLoop (this : Sphere) : Sphere * Z * Z :=
  let lengthInv := fdiv (num_of_Z 1) (radius this) in
  let sectorStep := fdiv (fmul (num_of_Z 2) fPI) (num_of_Z (sectorCount this)) in
  let stackStep := fdiv fPI (num_of_Z (stackCount this)) in
  for_range 0 (stackCount this + 1)
    (smoothStackStep lengthInv sectorStep stackStep) (this, 0, 0).

(** Body of the sector loop of the indices; the state carries [this],
    [kk], [k1] and [k2], the last two stepped by the loop header. *)
Definition smoothIndexStep (i j : Z) (st : Sphere * Z * Z * Z) : Sphere * Z * Z * Z :=
  let '(this, kk, k1, k2) := st in
  let '(this, kk) :=
    if decide (i <> 0)
    then (addIndices kk k1 k2 (k1 + 1) this, kk + 3)
    else (this, kk) in
  let '(this, kk) :=
    if decide (i <> stackCount this - 1)
    then (addIndices kk (k1 + 1) k2 (k2 + 1) this, kk + 3)
    else (this, kk) in
  (this, kk, k1 + 1, k2 + 1).

Definition smoothIndexRow (i : Z) (st : Sphere * Z) : Sphere * Z :=
  let '(this, kk) := st in
  let k1 := i * (sectorCount this + 1) in
  let k2 := k1 + sectorCount this + 1 in
  let '(this, kk, _, _) :=
    for_range 0 (sectorCount this) (smoothIndexStep i) (this, kk, k1, k2) in
  (this, kk).

Definition smoothIndexLoop (this : Sphere) : Sphere * Z :=
  for_range 0 (stackCount this) smoothIndexRow (this, 0).

Definition buildVerticesSmooth (this : Sphere) : Js Sphere :=
  this ← resizeArraysSmooth this;
  let this := (smoothVertexLoop this).1.1 in
  let this := (smoothIndexLoop this).1 in
  this ← buildInterleavedVertices this;
  buildVbos this.

(** *** Face normal of a triangle v1-v2-v3 *)

(** The result is a fresh [Float32Array(3)], here its three elements. *)
Definition computeFaceNormal (x1 y1 z1 x2 y2 z2 x3 y3 z3 : F) : F32 * F32 * F32 :=
  let normal := (f32_zero, f32_zero, f32_zero) in
  let ex1 := fsub x2 x1 in
  let ey1 := fsub y2 y1 in
  let ez1 := fsub z2 z1 in
  let ex2 := fsub x3 x1 in
  let ey2 := fsub y3 y1 in
  let ez2 := fsub z3 z1 in
  let nx := fsub (fmul ey1 ez2) (fmul ez1 ey2) in
  let ny := fsub (fmul ez1 ex2) (fmul ex1 ez2) in
  let nz := fsub (fmul ex1 ey2) (fmul ey1 ex2) in
  let length := fsqrt (fadd (fadd (fmul nx nx) (fmul ny ny)) (fmul nz nz)) in
  if fgt length feps
  then (fround (fdiv nx length), fround (fdiv ny length), fround (fdiv nz length))
  else normal.

(** *** Vertices of the sphere with flat shading *)

(** An element of [tmpVertices]: (x,y,z,s,t). *)
Record Vertex := { vx : F; vy : F; vz : F; vs : F; vt : F }.

(** Reading a field of [tmpVertices[i]] throws when the element is
    [undefined]. *)
Definition deref (o : option Vertex) : Js Vertex :=
  match o with
  | Some v => Return v
  | None => Throw TypeError
  end.

Definition flatTmpStep (this : Sphere) (sectorStep xy z : F) (i j : Z)
    (tmpVertices : list Vertex) : list Vertex :=
  let sectorAngle := fmul (num_of_Z j) sectorStep in
  let vertex := {| vx := fmul xy (fcos sectorAngle);
                   vy := fmul xy (fsin sectorAngle);
                   vz := z;
                   vs := fdiv (num_of_Z j) (num_of_Z (sectorCount this));
                   vt := fdiv (num_of_Z i) (num_of_Z (stackCount this)) |} in
  tmpVertices ++ [vertex].

Definition flatTmpRow (this : Sphere) (sectorStep stackStep : F) (i : Z)
    (tmpVertices : list Vertex) : list Vertex :=
  let stackAngle := fsub (fdiv fPI (num_of_Z 2)) (fmul (num_of_Z i) stackStep) in
  let xy := fmul (radius this) (fcos stackAngle) in
  let z := fmul (radius this) (fsin stackAngle) in
  for_range 0 (sectorCount this + 1) (flatTmpStep this sectorStep xy z i) tmpVertices.

Definition flatTmpVertices (this : Sphere) : list Vertex :=
  let sectorStep := fdiv (fmul (num_of_Z 2) fPI) (num_of_Z (sectorCount this)) in
  let stackStep := fdiv fPI (num_of_Z (stackCount this)) in
  for_range 0 (stackCount this + 1) (flatTmpRow this sectorStep stackStep) [].

(** State of the triangle loop: [this] and the counters. *)
Record FlatState := {
  f_this : Sphere;
  f_ii : Z;
  f_jj : Z;
  f_kk : Z;
  f_index : Z;
  f_vi1 : Z;
  f_vi2 : Z
}.

(** One triangle v1-v2-v3 (first and last stack). *)
Definition flatTriangle (v1 v2 v3 : Vertex) (st : FlatState) : FlatState :=
  let this := f_this st in
  let ii := f_ii st in
  let jj := f_jj st in
  let kk := f_kk st in
  let index := f_index st in
  let this := addVertex ii (vx v1) (vy v1) (vz v1) this in
  let this := addVertex (ii + 3) (vx v2) (vy v2) (vz v2) this in
  let this := addVertex (ii + 6) (vx v3) (vy v3) (vz v3) this in
  let this := addTexCoord jj (vs v1) (vt v1) this in
  let this := addTexCoord (jj + 2) (vs v2) (vt v2) this in
  let this := addTexCoord (jj + 4) (vs v3) (vt v3) this in
  let n :=
    computeFaceNormal (vx v1) (vy v1) (vz v1) (vx v2) (vy v2) (vz v2)
                      (vx v3) (vy v3) (vz v3) in
  let this := addNormal ii (widen n.1.1) (widen n.1.2) (widen n.2) this in
  let this := addNormal (ii + 3) (widen n.1.1) (widen n.1.2) (widen n.2) this in
  let this := addNormal (ii + 6) (widen n.1.1) (widen n.1.2) (widen n.2) this in
  let this := addIndices kk index (index + 1) (index + 2) this in
  {| f_this := this; f_ii := ii + 9; f_jj := jj + 6; f_kk := kk + 3;
     f_index := index + 3; f_vi1 := f_vi1 st; f_vi2 := f_vi2 st |}.

(** Two triangles of the quad v1-v2-v3-v4 (the other stacks). *)
Definition flatQuad (v1 v2 v3 v4 : Vertex) (st : FlatState) : FlatState :=
  let this := f_this st in
  let ii := f_ii st in
  let jj := f_jj st in
  let kk := f_kk st in
  let index := f_index st in
  let this := addVertex ii (vx v1) (vy v1) (vz v1) this in
  let this := addVertex (ii + 3) (vx v2) (vy v2) (vz v2) this in
  let this := addVertex (ii + 6) (vx v3) (vy v3) (vz v3) this in
  let this := addVertex (ii + 9) (vx v4) (vy v4) (vz v4) this in
  let this := addTexCoord jj (vs v1) (vt v1) this in
  let this := addTexCoord (jj + 2) (vs v2) (vt v2) this in
  let this := addTexCoord (jj + 4) (vs v3) (vt v3) this in
  let this := addTexCoord (jj + 6) (vs v4) (vt v4) this in
  let n :=
    computeFaceNormal (vx v1) (vy v1) (vz v1) (vx v2) (vy v2) (vz v2)
                      (vx v3) (vy v3) (vz v3) in
  let this := addNormal ii (widen n.1.1) (widen n.1.2) (widen n.2) this in
  let this := addNormal (ii + 3) (widen n.1.1) (widen n.1.2) (widen n.2) this in
  let this := addNormal (ii + 6) (widen n.1.1) (widen n.1.2) (widen n.2) this in
  let this := addIndices kk index (index + 1) (index + 2) this in
  let this := addIndices (kk + 3) (index + 2) (index + 1) (index + 3) this in
  {| f_this := this; f_ii := ii + 12; f_jj := jj + 8; f_kk := kk + 6;
     f_index := index + 4; f_vi1 := f_vi1 st; f_vi2 := f_vi2 st |}.

(** Body of the sector loop, with the [++vi1, ++vi2] of its header. *)
Definition flatCellStep (tmpVertices : list Vertex) (i j : Z)
    (st : FlatState) : Js FlatState :=
  let this := f_this st in
  let v1 := ta_load tmpVertices (f_vi1 st) in
  let v2 := ta_load tmpVertices (f_vi2 st) in
  let v3 := ta_load tmpVertices (f_vi1 st + 1) in
  let v4 := ta_load tmpVertices (f_vi2 st + 1) in
  st ←
    (if decide (i = 0) then
       v1 ← deref v1; v2 ← deref v2; v4 ← deref v4;
       mret (flatTriangle v1 v2 v4 st)
     else if decide (i = stackCount this - 1) then
       v1 ← deref v1; v2 ← deref v2; v3 ← deref v3;
       mret (flatTriangle v1 v2 v3 st)
     else
       v1 ← deref v1; v2 ← deref v2; v3 ← deref v3; v4 ← deref v4;
       mret (flatQuad v1 v2 v3 v4 st));
  mret {| f_this := f_this st; f_ii := f_ii st; f_jj := f_jj st;
          f_kk := f_kk st; f_index := f_index st;
          f_vi1 := f_vi1 st + 1; f_vi2 := f_vi2 st + 1 |}.

Definition flatRow (tmpVertices : list Vertex) (i : Z) (st : FlatState) : Js FlatState :=
  let this := f_this st in
  let st := {| f_this := f_this st; f_ii := f_ii st; f_jj := f_jj st;
               f_kk := f_kk st; f_index := f_index st;
               f_vi1 := i * (sectorCount this + 1);
               f_vi2 := (i + 1) * (sectorCount this + 1) |} in
  for_rangeM 0 (sectorCount this) (flatCellStep tmpVertices i) st.

Definition flatTriangleLoop (tmpVertices : list Vertex) (this : Sphere) : Js FlatState :=
  for_rangeM 0 (stackCount this) (flatRow tmpVertices)
    {| f_this := this; f_ii := 0; f_jj := 0; f_kk := 0; f_index := 0;
       f_vi1 := 0; f_vi2 := 0 |}.

Definition buildVerticesFlat (this : Sphere) : Js Sphere :=
  let tmpVertices := flatTmpVertices this in
  this ← resizeArraysFlat this;
  st ← flatTriangleLoop tmpVertices this;
  this ← buildInterleavedVertices (f_this st);
  buildVbos this.

(** *** Construction and the setters *)

Definition set (r : F) (se st : Z) (sm : bool) (this : Sphere) : Js Sphere :=
  let this := with_radius r this in
  let this := with_sectorCount se this in
  let this := if decide (se < 3) then with_sectorCount 3 this else this in
  let this := with_stackCount st this in
  let this := if decide (st < 2) then with_stackCount 2 this else this in
  let this := with_smooth sm this in
  if sm then buildVerticesSmooth this else buildVerticesFlat this.

(** [new Sphere(gl, radius, sectors, stacks, smooth)]. The warning that
    [log], a function of the page, prints for a missing context is no
    part of the state. *)
Definition Sphere_new (g : option (GL F32)) (radius : F) (sectors stacks : Z)
    (smooth : bool) : Js Sphere :=
  let this :=
    {| gl := g; radius := num_of_Z 1; sectorCount := 36; stackCount := 18;
       smooth := true; vertices := []; normals := []; texCoords := [];
       indices := []; interleavedVertices := []; stride := 32;
       vboVertex := None; vboIndex := None |} in
  let this :=
    match g with
    | Some g =>
      let '(g, b1) := createBuffer g in
      let '(g, b2) := createBuffer g in
      {| gl := Some g; radius := num_of_Z 1; sectorCount := 36; stackCount := 18;
         smooth := true; vertices := []; normals := []; texCoords := [];
         indices := []; interleavedVertices := []; stride := 32;
         vboVertex := Some b1; vboIndex := Some b2 |}
    | None => this
    end in
  set radius sectors stacks smooth this.

Definition setRadius (r : F) (this : Sphere) : Js Sphere :=
  if fne (radius this) r
  then set r (sectorCount this) (stackCount this) (smooth this) this
  else mret this.

Definition setSectorCount (s : Z) (this : Sphere) : Js Sphere :=
  if decide (sectorCount this <> s)
  then set (radius this) s (stackCount this) (smooth this) this
  else mret this.

Definition setStackCount (s : Z) (this : Sphere) : Js Sphere :=
  if decide (stackCount this <> s)
  then set (radius this) (sectorCount this) s (smooth this) this
  else mret this.

Definition setSmooth (s : bool) (this : Sphere) : Js Sphere :=
  if decide (smooth this <> s) then
    let this := with_smooth s this in
    if smooth this then buildVerticesSmooth this else buildVerticesFlat this
  else mret this.

End SphereJs.

(** ** The mesh as the specification describes it *)

(** Consecutive stores [a[k] = x0; a[k+1] = x1; ...] into a typed array. *)
Fixpoint ta_write {A} (a : list A) (k : Z) (l : list A) : list A :=
  match l with
  | [] => a
  | x :: l' => ta_write (ta_store a k x) (k + 1) l'
  end.

(** Triangles of the sector [j] of the stack [i] in smooth mode, in the
    words of the specification: with [k1 = i*(sectorCount+1)+j] and
    [k2 = k1+sectorCount+1], the triangle (k1, k2, k1+1) unless [i = 0],
    then the triangle (k1+1, k2, k2+1) unless [i = stackCount-1]. *)
Definition smoothCellIndices (sectorCount stackCount i j : Z) : list Z :=
  let k1 := i * (sectorCount + 1) + j in
  let k2 := k1 + sectorCount + 1 in
  (if decide (i = 0) then [] else [k1; k2; k1 + 1]) ++
  (if decide (i = stackCount - 1) then [] else [k1 + 1; k2; k2 + 1]).

(** For each stack [i] in [0, stackCount) and sector [j] in
    [0, sectorCount), in that order. *)
Definition smoothIndicesSpec (sectorCount stackCount : Z) : list Z :=
  i ← seqZ 0 stackCount;
  j ← seqZ 0 sectorCount;
  smoothCellIndices sectorCount stackCount i j.

Arguments Sphere : clear implicits.
Arguments Vertex : clear implicits.
Arguments FlatState : clear implicits.

(** ** Auxiliary definitions of the proofs *)

Section Auxiliary.
Context {F F32 : Type} {num : JsNumber F F32}.
Implicit Types this : Sphere F F32.

(** The state of the index loop after the index values [done] have been
    emitted into the index array of [this0]. *)
Definition emitted this0 (done : list Z) : Sphere F F32 * Z :=
  (with_indices (ta_write (indices this0) 0 (to_uint16 <$> done)) this0,
   Z.of_nat (length done)).

(** What the smooth builder computes for the vertex of stack [i] and
    sector [j]: position, normal and texture coordinates, in double
    precision, before they are stored. *)
Definition smoothPosition this (i j : Z) : F * F * F :=
  let sectorStep := fdiv (fmul (num_of_Z 2) fPI) (num_of_Z (sectorCount this)) in
  let stackStep := fdiv fPI (num_of_Z (stackCount this)) in
  let stackAngle := fsub (fdiv fPI (num_of_Z 2)) (fmul (num_of_Z i) stackStep) in
  let xy := fmul (radius this) (fcos stackAngle) in
  let z := fmul (radius this) (fsin stackAngle) in
  let sectorAngle := fmul (num_of_Z j) sectorStep in
  (fmul xy (fcos sectorAngle), fmul xy (fsin sectorAngle), z).

Definition smoothNormal this (i j : Z) : F * F * F :=
  let lengthInv := fdiv (num_of_Z 1) (radius this) in
  let p := smoothPosition this i j in
  (fmul p.1.1 lengthInv, fmul p.1.2 lengthInv, fmul p.2 lengthInv).

Definition smoothTexCoord this (i j : Z) : F * F :=
  (fdiv (num_of_Z j) (num_of_Z (sectorCount this)),
   fdiv (num_of_Z i) (num_of_Z (stackCount this))).

Definition round3 (p : F * F * F) : list F32 := [fround p.1.1; fround p.1.2; fround p.2].
Definition round2 (p : F * F) : list F32 := [fround p.1; fround p.2].

(** The three elements of [a] from the offset [3*v], the two from [2*v]. *)
Definition slice3 {A} (a : list A) (v : Z) : list A := take 3 (drop (Z.to_nat (3 * v)) a).
Definition slice2 {A} (a : list A) (v : Z) : list A := take 2 (drop (Z.to_nat (2 * v)) a).

(** The eight elements of [a] from the offset [8*v]. *)
Definition slice8 {A} (a : list A) (v : Z) : list A := take 8 (drop (Z.to_nat (8 * v)) a).

(** [I] interleaves the first [n] vertices of [V], [N] and [T]: the
    record of the vertex [v] is its position, its normal and its texture
    coordinates. *)
Definition interleaves (V N T I : list F32) (n : Z) : Prop :=
  forall v, 0 <= v < n -> slice8 I v = slice3 V v ++ slice3 N v ++ slice2 T v.

(** Invariant of the vertex loop of the smooth builder, started on
    [this0]: the vertices numbered below [v] are stored, no array has
    changed its length and nothing else has changed. *)
Definition smoothFilled this0 (v : Z) (this : Sphere F F32) : Prop :=
  exists V N T,
    this = with_texCoords T (with_normals N (with_vertices V this0)) /\
    length V = length (vertices this0) /\
    length N = length (normals this0) /\
    length T = length (texCoords this0) /\
    forall i j, 0 <= i -> 0 <= j <= sectorCount this0 ->
      i * (sectorCount this0 + 1) + j < v ->
      slice3 V (i * (sectorCount this0 + 1) + j) = round3 (smoothPosition this0 i j) /\
      slice3 N (i * (sectorCount this0 + 1) + j) = round3 (smoothNormal this0 i j) /\
      slice2 T (i * (sectorCount this0 + 1) + j) = round2 (smoothTexCoord this0 i j).

(** The calls [buildVbos] makes, in order. *)
Definition vboCalls this : list (GLCall F32) :=
  [bindBuffer ARRAY_BUFFER (vboVertex this);
   bufferData ARRAY_BUFFER (FloatData (interleavedVertices this));
   bindBuffer ARRAY_BUFFER None;
   bindBuffer ELEMENT_ARRAY_BUFFER (vboIndex this);
   bufferData ELEMENT_ARRAY_BUFFER (ShortData (indices this));
   bindBuffer ELEMENT_ARRAY_BUFFER None].

(** The context after the mesh of [this] has been uploaded. *)
Definition uploaded (g : GL F32) this : GL F32 :=
  {| glBuffers := glBuffers g; glCalls := glCalls g ++ vboCalls this |}.

(** The object after the assignments of [set], before the build. *)
Definition shaped (r : F) (se st : Z) (sm : bool) this : Sphere F F32 :=
  with_smooth sm (with_stackCount (Z.max 2 st) (with_sectorCount (Z.max 3 se)
    (with_radius r this))).

(** The object [new Sphere] hands to [set], for a context [g]. *)
Definition constructed (g : GL F32) : Sphere F F32 :=
  {| gl := Some {| glBuffers := S (S (glBuffers g)); glCalls := glCalls g |};
     radius := num_of_Z 1; sectorCount := 36; stackCount := 18;
     smooth := true; vertices := []; normals := []; texCoords := [];
     indices := []; interleavedVertices := []; stride := 32;
     vboVertex := Some (glBuffers g); vboIndex := Some (S (glBuffers g)) |}.

(** [s'] is the smooth mesh built on [this], whose context was [g]. *)
Definition smoothBuilt this (g : GL F32) (s' : Sphere F F32) : Prop :=
  let n := (sectorCount this + 1) * (stackCount this + 1) in
  exists V N T I,
    let mesh :=
      with_interleavedVertices I
        (with_indices (to_uint16 <$> smoothIndicesSpec (sectorCount this) (stackCount this))
           (with_texCoords T (with_normals N (with_vertices V this)))) in
    s' = with_gl (Some (uploaded g mesh)) mesh /\
    Z.of_nat (length V) = 3 * n /\
    Z.of_nat (length N) = 3 * n /\
    Z.of_nat (length T) = 2 * n /\
    Z.of_nat (length I) = 8 * n /\
    (forall i j, 0 <= i <= stackCount this -> 0 <= j <= sectorCount this ->
       slice3 V (i * (sectorCount this + 1) + j) = round3 (smoothPosition this i j) /\
       slice3 N (i * (sectorCount this + 1) + j) = round3 (smoothNormal this i j) /\
       slice2 T (i * (sectorCount this + 1) + j) = round2 (smoothTexCoord this i j)) /\
    interleaves V N T I n.

(** Frame of the triangle loop of the flat builder, started on [this0]:
    only the four arrays have changed, none in its length, and every
    index value is below [bound]. *)
Definition flatFrame this0 (bound : Z) this : Prop :=
  exists V N T X,
    this = with_indices X (with_texCoords T (with_normals N (with_vertices V this0))) /\
    length V = length (vertices this0) /\
    length N = length (normals this0) /\
    length T = length (texCoords this0) /\
    length X = length (indices this0) /\
    Forall (fun x => 0 <= x < bound) X.

(** Vertices and index values the flat builder has emitted when it
    enters the stack [i]: three vertices and index values per sector in
    the first and the last stack, four vertices and six index values per
    sector in the others. *)
Definition flatIndexAt (sc st i : Z) : Z :=
  4 * sc * i - (if decide (0 < i) then sc else 0)
             - (if decide (st - 1 < i) then sc else 0).

Definition flatKkAt (sc st i : Z) : Z :=
  6 * sc * i - (if decide (0 < i) then 3 * sc else 0)
             - (if decide (st - 1 < i) then 3 * sc else 0).

(** Invariant of the triangle loop: the frame and the four counters,
    [index] vertices and [kk] index values being emitted. *)
Definition flatInv this0 (bound index kk : Z) (s : FlatState F F32) : Prop :=
  flatFrame this0 bound (f_this s) /\
  f_index s = index /\ f_kk s = kk /\ f_ii s = 3 * index /\ f_jj s = 2 * index.

(** [s'] is the flat mesh built on [this], whose context was [g]. *)
Definition flatBuilt this (g : GL F32) (s' : Sphere F F32) : Prop :=
  let n := 6 * sectorCount this + 4 * sectorCount this * (stackCount this - 2) in
  exists V N T X I,
    let mesh :=
      with_interleavedVertices I
        (with_indices X (with_texCoords T (with_normals N (with_vertices V this)))) in
    s' = with_gl (Some (uploaded g mesh)) mesh /\
    Z.of_nat (length V) = 3 * n /\
    Z.of_nat (length N) = 3 * n /\
    Z.of_nat (length T) = 2 * n /\
    Z.of_nat (length X) = 6 * sectorCount this * (stackCount this - 1) /\
    Z.of_nat (length I) = 8 * n /\
    Forall (fun x => 0 <= x < n) X /\
    interleaves V N T I n.

(** [s'] is the mesh built on [this] for the shape [s'] stores. *)
Definition built this (g : GL F32) (s' : Sphere F F32) : Prop :=
  if smooth s'
  then smoothBuilt (shaped (radius s') (sectorCount s') (stackCount s') true this) g s'
  else flatBuilt (shaped (radius s') (sectorCount s') (stackCount s') false this) g s'.

(** Vectors of the specification of the face normal: difference, cross
    product and magnitude. *)
Definition vsub (a b : F * F * F) : F * F * F :=
  (fsub a.1.1 b.1.1, fsub a.1.2 b.1.2, fsub a.2 b.2).

Definition cross (e1 e2 : F * F * F) : F * F * F :=
  (fsub (fmul e1.1.2 e2.2) (fmul e1.2 e2.1.2),
   fsub (fmul e1.2 e2.1.1) (fmul e1.1.1 e2.2),
   fsub (fmul e1.1.1 e2.1.2) (fmul e1.1.2 e2.1.1)).

Definition magnitude (n : F * F * F) : F :=
  fsqrt (fadd (fadd (fmul n.1.1 n.1.1) (fmul n.1.2 n.1.2)) (fmul n.2 n.2)).

End Auxiliary.

(** ** Exact arithmetic *)

(** The numbers of the mesh read as real numbers: arithmetic is exact and
    a [Float32Array] holds the number stored. There is no NaN among the
    reals; [undefined], which no builder ever copies, reads as 0. *)
#[global] Instance ExactNumber : JsNumber R R := {|
  num_of_Z := IZR;
  fadd := Rplus;
  fsub := Rminus;
  fmul := Rmult;
  fdiv := Rdiv;
  fsqrt := sqrt;
  fcos := cos;
  fsin := sin;
  fPI := PI;
  feps := (1 / 1000000)%R;
  fgt a b := if Rgt_dec a b then true else false;
  fne a b := if Req_dec_T a b then false else true;
  fround x := x;
  widen x := x;
  f32_zero := 0%R;
  f32_undef := 0%R;
  fround_widen x := eq_refl
|}.

(** A context on which nothing has been called yet, and the object the
    constructor builds the first mesh on. *)
Definition gl0 : GL R := {| glBuffers := 0; glCalls := [] |}.
Definition sphere0 : Sphere R R := constructed gl0.

(** The index array of a run, when it returns. *)
Definition index_run (r : Js (Sphere R R)) : option (list Z) :=
  match r with
  | Return s => Some (indices s)
  | Throw _ => None
  end.

(** ** Further definitions: the rest of the mesh *)

Section Further.
Context {F F32 : Type} {num : JsNumber F F32}.
Implicit Types this : Sphere F F32.

(** The object whose four attribute and index arrays are [V], [N], [T]
    and [X], everything else being as in [this0]. *)
Definition arrays (V N T : list F32) (X : list Z) this0 : Sphere F F32 :=
  with_indices X (with_texCoords T (with_normals N (with_vertices V this0))).

(** The vertex of the grid at stack [i] and sector [j], as the flat
    builder keeps it in [tmpVertices]: (x,y,z,s,t), not rounded. *)
Definition gridVertex this (i j : Z) : Vertex F :=
  {| vx := (smoothPosition this i j).1.1;
     vy := (smoothPosition this i j).1.2;
     vz := (smoothPosition this i j).2;
     vs := (smoothTexCoord this i j).1;
     vt := (smoothTexCoord this i j).2 |}.

Definition vertexPosition (v : Vertex F) : list F32 := round3 (vx v, vy v, vz v).
Definition vertexTexCoord (v : Vertex F) : list F32 := round2 (vs v, vt v).

(** The face normal of v1-v2-v3, as the array returned by
    [computeFaceNormal] holds it. *)
Definition faceNormal (v1 v2 v3 : Vertex F) : list F32 :=
  let n := computeFaceNormal (vx v1) (vy v1) (vz v1) (vx v2) (vy v2) (vz v2)
                             (vx v3) (vy v3) (vz v3) in
  [n.1.1; n.1.2; n.2].

(** The sectors of the first and of the last stack hold one triangle,
    the others a quad. *)
Definition isQuad (st i : Z) : bool :=
  if decide (i = 0 \/ i = st - 1) then false else true.

(** Corners of the sector [j] of the stack [i] in the order the flat
    builder stores them: v1, v2, v4 in the first stack, v1, v2, v3 in the
    last one, v1, v2, v3, v4 in the others, with v1 = (i,j), v2 = (i+1,j),
    v3 = (i,j+1), v4 = (i+1,j+1). *)
Definition flatCorners this (i j : Z) : list (Vertex F) :=
  if decide (i = 0) then
    [gridVertex this i j; gridVertex this (i + 1) j; gridVertex this (i + 1) (j + 1)]
  else if decide (i = stackCount this - 1) then
    [gridVertex this i j; gridVertex this (i + 1) j; gridVertex this i (j + 1)]
  else
    [gridVertex this i j; gridVertex this (i + 1) j; gridVertex this i (j + 1);
     gridVertex this (i + 1) (j + 1)].

(** What the flat builder stores for a sector: the positions and the
    texture coordinates of its corners; the face normal of its first
    three corners for each of them, the normal of a fourth corner being
    left as allocated; the index values of its triangles, [index] being
    the number of its first corner. *)
Definition flatCellPositions this (i j : Z) : list F32 :=
  flatCorners this i j ≫= vertexPosition.

Definition flatCellTexCoords this (i j : Z) : list F32 :=
  flatCorners this i j ≫= vertexTexCoord.

Definition flatCellNormals this (i j : Z) : list F32 :=
  match flatCorners this i j with
  | v1 :: v2 :: v3 :: rest =>
    faceNormal v1 v2 v3 ++ faceNormal v1 v2 v3 ++ faceNormal v1 v2 v3 ++
    (rest ≫= fun _ => [f32_zero; f32_zero; f32_zero])
  | _ => []
  end.

(** Number of the first corner of the sector [j] of the stack [i]. *)
Definition flatFirstIndex (sc st i j : Z) : Z :=
  flatIndexAt sc st i + (if isQuad st i then 4 else 3) * j.

Definition flatCellIndices (sc st i j : Z) : list Z :=
  let index := flatFirstIndex sc st i j in
  if isQuad st i
  then [index; index + 1; index + 2; index + 2; index + 1; index + 3]
  else [index; index + 1; index + 2].

(** The four arrays of the flat mesh, sector after sector. *)
Definition flatPositionsSpec this : list F32 :=
  i ← seqZ 0 (stackCount this); j ← seqZ 0 (sectorCount this);
  flatCellPositions this i j.

Definition flatNormalsSpec this : list F32 :=
  i ← seqZ 0 (stackCount this); j ← seqZ 0 (sectorCount this);
  flatCellNormals this i j.

Definition flatTexCoordsSpec this : list F32 :=
  i ← seqZ 0 (stackCount this); j ← seqZ 0 (sectorCount this);
  flatCellTexCoords this i j.

Definition flatIndicesSpec (sc st : Z) : list Z :=
  i ← seqZ 0 st; j ← seqZ 0 sc; flatCellIndices sc st i j.

(** State of the triangle loop of the flat builder after the arrays have
    received [dV], [dN], [dT] and [dX] from their first element on, the
    rest being as allocated. *)
Definition flatDone this0 (n m : Z) (dV dN dT : list F32) (dX : list Z)
    (s : FlatState F F32) : Prop :=
  f_this s =
    arrays (dV ++ replicate (Z.to_nat (3 * n) - length dV) f32_zero)
           (dN ++ replicate (Z.to_nat (3 * n) - length dN) f32_zero)
           (dT ++ replicate (Z.to_nat (2 * n) - length dT) f32_zero)
           ((to_uint16 <$> dX) ++ replicate (Z.to_nat m - length dX) 0)
           this0 /\
  f_ii s = Z.of_nat (length dV) /\ length dN = length dV /\
  f_jj s = Z.of_nat (length dT) /\ f_kk s = Z.of_nat (length dX).

(** What the triangle loop has emitted when it enters the sector [j] of
    the stack [i]: the stacks before [i] and the sectors of [i] before
    [j], [cell] giving the part of one sector. *)
Definition flatProgress {A} (sc : Z) (cell : Z -> Z -> list A) (i j : Z) : list A :=
  (seqZ 0 i ≫= fun i' => seqZ 0 sc ≫= cell i') ++ (seqZ 0 j ≫= cell i).

(** Invariant of the triangle loop on the object [this], resized, at the
    sector [j] of the stack [i]. *)
Definition flatAt this (i j : Z) (s : FlatState F F32) : Prop :=
  let sc := sectorCount this in
  let st := stackCount this in
  flatDone this (flatIndexAt sc st st) (flatKkAt sc st st)
    (flatProgress sc (flatCellPositions this) i j)
    (flatProgress sc (flatCellNormals this) i j)
    (flatProgress sc (flatCellTexCoords this) i j)
    (flatProgress sc (flatCellIndices sc st) i j) s /\
  f_index s = flatFirstIndex sc st i j.

(** The objects a page can hold as long as its calls pass integer
    counts and return: constructed on a context, then changed through
    [set] and the setters, in any order. A call that throws returns no
    object, and what it leaves behind is none of these. *)
Inductive reachable : Sphere F F32 -> Prop :=
  | reach_new g r se st sm s :
      Sphere_new (Some g) r se st sm = Return s -> reachable s
  | reach_set r se st sm s s' :
      reachable s -> set r se st sm s = Return s' -> reachable s'
  | reach_setRadius r s s' :
      reachable s -> setRadius r s = Return s' -> reachable s'
  | reach_setSectorCount n s s' :
      reachable s -> setSectorCount n s = Return s' -> reachable s'
  | reach_setStackCount n s s' :
      reachable s -> setStackCount n s = Return s' -> reachable s'
  | reach_setSmooth b s s' :
      reachable s -> setSmooth b s = Return s' -> reachable s'.

(** The object holds a context and two different buffers of it, and
    the stride of the interleaved array. *)
Definition hasBuffers this : Prop :=
  stride this = 32 /\
  exists g b1 b2,
    gl this = Some g /\ vboVertex this = Some b1 /\ vboIndex this = Some b2 /\
    b1 <> b2 /\ (b1 < glBuffers g)%nat /\ (b2 < glBuffers g)%nat.

(** The object is what [set] returns for the four values it stores. *)
Definition steady (s : Sphere F F32) : Prop :=
  hasBuffers s /\
  exists this g,
    gl this = Some g /\
    set (radius s) (sectorCount s) (stackCount s) (smooth s) this = Return s.

End Further.

(** ** Allocation limits *)

(** The longest typed array the language allows: [new Float32Array(len)]
    converts [len] with [ToIndex], which throws a RangeError above
    [2^53 - 1]. *)
Definition maxIndex : Z := 2 ^ 53 - 1.

(** What an engine adds to that: the longest [Float32Array] and the
    longest [Uint16Array] it allocates. *)
Record Engine := {
  maxFloat32Length : Z;
  maxUint16Length : Z
}.

(** [new Float32Array(len)], [new Uint16Array(len)] on an engine whose
    limit for the type of the array is [limit]: a RangeError for a
    negative length, for a length above [2^53 - 1] and for a length above
    the limit of the engine. *)
Definition newTypedArrayOn {A} (limit : Z) (zero : A) (len : Z) : Js (list A) :=
  if decide (len < 0) then Throw RangeError
  else if decide (maxIndex < len) then Throw RangeError
  else if decide (limit < len) then Throw RangeError
  else Return (replicate (Z.to_nat len) zero).

Section Limits.
Context {F F32 : Type} {num : JsNumber F F32}.
Implicit Types this : Sphere F F32.

(** The allocating functions of [Sphere.js] on an engine [e]: as above,
    with the allocations of [e]. A [Float32Array(3)] of
    [computeFaceNormal] is only asked for after the far longer arrays of
    [resizeArraysFlat] have been allocated. *)
Definition resizeArraysSmoothOn (e : Engine) this : Js (Sphere F F32) :=
  let this := clearArrays this in
  let count := (sectorCount this + 1) * (stackCount this + 1) in
  v ← newTypedArrayOn (maxFloat32Length e) f32_zero (3 * count);
  n ← newTypedArrayOn (maxFloat32Length e) f32_zero (3 * count);
  t ← newTypedArrayOn (maxFloat32Length e) f32_zero (2 * count);
  i ← newTypedArrayOn (maxUint16Length e) 0 (6 * sectorCount this * (stackCount this - 1));
  mret (with_indices i (with_texCoords t (with_normals n (with_vertices v this)))).

Definition resizeArraysFlatOn (e : Engine) this : Js (Sphere F F32) :=
  let this := clearArrays this in
  let count := 6 * sectorCount this + 4 * sectorCount this * (stackCount this - 2) in
  v ← newTypedArrayOn (maxFloat32Length e) f32_zero (3 * count);
  n ← newTypedArrayOn (maxFloat32Length e) f32_zero (3 * count);
  t ← newTypedArrayOn (maxFloat32Length e) f32_zero (2 * count);
  i ← newTypedArrayOn (maxUint16Length e) 0 (6 * sectorCount this * (stackCount this - 1));
  mret (with_indices i (with_texCoords t (with_normals n (with_vertices v this)))).

Definition buildInterleavedVerticesOn (e : Engine) this : Js (Sphere F F32) :=
  let vertexCount := getVertexCount this in
  a ← newTypedArrayOn (maxFloat32Length e) f32_zero (vertexCount * 8);
  let this := with_interleavedVertices a this in
  let len := Z.of_nat (length (vertices this)) in
  let '(this, _, _, _) :=
    for_range 0 ((len + 2) / 3) (fun _ => interleaveStep) (this, 0, 0, 0) in
  mret this.

Definition buildVerticesSmoothOn (e : Engine) this : Js (Sphere F F32) :=
  this ← resizeArraysSmoothOn e this;
  let this := (smoothVertexLoop this).1.1 in
  let this := (smoothIndexLoop this).1 in
  this ← buildInterleavedVerticesOn e this;
  buildVbos this.

Definition buildVerticesFlatOn (e : Engine) this : Js (Sphere F F32) :=
  let tmpVertices := flatTmpVertices this in
  this ← resizeArraysFlatOn e this;
  st ← flatTriangleLoop tmpVertices this;
  this ← buildInterleavedVerticesOn e (f_this st);
  buildVbos this.

Definition setOn (e : Engine) (r : F) (se st : Z) (sm : bool) this : Js (Sphere F F32) :=
  let this := with_radius r this in
  let this := with_sectorCount se this in
  let this := if decide (se < 3) then with_sectorCount 3 this else this in
  let this := with_stackCount st this in
  let this := if decide (st < 2) then with_stackCount 2 this else this in
  let this := with_smooth sm this in
  if sm then buildVerticesSmoothOn e this else buildVerticesFlatOn e this.

Definition setRadiusOn (e : Engine) (r : F) this : Js (Sphere F F32) :=
  if fne (radius this) r
  then setOn e r (sectorCount this) (stackCount this) (smooth this) this
  else mret this.

Definition setSectorCountOn (e : Engine) (s : Z) this : Js (Sphere F F32) :=
  if decide (sectorCount this <> s)
  then setOn e (radius this) s (stackCount this) (smooth this) this
  else mret this.

Definition setStackCountOn (e : Engine) (s : Z) this : Js (Sphere F F32) :=
  if decide (stackCount this <> s)
  then setOn e (radius this) (sectorCount this) s (smooth this) this
  else mret this.

Definition setSmoothOn (e : Engine) (s : bool) this : Js (Sphere F F32) :=
  if decide (smooth this <> s) then
    let this := with_smooth s this in
    if smooth this then buildVerticesSmoothOn e this else buildVerticesFlatOn e this
  else mret this.

(** The number of vertices of the mesh of a shape, and the five lengths
    a build asks for: they fit the engine when the longest
    [Float32Array], the interleaved one, and the index array do. *)
Definition meshVertexCount (sc st : Z) (sm : bool) : Z :=
  if sm then (sc + 1) * (st + 1) else 6 * sc + 4 * sc * (st - 2).

Definition meshFits (e : Engine) (sc st : Z) (sm : bool) : Prop :=
  8 * meshVertexCount sc st sm <= Z.min maxIndex (maxFloat32Length e) /\
  6 * sc * (st - 1) <= Z.min maxIndex (maxUint16Length e).

End Limits.

(** An engine with no limit of its own: the limit of the language alone. *)
Definition unlimited : Engine :=
  {| maxFloat32Length := maxIndex; maxUint16Length := maxIndex |}.

(** ** The buffers of the context, and what a draw call reads *)

(** State of a WebGL context as far as buffers go: the buffer bound to
    each of the two targets and the data uploaded to the buffers, the
    latest upload first. *)
Record GLState (F32 : Type) := {
  arrayBinding : option nat;
  elementBinding : option nat;
  bufferStore : list (nat * GLData F32)
}.
Arguments arrayBinding {F32} _.
Arguments elementBinding {F32} _.
Arguments bufferStore {F32} _.

Definition glBinding {F32} (t : GLTarget) (st : GLState F32) : option nat :=
  match t with
  | ARRAY_BUFFER => arrayBinding st
  | ELEMENT_ARRAY_BUFFER => elementBinding st
  end.

(** [bindBuffer] sets the binding of its target; [bufferData] replaces
    the data of the buffer bound to its target, and is an error that
    changes nothing when none is bound. *)
Definition gl_step {F32} (st : GLState F32) (c : GLCall F32) : GLState F32 :=
  match c with
  | bindBuffer ARRAY_BUFFER b =>
    {| arrayBinding := b; elementBinding := elementBinding st;
       bufferStore := bufferStore st |}
  | bindBuffer ELEMENT_ARRAY_BUFFER b =>
    {| arrayBinding := arrayBinding st; elementBinding := b;
       bufferStore := bufferStore st |}
  | bufferData t d =>
    match glBinding t st with
    | Some h =>
      {| arrayBinding := arrayBinding st; elementBinding := elementBinding st;
         bufferStore := (h, d) :: bufferStore st |}
    | None => st
    end
  end.

Definition gl_state {F32} (calls : list (GLCall F32)) : GLState F32 :=
  fold_left gl_step calls
    {| arrayBinding := None; elementBinding := None; bufferStore := [] |}.

Fixpoint storeLookup {F32} (h : nat) (l : list (nat * GLData F32)) : option (GLData F32) :=
  match l with
  | [] => None
  | (h', d) :: l' => if decide (h' = h) then Some d else storeLookup h l'
  end.

(** The data the buffer [h] holds after the calls made on [g]. *)
Definition bufferContents {F32} (g : GL F32) (h : nat) : option (GLData F32) :=
  storeLookup h (bufferStore (gl_state (glCalls g))).

(** The attribute a draw call reads for the vertex [v] from a buffer of
    4-byte floats described by
    [vertexAttribPointer(location, size, gl.FLOAT, false, stride, offset)]:
    [size] numbers from the byte [stride*v + offset]. *)
Definition vertexAttrib {A} (buffer : list A) (size stride offset v : Z) : list A :=
  take (Z.to_nat size) (drop (Z.to_nat ((stride * v + offset) / 4)) buffer).

(** The object a call returns; [sphere0] stands for none. *)
Definition returned (r : Js (Sphere R R)) : Sphere R R :=
  match r with
  | Return s => s
  | Throw _ => sphere0
  end.

(** Two spheres of a page, in exact arithmetic: one constructed with
    three sectors, one constructed with five sectors and then set to
    three. *)
Definition sphere1 : Sphere R R := returned (Sphere_new (Some gl0) 1%R 3 2 true).
Definition sphere5 : Sphere R R := returned (Sphere_new (Some gl0) 1%R 5 2 true).
Definition sphere2 : Sphere R R := returned (setSectorCount 3 sphere5).

(** ** IEEE 754 arithmetic *)

(** The numbers of JavaScript are the binary64 values of IEEE 754, here
    the primitive floats of Rocq, whose operations round to nearest, ties
    to even, as the language requires. [Math.cos] and [Math.sin] are left
    to the engine by the language ("implementation-approximated"): they
    are parameters of the instance. *)

(** An integer as a number: the nearest binary64 value. *)
Definition float_of_Z (z : Z) : PrimFloat.float :=
  FloatOps.SF2Prim (SpecFloat.binary_normalize 53 1024 z 0 false).

(** The binary64 value that a [Float32Array] holds after a store of [x]:
    [x] rounded to binary32 (24 bits of precision, exponents below 128);
    zeros, infinities and NaN are stored as they are. *)
Definition round32 (x : PrimFloat.float) : PrimFloat.float :=
  match FloatOps.Prim2SF x with
  | SpecFloat.S754_finite s m e => FloatOps.SF2Prim (SpecFloat.binary_round 24 128 s m e)
  | _ => x
  end.

(** An element of a [Float32Array]: a number that the rounding to
    binary32 leaves as it is. *)
Record Float32 := {
  f32_val : PrimFloat.float;
  f32_ok : PrimFloat.Leibniz.eqb (round32 f32_val) f32_val = true
}.

Definition float32_zero : Float32 :=
  {| f32_val := PrimFloat.zero; f32_ok := eq_refl |}.

Definition float32_nan : Float32 :=
  {| f32_val := PrimFloat.nan; f32_ok := eq_refl |}.

(** The store into a [Float32Array]. Rounding a rounded value changes
    nothing, so the second case does not arise; it is there because the
    library of primitive floats has no proof of that. *)
Definition float32_round (x : PrimFloat.float) : Float32 :=
  match Sumbool.sumbool_of_bool
          (PrimFloat.Leibniz.eqb (round32 (round32 x)) (round32 x)) with
  | left ok => {| f32_val := round32 x; f32_ok := ok |}
  | right _ => float32_nan
  end.

(** [Math.PI], the literal [0.000001]. *)
Definition float_PI : PrimFloat.float :=
  FloatOps.SF2Prim (SpecFloat.S754_finite false 7074237752028440 (-51)).

Definition float_eps : PrimFloat.float :=
  FloatOps.SF2Prim (SpecFloat.S754_finite false 4722366482869645 (-72)).

#[global, refine] Instance Binary64 (cos sin : PrimFloat.float -> PrimFloat.float) :
    JsNumber PrimFloat.float Float32 := {|
  num_of_Z := float_of_Z;
  fadd := PrimFloat.add;
  fsub := PrimFloat.sub;
  fmul := PrimFloat.mul;
  fdiv := PrimFloat.div;
  fsqrt := PrimFloat.sqrt;
  fcos := cos;
  fsin := sin;
  fPI := float_PI;
  feps := float_eps;
  fgt := fun a b => PrimFloat.ltb b a;
  fne := fun a b => negb (PrimFloat.eqb a b);
  fround := float32_round;
  widen := f32_val;
  f32_zero := float32_zero;
  f32_undef := float32_nan;
  fround_widen := _
|}.
Proof.
  intros [y ok]. cbn [f32_val].
  assert (Hy : round32 y = y) by (by apply FloatAxioms.Leibniz.eqb_spec).
  unfold float32_round.
  destruct (Sumbool.sumbool_of_bool _) as [ok'|no].
  - revert ok'. rewrite Hy. intros ok'. f_equal.
    apply Eqdep_dec.UIP_dec, Bool.bool_dec.
  - rewrite Hy, ok in no. discriminate no.
Defined.

(** The number 1e-310, as the literal is read: positive, and so small
    that [1.0 / 1e-310] overflows. *)
Definition float_tiny : PrimFloat.float :=
  FloatOps.SF2Prim (SpecFloat.S754_finite false 20240225330731 (-1074)).

(** A context on which nothing has been called yet, for binary64
    meshes. *)
Definition gl64 : GL Float32 := {| glBuffers := 0; glCalls := [] |}.


(** * Properties *)

(** ** Loops *)

Lemma for_range_nil {St} lo hi (body : Z -> St -> St) s :
  hi <= lo -> for_range lo hi body s = s.
Proof. intros Hle. unfold for_range. by rewrite seqZ_nil by lia. Qed.

Lemma for_range_snoc {St} lo hi (body : Z -> St -> St) s :
  lo <= hi ->
  for_range lo (hi + 1) body s = body hi (for_range lo hi body s).
Proof.
  intros Hle. unfold for_range.
  replace (hi + 1 - lo) with ((hi - lo) + 1) by lia.
  rewrite seqZ_app by lia. rewrite fold_left_app.
  replace (lo + (hi - lo)) with hi by lia.
  rewrite (seqZ_cons hi 1) by lia. by rewrite seqZ_nil by lia.
Qed.

(** The loop invariant rule: [P i s] holds of the state before the
    iteration numbered [i]. *)
Lemma for_range_ind {St} (P : Z -> St -> Prop) lo hi (body : Z -> St -> St) s :
  lo <= hi ->
  P lo s ->
  (forall i s', lo <= i < hi -> P i s' -> P (i + 1) (body i s')) ->
  P hi (for_range lo hi body s).
Proof.
  intros Hle H0 Hstep.
  assert (Hgen : forall n : nat, lo + Z.of_nat n <= hi ->
            P (lo + Z.of_nat n) (for_range lo (lo + Z.of_nat n) body s)).
  { induction n as [|n IH]; intros Hn.
    - rewrite Z.add_0_r. by rewrite for_range_nil by lia.
    - replace (lo + Z.of_nat (S n)) with (lo + Z.of_nat n + 1) by lia.
      rewrite for_range_snoc by lia. apply Hstep; [lia|]. apply IH. lia. }
  specialize (Hgen (Z.to_nat (hi - lo))).
  replace (lo + Z.of_nat (Z.to_nat (hi - lo))) with hi in Hgen by lia.
  apply Hgen. lia.
Qed.

Lemma for_eachM_app {St} l1 l2 (body : Z -> St -> Js St) s :
  for_eachM (l1 ++ l2) body s = s' ← for_eachM l1 body s; for_eachM l2 body s'.
Proof.
  revert s. induction l1 as [|i l1 IH]; intros s; simpl; [done|].
  destruct (body i s) as [e|s1]; simpl; [done|]. apply IH.
Qed.

Lemma for_rangeM_nil {St} lo hi (body : Z -> St -> Js St) s :
  hi <= lo -> for_rangeM lo hi body s = Return s.
Proof. intros Hle. unfold for_rangeM. by rewrite seqZ_nil by lia. Qed.

Lemma for_rangeM_snoc {St} lo hi (body : Z -> St -> Js St) s :
  lo <= hi ->
  for_rangeM lo (hi + 1) body s = s' ← for_rangeM lo hi body s; body hi s'.
Proof.
  intros Hle. unfold for_rangeM.
  replace (hi + 1 - lo) with ((hi - lo) + 1) by lia.
  rewrite seqZ_app by lia. rewrite for_eachM_app.
  replace (lo + (hi - lo)) with hi by lia.
  rewrite (seqZ_cons hi 1) by lia. rewrite seqZ_nil by lia.
  destruct (for_eachM _ body s) as [e|s1]; simpl; [done|].
  by destruct (body hi s1).
Qed.

(** The invariant rule for a loop whose body may throw: when every
    iteration returns and keeps the invariant, so does the loop. *)
Lemma for_rangeM_ind {St} (P : Z -> St -> Prop) lo hi (body : Z -> St -> Js St) s :
  lo <= hi ->
  P lo s ->
  (forall i s', lo <= i < hi -> P i s' ->
     exists s'', body i s' = Return s'' /\ P (i + 1) s'') ->
  exists s', for_rangeM lo hi body s = Return s' /\ P hi s'.
Proof.
  intros Hle H0 Hstep.
  assert (Hgen : forall n : nat, lo + Z.of_nat n <= hi ->
            exists s', for_rangeM lo (lo + Z.of_nat n) body s = Return s' /\
                       P (lo + Z.of_nat n) s').
  { induction n as [|n IH]; intros Hn.
    - rewrite Z.add_0_r. rewrite for_rangeM_nil by lia. eauto.
    - replace (lo + Z.of_nat (S n)) with (lo + Z.of_nat n + 1) by lia.
      rewrite for_rangeM_snoc by lia.
      destruct IH as (s1 & -> & HP); [lia|]. simpl.
      apply Hstep; [lia|done]. }
  specialize (Hgen (Z.to_nat (hi - lo))).
  replace (lo + Z.of_nat (Z.to_nat (hi - lo))) with hi in Hgen by lia.
  apply Hgen. lia.
Qed.

(** ** Typed arrays *)

Lemma length_ta_store {A} (a : list A) i x : length (ta_store a i x) = length a.
Proof. unfold ta_store. case_decide; [apply length_insert|done]. Qed.

Lemma lookup_ta_store_eq {A} (a : list A) i x :
  0 <= i < Z.of_nat (length a) -> ta_store a i x !! Z.to_nat i = Some x.
Proof.
  intros Hi. unfold ta_store. rewrite decide_True by lia.
  apply list_lookup_insert_eq. lia.
Qed.

Lemma lookup_ta_store_ne {A} (a : list A) i x (n : nat) :
  i <> Z.of_nat n -> ta_store a i x !! n = a !! n.
Proof.
  intros Hi. unfold ta_store. case_decide; [|done].
  apply list_lookup_insert_ne. lia.
Qed.

Lemma Forall_ta_store {A} (P : A -> Prop) (a : list A) i x :
  Forall P a -> P x -> Forall P (ta_store a i x).
Proof. intros Ha Hx. unfold ta_store. case_decide; [by apply Forall_insert|done]. Qed.

Lemma newTypedArray_nonneg {A} (zero : A) len :
  0 <= len -> newTypedArray zero len = Return (replicate (Z.to_nat len) zero).
Proof. intros Hl. unfold newTypedArray. by rewrite decide_False by lia. Qed.

Lemma to_uint16_le n : 0 <= n -> 0 <= to_uint16 n <= n.
Proof.
  intros Hn. unfold to_uint16. split; [apply Z.mod_pos_bound; lia|].
  apply Z.mod_le; lia.
Qed.

Lemma to_uint16_small n : 0 <= n < 65536 -> to_uint16 n = n.
Proof. intros Hn. unfold to_uint16. by apply Z.mod_small. Qed.

Lemma length_ta_write {A} (a : list A) k l : length (ta_write a k l) = length a.
Proof.
  revert a k. induction l as [|x l IH]; intros a k; simpl; [done|].
  by rewrite IH, length_ta_store.
Qed.

Lemma ta_write_app {A} (a : list A) k l1 l2 :
  ta_write a k (l1 ++ l2) = ta_write (ta_write a k l1) (k + Z.of_nat (length l1)) l2.
Proof.
  revert a k. induction l1 as [|x l1 IH]; intros a k; cbn [ta_write app length].
  - by rewrite Z.add_0_r.
  - rewrite IH. f_equal. lia.
Qed.

Lemma ta_write_fill {A} (pre rest l : list A) :
  length rest = length l ->
  ta_write (pre ++ rest) (Z.of_nat (length pre)) l = pre ++ l.
Proof.
  revert pre rest. induction l as [|x l IH]; intros pre rest Hlen; simpl.
  - destruct rest; [done|discriminate].
  - destruct rest as [|r rest]; [discriminate|].
    unfold ta_store. rewrite decide_True by lia. rewrite Nat2Z.id.
    replace (length pre) with (length pre + 0)%nat at 1 by lia.
    rewrite insert_app_r. simpl.
    replace (pre ++ x :: rest) with ((pre ++ [x]) ++ rest) by by rewrite <- app_assoc.
    replace (Z.of_nat (length pre) + 1) with (Z.of_nat (length (pre ++ [x])))
      by (rewrite length_app; simpl; lia).
    simpl in Hlen. rewrite IH by lia. by rewrite <- app_assoc.
Qed.

(** Writing as many elements as the array holds, from offset 0, leaves
    exactly the written elements. *)
Lemma ta_write_full {A} (a l : list A) :
  length l = length a -> ta_write a 0 l = l.
Proof. intros Hlen. by apply (ta_write_fill [] a l). Qed.

Lemma Forall_ta_write {A} (P : A -> Prop) (a : list A) k l :
  Forall P a -> Forall P l -> Forall P (ta_write a k l).
Proof.
  revert a k. induction l as [|x l IH]; intros a k Ha Hl; simpl; [done|].
  inversion Hl; subst. apply IH; [|done]. by apply Forall_ta_store.
Qed.

Lemma length_bind_const {A B} (f : A -> list B) (l : list A) (c : nat) :
  (forall x, x ∈ l -> length (f x) = c) -> length (l ≫= f) = (length l * c)%nat.
Proof.
  induction l as [|x l IH]; intros Hc; [done|].
  rewrite bind_cons, length_app. rewrite Hc by left.
  rewrite IH; [simpl; lia|]. intros y Hy. apply Hc. by right.
Qed.

Lemma seqZ_snoc lo n : 0 <= n -> seqZ lo (n + 1) = seqZ lo n ++ [lo + n].
Proof.
  intros Hn. rewrite seqZ_app by lia.
  rewrite (seqZ_cons (lo + n) 1) by lia.
  by rewrite (seqZ_nil (Z.succ (lo + n))) by lia.
Qed.

Lemma lookup_ta_write {A} (a l : list A) k (m : nat) :
  0 <= k -> k + Z.of_nat (length l) <= Z.of_nat (length a) ->
  ta_write a k l !! m =
  if decide (k <= Z.of_nat m < k + Z.of_nat (length l))
  then l !! (m - Z.to_nat k)%nat else a !! m.
Proof.
  revert a k. induction l as [|x l IH]; intros a k Hk Hlen; cbn [ta_write].
  - rewrite decide_False; [done|]. cbn [length]. lia.
  - cbn [length] in Hlen. rewrite IH by (rewrite ?length_ta_store; lia).
    destruct (decide (Z.of_nat m = k)) as [Hm|Hm].
    + rewrite decide_False by lia. rewrite decide_True by (cbn [length]; lia).
      replace (m - Z.to_nat k)%nat with 0%nat by lia.
      replace m with (Z.to_nat k) by lia. rewrite lookup_ta_store_eq by lia. done.
    + rewrite lookup_ta_store_ne by lia.
      destruct (decide (k + 1 <= Z.of_nat m < k + 1 + Z.of_nat (length l))) as [Hin|Hout].
      * rewrite decide_True by (cbn [length]; lia).
        replace (m - Z.to_nat k)%nat with (S (m - Z.to_nat (k + 1)))%nat by lia. done.
      * rewrite decide_False by (cbn [length]; lia). done.
Qed.

Lemma slice_ta_write_eq {A} (a l : list A) k :
  0 <= k -> k + Z.of_nat (length l) <= Z.of_nat (length a) ->
  take (length l) (drop (Z.to_nat k) (ta_write a k l)) = l.
Proof.
  intros Hk Hlen. apply list_eq. intros m.
  destruct (decide (m < length l)%nat) as [Hm|Hm].
  - rewrite lookup_take_lt, lookup_drop by done.
    rewrite lookup_ta_write by done. rewrite decide_True by lia.
    f_equal. lia.
  - rewrite lookup_take_ge by lia. symmetry. apply lookup_ge_None. lia.
Qed.

Lemma slice_ta_write_ne {A} (a l : list A) k k' (n : nat) :
  0 <= k -> k + Z.of_nat (length l) <= Z.of_nat (length a) -> 0 <= k' ->
  k' + Z.of_nat n <= k \/ k + Z.of_nat (length l) <= k' ->
  take n (drop (Z.to_nat k') (ta_write a k l)) = take n (drop (Z.to_nat k') a).
Proof.
  intros Hk Hlen Hk' Hdisj. apply list_eq. intros m.
  destruct (decide (m < n)%nat) as [Hm|Hm].
  - rewrite !lookup_take_lt, !lookup_drop by done.
    rewrite lookup_ta_write by done. by rewrite decide_False by lia.
  - by rewrite !lookup_take_ge by lia.
Qed.

(** ** The index array in smooth mode *)

Section SmoothIndices.
Context {F F32 : Type} {num : JsNumber F F32}.
Implicit Types this : Sphere F F32.

Lemma addIndices_write kk a b c this :
  addIndices kk a b c this =
  with_indices (ta_write (indices this) kk (to_uint16 <$> [a; b; c])) this.
Proof.
  unfold addIndices. cbn [ta_write fmap list_fmap].
  by replace (kk + 1 + 1) with (kk + 2) by lia.
Qed.

Lemma emit_triangle this0 (done : list Z) kk a b c :
  kk = Z.of_nat (length done) ->
  addIndices kk a b c
    (with_indices (ta_write (indices this0) 0 (to_uint16 <$> done)) this0) =
  with_indices (ta_write (indices this0) 0 (to_uint16 <$> done ++ [a; b; c])) this0.
Proof.
  intros ->. rewrite addIndices_write. cbn [indices with_indices].
  by rewrite fmap_app, ta_write_app, length_fmap.
Qed.

Lemma smoothIndexStep_emitted this0 done i j k1 :
  k1 = i * (sectorCount this0 + 1) + j ->
  smoothIndexStep i j
    ((emitted this0 done).1, (emitted this0 done).2, k1, k1 + sectorCount this0 + 1) =
  let done' := done ++ smoothCellIndices (sectorCount this0) (stackCount this0) i j in
  ((emitted this0 done').1, (emitted this0 done').2, k1 + 1, k1 + sectorCount this0 + 1 + 1).
Proof.
  intros ->. unfold smoothIndexStep, smoothCellIndices. cbn zeta.
  set (k1 := i * (sectorCount this0 + 1) + j).
  set (k2 := k1 + sectorCount this0 + 1).
  destruct (decide (i = 0)) as [Hi0|Hi0];
    [rewrite (decide_False (P := i <> 0)) by lia
    |rewrite (decide_True (P := i <> 0)) by lia];
  cbn beta iota; change (stackCount (_ this0 done).1) with (stackCount this0);
  change (stackCount (addIndices _ _ _ _ (_ this0 done).1)) with (stackCount this0);
  (destruct (decide (i = stackCount this0 - 1)) as [Hi1|Hi1];
    [rewrite (decide_False (P := i <> stackCount this0 - 1)) by lia
    |rewrite (decide_True (P := i <> stackCount this0 - 1)) by lia]);
  cbn beta iota; unfold emitted; cbn [fst snd];
  rewrite ?(emit_triangle this0 done) by done;
  rewrite ?(emit_triangle this0 (done ++ _)) by (rewrite length_app; cbn [length]; lia);
  rewrite ?app_nil_r, <- ?app_assoc, ?length_app; cbn [app length];
  repeat f_equal; lia.
Qed.

Lemma smoothIndexRow_emitted this0 done i :
  0 <= sectorCount this0 ->
  smoothIndexRow i (emitted this0 done) =
  emitted this0
    (done ++ (seqZ 0 (sectorCount this0) ≫=
              smoothCellIndices (sectorCount this0) (stackCount this0) i)).
Proof.
  intros Hsc. unfold smoothIndexRow. unfold emitted at 1.
  change (sectorCount (with_indices _ this0)) with (sectorCount this0).
  set (cell := smoothCellIndices (sectorCount this0) (stackCount this0) i).
  set (k0 := i * (sectorCount this0 + 1)).
  pose (P := fun (j : Z) (st : Sphere F F32 * Z * Z * Z) =>
    st = ((emitted this0 (done ++ (seqZ 0 j ≫= cell))).1,
          (emitted this0 (done ++ (seqZ 0 j ≫= cell))).2,
          k0 + j, k0 + j + sectorCount this0 + 1)).
  assert (HP : P (sectorCount this0)
    (for_range 0 (sectorCount this0) (smoothIndexStep i)
       (with_indices (ta_write (indices this0) 0 (to_uint16 <$> done)) this0,
        Z.of_nat (length done), k0, k0 + sectorCount this0 + 1))).
  { apply for_range_ind; [done| |].
    - unfold P. rewrite seqZ_nil by lia. cbn [mbind list_bind]. rewrite app_nil_r.
      unfold emitted. cbn [fst snd]. f_equal; [f_equal|]; lia.
    - intros j st Hj ->. unfold P.
      rewrite smoothIndexStep_emitted by done. cbn zeta.
      rewrite seqZ_snoc by lia. rewrite bind_app, bind_singleton.
      rewrite Z.add_0_l. fold cell. rewrite <- app_assoc.
      f_equal; [f_equal|]; lia. }
  rewrite HP. reflexivity.
Qed.

Lemma with_indices_id this : with_indices (indices this) this = this.
Proof. by destruct this. Qed.

(** The index loop stores, in order and from offset 0, the index values
    the specification lists. *)
Lemma smoothIndexLoop_emitted this0 :
  0 <= sectorCount this0 -> 0 <= stackCount this0 ->
  smoothIndexLoop this0 =
  emitted this0 (smoothIndicesSpec (sectorCount this0) (stackCount this0)).
Proof.
  intros Hsc Hst. unfold smoothIndexLoop, smoothIndicesSpec.
  set (row := fun i : Z => seqZ 0 (sectorCount this0) ≫=
                smoothCellIndices (sectorCount this0) (stackCount this0) i).
  apply (for_range_ind (fun i st => st = emitted this0 (seqZ 0 i ≫= row))); [done| |].
  - rewrite seqZ_nil by lia. unfold emitted. cbn [mbind list_bind fmap list_fmap ta_write length].
    by rewrite with_indices_id.
  - intros i st Hi ->. rewrite smoothIndexRow_emitted by done.
    rewrite seqZ_snoc by lia. by rewrite bind_app, bind_singleton.
Qed.

Lemma length_smoothCellIndices sc st i j :
  Z.of_nat (length (smoothCellIndices sc st i j)) =
  (if decide (i = 0) then 0 else 3) + (if decide (i = st - 1) then 0 else 3).
Proof.
  unfold smoothCellIndices. rewrite length_app.
  by destruct (decide (i = 0)), (decide (i = st - 1)).
Qed.

Lemma length_smoothRow sc st i :
  0 <= sc ->
  Z.of_nat (length (seqZ 0 sc ≫= smoothCellIndices sc st i)) =
  sc * ((if decide (i = 0) then 0 else 3) + (if decide (i = st - 1) then 0 else 3)).
Proof.
  intros Hsc.
  rewrite (length_bind_const _ _
    (Z.to_nat ((if decide (i = 0) then 0 else 3) + (if decide (i = st - 1) then 0 else 3)))).
  - rewrite length_seqZ. destruct (decide (i = 0)), (decide (i = st - 1)); lia.
  - intros j _. pose proof (length_smoothCellIndices sc st i j). lia.
Qed.

Lemma length_smoothRows sc st (n : nat) :
  0 <= sc -> 2 <= st -> Z.of_nat n <= st ->
  Z.of_nat (length (seqZ 0 (Z.of_nat n) ≫=
                    fun i => seqZ 0 sc ≫= smoothCellIndices sc st i)) =
  6 * sc * Z.of_nat n - (if decide (0 < Z.of_nat n) then 3 * sc else 0)
                      - (if decide (st - 1 < Z.of_nat n) then 3 * sc else 0).
Proof.
  intros Hsc Hst. induction n as [|n IH]; intros Hn.
  - change (Z.of_nat 0) with 0. rewrite (seqZ_nil 0 0) by lia.
    cbn [mbind list_bind length]. rewrite !decide_False by lia. lia.
  - rewrite seqZ_S, bind_app, bind_singleton, length_app, Nat2Z.inj_add.
    rewrite IH by lia. rewrite length_smoothRow by done.
    rewrite Z.add_0_l.
    repeat case_decide; lia.
Qed.

(** The specification's list holds [6*sectorCount*(stackCount-1)] index
    values. *)
Lemma length_smoothIndicesSpec sc st :
  0 <= sc -> 2 <= st ->
  Z.of_nat (length (smoothIndicesSpec sc st)) = 6 * sc * (st - 1).
Proof.
  intros Hsc Hst. unfold smoothIndicesSpec.
  replace st with (Z.of_nat (Z.to_nat st)) at 1 by lia.
  rewrite length_smoothRows by lia.
  rewrite Z2Nat.id by lia. rewrite !decide_True by lia. lia.
Qed.

End SmoothIndices.

(** ** The vertex arrays in smooth mode *)

Lemma cell_index_inj W i j i' j' :
  0 <= j < W -> 0 <= j' < W -> i * W + j = i' * W + j' -> i = i' /\ j = j'.
Proof.
  intros Hj Hj' Heq.
  assert (i = i') as -> by nia. lia.
Qed.

Section SmoothVertices.
Context {F F32 : Type} {num : JsNumber F F32}.
Implicit Types this : Sphere F F32.

Lemma addVertex_write ii x y z this :
  addVertex ii x y z this =
  with_vertices (ta_write (vertices this) ii (round3 (x, y, z))) this.
Proof.
  unfold addVertex, round3. cbn [ta_write fst snd].
  by replace (ii + 1 + 1) with (ii + 2) by lia.
Qed.

Lemma addNormal_write ii x y z this :
  addNormal ii x y z this =
  with_normals (ta_write (normals this) ii (round3 (x, y, z))) this.
Proof.
  unfold addNormal, round3. cbn [ta_write fst snd].
  by replace (ii + 1 + 1) with (ii + 2) by lia.
Qed.

Lemma addTexCoord_write jj s t this :
  addTexCoord jj s t this =
  with_texCoords (ta_write (texCoords this) jj (round2 (s, t))) this.
Proof. reflexivity. Qed.

Lemma smoothVertexStep_filled this0 this i j v :
  v = i * (sectorCount this0 + 1) + j -> 0 <= i -> 0 <= j <= sectorCount this0 ->
  3 * (v + 1) <= Z.of_nat (length (vertices this0)) ->
  3 * (v + 1) <= Z.of_nat (length (normals this0)) ->
  2 * (v + 1) <= Z.of_nat (length (texCoords this0)) ->
  smoothFilled this0 v this ->
  let lengthInv := fdiv (num_of_Z 1) (radius this0) in
  let sectorStep := fdiv (fmul (num_of_Z 2) fPI) (num_of_Z (sectorCount this0)) in
  let stackStep := fdiv fPI (num_of_Z (stackCount this0)) in
  let stackAngle := fsub (fdiv fPI (num_of_Z 2)) (fmul (num_of_Z i) stackStep) in
  let xy := fmul (radius this0) (fcos stackAngle) in
  let z := fmul (radius this0) (fsin stackAngle) in
  exists this',
    smoothVertexStep lengthInv sectorStep xy z i j (this, 3 * v, 2 * v) =
      (this', 3 * (v + 1), 2 * (v + 1)) /\
    smoothFilled this0 (v + 1) this'.
Proof.
  intros Hv Hi Hj HlenV HlenN HlenT (V & N & T & -> & HV & HN & HT & Hold).
  intros lengthInv sectorStep stackStep stackAngle xy z.
  unfold smoothVertexStep.
  rewrite addVertex_write, addNormal_write, addTexCoord_write.
  eexists. split.
  { replace (3 * (v + 1)) with (3 * v + 3) by lia.
    replace (2 * (v + 1)) with (2 * v + 2) by lia. reflexivity. }
  cbn [vertices normals texCoords with_vertices with_normals with_texCoords
       sectorCount stackCount].
  exists (ta_write V (3 * v) (round3 (smoothPosition this0 i j))),
         (ta_write N (3 * v) (round3 (smoothNormal this0 i j))),
         (ta_write T (2 * v) (round2 (smoothTexCoord this0 i j))).
  split; [reflexivity|].
  rewrite !length_ta_write. do 3 (split; [done|]).
  intros i' j' Hi' Hj' Hv'.
  destruct (decide (i' * (sectorCount this0 + 1) + j' < v)) as [Hlt|Hge].
  - destruct (Hold i' j' Hi' Hj' Hlt) as (HoV & HoN & HoT).
    rewrite <- HoV, <- HoN, <- HoT. unfold slice3, slice2.
    assert (0 <= i' * (sectorCount this0 + 1) + j') by nia.
    rewrite !slice_ta_write_ne; [done|..]; cbn [length round3 round2]; lia.
  - destruct (cell_index_inj (sectorCount this0 + 1) i j i' j') as [-> ->]; [lia..|].
    assert (0 <= v) by nia. rewrite <- Hv. unfold slice3, slice2.
    split; [|split].
    + apply (slice_ta_write_eq V (round3 _)); cbn [length round3]; lia.
    + apply (slice_ta_write_eq N (round3 _)); cbn [length round3]; lia.
    + apply (slice_ta_write_eq T (round2 _)); cbn [length round2]; lia.
Qed.

Lemma smoothFilled_params this0 v this :
  smoothFilled this0 v this ->
  radius this = radius this0 /\ sectorCount this = sectorCount this0 /\
  stackCount this = stackCount this0.
Proof. by intros (V & N & T & -> & _). Qed.

Lemma smoothStackStep_filled this0 this i :
  0 <= sectorCount this0 -> 0 <= i <= stackCount this0 ->
  Z.of_nat (length (vertices this0)) =
    3 * ((sectorCount this0 + 1) * (stackCount this0 + 1)) ->
  Z.of_nat (length (normals this0)) =
    3 * ((sectorCount this0 + 1) * (stackCount this0 + 1)) ->
  Z.of_nat (length (texCoords this0)) =
    2 * ((sectorCount this0 + 1) * (stackCount this0 + 1)) ->
  smoothFilled this0 (i * (sectorCount this0 + 1)) this ->
  let lengthInv := fdiv (num_of_Z 1) (radius this0) in
  let sectorStep := fdiv (fmul (num_of_Z 2) fPI) (num_of_Z (sectorCount this0)) in
  let stackStep := fdiv fPI (num_of_Z (stackCount this0)) in
  exists this',
    smoothStackStep lengthInv sectorStep stackStep i
      (this, 3 * (i * (sectorCount this0 + 1)), 2 * (i * (sectorCount this0 + 1))) =
      (this', 3 * ((i + 1) * (sectorCount this0 + 1)),
              2 * ((i + 1) * (sectorCount this0 + 1))) /\
    smoothFilled this0 ((i + 1) * (sectorCount this0 + 1)) this'.
Proof.
  intros Hsc Hi HlenV HlenN HlenT Hfilled lengthInv sectorStep stackStep.
  destruct (smoothFilled_params _ _ _ Hfilled) as (Hr & Hs & _).
  unfold smoothStackStep. cbn [fst snd]. rewrite Hr, Hs.
  set (v0 := i * (sectorCount this0 + 1)).
  replace ((i + 1) * (sectorCount this0 + 1)) with (v0 + (sectorCount this0 + 1))
    by (unfold v0; lia).
  apply (for_range_ind (fun j st => exists this',
           st = (this', 3 * (v0 + j), 2 * (v0 + j)) /\
           smoothFilled this0 (v0 + j) this')); [lia| |].
  - exists this. by rewrite Z.add_0_r.
  - intros j st Hj (this1 & -> & Hfilled1).
    replace (v0 + (j + 1)) with (v0 + j + 1) by lia.
    apply smoothVertexStep_filled; [unfold v0; lia|lia|lia|..|done]; unfold v0; nia.
Qed.

(** The vertex loop stores every vertex of the grid, in row order, and
    leaves its counters behind the last element of the arrays. *)
Lemma smoothVertexLoop_run this0 :
  0 <= sectorCount this0 -> 0 <= stackCount this0 ->
  Z.of_nat (length (vertices this0)) =
    3 * ((sectorCount this0 + 1) * (stackCount this0 + 1)) ->
  Z.of_nat (length (normals this0)) =
    3 * ((sectorCount this0 + 1) * (stackCount this0 + 1)) ->
  Z.of_nat (length (texCoords this0)) =
    2 * ((sectorCount this0 + 1) * (stackCount this0 + 1)) ->
  exists this',
    smoothVertexLoop this0 =
      (this', 3 * ((sectorCount this0 + 1) * (stackCount this0 + 1)),
              2 * ((sectorCount this0 + 1) * (stackCount this0 + 1))) /\
    smoothFilled this0 ((sectorCount this0 + 1) * (stackCount this0 + 1)) this'.
Proof.
  intros Hsc Hst HlenV HlenN HlenT. unfold smoothVertexLoop.
  set (W := sectorCount this0 + 1).
  rewrite (Z.mul_comm W).
  apply (for_range_ind (fun i st => exists this',
           st = (this', 3 * (i * W), 2 * (i * W)) /\
           smoothFilled this0 (i * W) this')); [lia| |].
  - exists this0. split; [done|].
    exists (vertices this0), (normals this0), (texCoords this0).
    split; [by destruct this0|]. do 3 (split; [done|]).
    intros i j Hi Hj Hlt. unfold W in Hlt. nia.
  - intros i st Hi (this1 & -> & Hfilled1).
    by apply smoothStackStep_filled; [|lia|..].
Qed.

Lemma smoothVertexLoop_filled this0 :
  0 <= sectorCount this0 -> 0 <= stackCount this0 ->
  Z.of_nat (length (vertices this0)) =
    3 * ((sectorCount this0 + 1) * (stackCount this0 + 1)) ->
  Z.of_nat (length (normals this0)) =
    3 * ((sectorCount this0 + 1) * (stackCount this0 + 1)) ->
  Z.of_nat (length (texCoords this0)) =
    2 * ((sectorCount this0 + 1) * (stackCount this0 + 1)) ->
  smoothFilled this0 ((sectorCount this0 + 1) * (stackCount this0 + 1))
    (smoothVertexLoop this0).1.1.
Proof.
  intros Hsc Hst HlenV HlenN HlenT.
  by destruct (smoothVertexLoop_run this0) as (this' & -> & Hfilled).
Qed.

End SmoothVertices.

(** ** The interleaved array *)

Lemma take3_drop_lookup {A} (a : list A) (n : nat) x0 x1 x2 :
  a !! n = Some x0 -> a !! (n + 1)%nat = Some x1 -> a !! (n + 2)%nat = Some x2 ->
  take 3 (drop n a) = [x0; x1; x2].
Proof.
  intros H0 H1 H2. apply list_eq. intros [|[|[|m]]].
  - rewrite lookup_take_lt, lookup_drop by lia. by rewrite Nat.add_0_r.
  - rewrite lookup_take_lt, lookup_drop by lia. done.
  - rewrite lookup_take_lt, lookup_drop by lia. done.
  - by rewrite lookup_take_ge by lia.
Qed.

Lemma take2_drop_lookup {A} (a : list A) (n : nat) x0 x1 :
  a !! n = Some x0 -> a !! (n + 1)%nat = Some x1 ->
  take 2 (drop n a) = [x0; x1].
Proof.
  intros H0 H1. apply list_eq. intros [|[|m]].
  - rewrite lookup_take_lt, lookup_drop by lia. by rewrite Nat.add_0_r.
  - rewrite lookup_take_lt, lookup_drop by lia. done.
  - by rewrite lookup_take_ge by lia.
Qed.

Section Interleave.
Context {F F32 : Type} {num : JsNumber F F32}.
Implicit Types this : Sphere F F32.

Lemma copied_slice3 (a : list F32) v :
  0 <= v -> 3 * v + 3 <= Z.of_nat (length a) ->
  [copied (ta_load a (3 * v)); copied (ta_load a (3 * v + 1));
   copied (ta_load a (3 * v + 2))] = slice3 a v.
Proof.
  intros Hv Hlen. unfold slice3, ta_load. rewrite !decide_True by lia.
  destruct (lookup_lt_is_Some_2 a (Z.to_nat (3 * v))) as [x0 H0]; [lia|].
  destruct (lookup_lt_is_Some_2 a (Z.to_nat (3 * v) + 1)) as [x1 H1]; [lia|].
  destruct (lookup_lt_is_Some_2 a (Z.to_nat (3 * v) + 2)) as [x2 H2]; [lia|].
  rewrite (take3_drop_lookup a _ x0 x1 x2) by done.
  replace (Z.to_nat (3 * v + 1)) with (Z.to_nat (3 * v) + 1)%nat by lia.
  replace (Z.to_nat (3 * v + 2)) with (Z.to_nat (3 * v) + 2)%nat by lia.
  rewrite H0, H1, H2. cbn [copied]. by rewrite !fround_widen.
Qed.

Lemma copied_slice2 (a : list F32) v :
  0 <= v -> 2 * v + 2 <= Z.of_nat (length a) ->
  [copied (ta_load a (2 * v)); copied (ta_load a (2 * v + 1))] = slice2 a v.
Proof.
  intros Hv Hlen. unfold slice2, ta_load. rewrite !decide_True by lia.
  destruct (lookup_lt_is_Some_2 a (Z.to_nat (2 * v))) as [x0 H0]; [lia|].
  destruct (lookup_lt_is_Some_2 a (Z.to_nat (2 * v) + 1)) as [x1 H1]; [lia|].
  rewrite (take2_drop_lookup a _ x0 x1) by done.
  replace (Z.to_nat (2 * v + 1)) with (Z.to_nat (2 * v) + 1)%nat by lia.
  rewrite H0, H1. cbn [copied]. by rewrite !fround_widen.
Qed.

Lemma interleaveStep_write this i j k :
  interleaveStep (this, i, j, k) =
  (with_interleavedVertices
     (ta_write (interleavedVertices this) k
        ([copied (ta_load (vertices this) i); copied (ta_load (vertices this) (i + 1));
          copied (ta_load (vertices this) (i + 2))] ++
         [copied (ta_load (normals this) i); copied (ta_load (normals this) (i + 1));
          copied (ta_load (normals this) (i + 2))] ++
         [copied (ta_load (texCoords this) j); copied (ta_load (texCoords this) (j + 1))]))
     this, i + 3, j + 2, k + 8).
Proof.
  unfold interleaveStep. cbn [ta_write app].
  replace (k + 1 + 1) with (k + 2) by lia.
  replace (k + 2 + 1) with (k + 3) by lia.
  replace (k + 3 + 1) with (k + 4) by lia.
  replace (k + 4 + 1) with (k + 5) by lia.
  replace (k + 5 + 1) with (k + 6) by lia.
  replace (k + 6 + 1) with (k + 7) by lia.
  reflexivity.
Qed.

Lemma getVertexCount_exact this n :
  Z.of_nat (length (vertices this)) = 3 * n -> getVertexCount this = n.
Proof. intros Hlen. unfold getVertexCount. rewrite Hlen. Z.div_mod_to_equations. lia. Qed.

(** On arrays of [3n], [3n] and [2n] elements the interleaver returns,
    and its result holds the [n] records of eight elements. *)
Lemma buildInterleavedVertices_spec this n :
  0 <= n ->
  Z.of_nat (length (vertices this)) = 3 * n ->
  Z.of_nat (length (normals this)) = 3 * n ->
  Z.of_nat (length (texCoords this)) = 2 * n ->
  exists I,
    buildInterleavedVertices this = Return (with_interleavedVertices I this) /\
    Z.of_nat (length I) = 8 * n /\
    interleaves (vertices this) (normals this) (texCoords this) I n.
Proof.
  intros Hn HlenV HlenN HlenT. unfold buildInterleavedVertices.
  rewrite (getVertexCount_exact this n) by done.
  rewrite newTypedArray_nonneg by lia. cbn [mbind Js_bind].
  cbn [vertices with_interleavedVertices]. rewrite HlenV.
  replace ((3 * n + 2) / 3) with n by (Z.div_mod_to_equations; lia).
  set (a := replicate (Z.to_nat (n * 8)) f32_zero).
  enough (exists I,
    for_range 0 n (fun _ => interleaveStep) (with_interleavedVertices a this, 0, 0, 0) =
      (with_interleavedVertices I this, 3 * n, 2 * n, 8 * n) /\
    Z.of_nat (length I) = 8 * n /\
    interleaves (vertices this) (normals this) (texCoords this) I n)
    as (I & -> & HlenI & HI) by (exists I; done).
  apply (for_range_ind (fun v st => exists I,
    st = (with_interleavedVertices I this, 3 * v, 2 * v, 8 * v) /\
    Z.of_nat (length I) = 8 * n /\
    interleaves (vertices this) (normals this) (texCoords this) I v)); [done| |].
  - exists a. split; [done|]. split.
    + unfold a. rewrite length_replicate. lia.
    + intros v Hv. lia.
  - intros v st Hv (I & -> & HlenI & HI).
    rewrite interleaveStep_write.
    cbn [vertices normals texCoords interleavedVertices with_interleavedVertices].
    rewrite !copied_slice3, copied_slice2 by lia.
    eexists. split; [|split].
    + replace (3 * (v + 1)) with (3 * v + 3) by lia.
      replace (2 * (v + 1)) with (2 * v + 2) by lia.
      replace (8 * (v + 1)) with (8 * v + 8) by lia. reflexivity.
    + by rewrite length_ta_write.
    + assert (Hlen8 : length (slice3 (vertices this) v ++ slice3 (normals this) v ++
                              slice2 (texCoords this) v) = 8%nat).
      { unfold slice3, slice2. rewrite !length_app, !length_take, !length_drop. lia. }
      intros v' Hv'. unfold slice8.
      destruct (decide (v' = v)) as [->|Hne].
      * rewrite <- Hlen8 at 1. apply slice_ta_write_eq; lia.
      * rewrite slice_ta_write_ne by lia. apply HI. lia.
Qed.

End Interleave.

(** ** The smooth build as a whole *)

Section SmoothBuild.
Context {F F32 : Type} {num : JsNumber F F32}.
Implicit Types this : Sphere F F32.

Lemma buildVbos_Return this g :
  gl this = Some g ->
  buildVbos this = Return (with_gl (Some (uploaded g this)) this).
Proof.
  intros Hg. unfold buildVbos. rewrite Hg. unfold uploaded, vboCalls, gl_call.
  cbn [glCalls glBuffers mret Js_ret]. by rewrite <- !app_assoc.
Qed.

Lemma set_unfold r se st sm this :
  set r se st sm this =
  if sm then buildVerticesSmooth (shaped r se st sm this)
  else buildVerticesFlat (shaped r se st sm this).
Proof.
  unfold set, shaped.
  destruct (decide (se < 3)), (decide (st < 2));
    rewrite ?(Z.max_l 3 se), ?(Z.max_r 3 se), ?(Z.max_l 2 st), ?(Z.max_r 2 st) by lia;
    reflexivity.
Qed.

(** With a context at hand and at least two stacks, the smooth build
    returns the mesh described by [smoothBuilt]. *)
Lemma buildVerticesSmooth_spec this g :
  gl this = Some g -> 0 <= sectorCount this -> 2 <= stackCount this ->
  exists s', buildVerticesSmooth this = Return s' /\ smoothBuilt this g s'.
Proof.
  intros Hg Hsc Hst. unfold buildVerticesSmooth, resizeArraysSmooth, clearArrays.
  set (n := (sectorCount this + 1) * (stackCount this + 1)).
  assert (Hn : 0 <= n) by (unfold n; nia).
  assert (Hm : 0 <= 6 * sectorCount this * (stackCount this - 1)) by nia.
  rewrite !newTypedArray_nonneg by lia. cbn [mbind Js_bind mret Js_ret].
  set (this0 := with_indices _ _).
  destruct (smoothVertexLoop_filled this0) as (V & N & T & HV & HlV & HlN & HlT & Hcontent).
  1-5: unfold this0; cbn [sectorCount stackCount vertices normals texCoords
         with_indices with_texCoords with_normals with_vertices];
       rewrite ?length_replicate; fold n; lia.
  rewrite HV. clear HV.
  rewrite smoothIndexLoop_emitted by exact Hsc || (unfold this0; cbn; lia).
  unfold emitted. cbn [fst snd].
  change (sectorCount this0) with (sectorCount this) in *.
  change (stackCount this0) with (stackCount this) in *.
  change (sectorCount (with_texCoords T _)) with (sectorCount this).
  change (stackCount (with_texCoords T _)) with (stackCount this).
  change (indices (with_texCoords T _))
    with (replicate (Z.to_nat (6 * sectorCount this * (stackCount this - 1))) 0).
  change (length (vertices this0))
    with (length (replicate (Z.to_nat (3 * n)) (f32_zero (F := F)))) in HlV.
  change (length (normals this0))
    with (length (replicate (Z.to_nat (3 * n)) (f32_zero (F := F)))) in HlN.
  change (length (texCoords this0))
    with (length (replicate (Z.to_nat (2 * n)) (f32_zero (F := F)))) in HlT.
  rewrite length_replicate in HlV, HlN, HlT.
  rewrite ta_write_full.
  2:{ rewrite length_fmap, length_replicate.
      pose proof (length_smoothIndicesSpec (sectorCount this) (stackCount this) Hsc Hst). lia. }
  set (this3 := with_indices _ _).
  destruct (buildInterleavedVertices_spec this3 n) as (I & -> & HlI & HI);
    [done|unfold this3; cbn [vertices normals texCoords with_indices with_texCoords
                             with_normals with_vertices]; lia..|].
  cbn [mbind Js_bind]. rewrite (buildVbos_Return _ g) by done.
  eexists. split; [reflexivity|].
  exists V, N, T, I. cbn zeta. split; [reflexivity|].
  fold n. do 4 (split; [lia|]). split; [|exact HI].
  intros i j Hi Hj. apply Hcontent; [lia|lia|]. unfold n. nia.
Qed.

End SmoothBuild.

(** ** The flat build *)

Section FlatBuild.
Context {F F32 : Type} {num : JsNumber F F32}.
Implicit Types this : Sphere F F32.

Lemma length_flatTmpRow this sectorStep stackStep i (tmp : list (Vertex F)) :
  0 <= sectorCount this ->
  Z.of_nat (length (flatTmpRow this sectorStep stackStep i tmp)) =
  Z.of_nat (length tmp) + (sectorCount this + 1).
Proof.
  intros Hsc. unfold flatTmpRow.
  apply (for_range_ind (fun j (l : list (Vertex F)) =>
           Z.of_nat (length l) = Z.of_nat (length tmp) + j)); [lia|lia|].
  intros j l Hj Hl. unfold flatTmpStep. rewrite length_app. cbn [length]. lia.
Qed.

Lemma length_flatTmpVertices this :
  0 <= sectorCount this -> 0 <= stackCount this ->
  Z.of_nat (length (flatTmpVertices this)) =
  (stackCount this + 1) * (sectorCount this + 1).
Proof.
  intros Hsc Hst. unfold flatTmpVertices.
  apply (for_range_ind (fun i (l : list (Vertex F)) =>
           Z.of_nat (length l) = i * (sectorCount this + 1))); [lia|done|].
  intros i l Hi Hl. rewrite length_flatTmpRow by done. lia.
Qed.

Lemma flatFrame_addVertex this0 bound this ii x y z :
  flatFrame this0 bound this -> flatFrame this0 bound (addVertex ii x y z this).
Proof.
  intros (V & N & T & X & -> & HV & HN & HT & HX & Hb).
  rewrite addVertex_write.
  exists (ta_write V ii (round3 (x, y, z))), N, T, X.
  split; [reflexivity|]. by rewrite length_ta_write.
Qed.

Lemma flatFrame_addNormal this0 bound this ii x y z :
  flatFrame this0 bound this -> flatFrame this0 bound (addNormal ii x y z this).
Proof.
  intros (V & N & T & X & -> & HV & HN & HT & HX & Hb).
  rewrite addNormal_write.
  exists V, (ta_write N ii (round3 (x, y, z))), T, X.
  split; [reflexivity|]. by rewrite length_ta_write.
Qed.

Lemma flatFrame_addTexCoord this0 bound this jj s t :
  flatFrame this0 bound this -> flatFrame this0 bound (addTexCoord jj s t this).
Proof.
  intros (V & N & T & X & -> & HV & HN & HT & HX & Hb).
  rewrite addTexCoord_write.
  exists V, N, (ta_write T jj (round2 (s, t))), X.
  split; [reflexivity|]. by rewrite length_ta_write.
Qed.

Lemma flatFrame_addIndices this0 bound this kk a b c :
  0 <= a < bound -> 0 <= b < bound -> 0 <= c < bound ->
  flatFrame this0 bound this -> flatFrame this0 bound (addIndices kk a b c this).
Proof.
  intros Ha Hb Hc (V & N & T & X & -> & HV & HN & HT & HX & Hbound).
  rewrite addIndices_write.
  exists V, N, T, (ta_write X kk (to_uint16 <$> [a; b; c])).
  split; [reflexivity|]. rewrite length_ta_write. do 4 (split; [done|]).
  apply Forall_ta_write; [done|].
  pose proof (to_uint16_le a). pose proof (to_uint16_le b). pose proof (to_uint16_le c).
  repeat constructor; lia.
Qed.

Lemma flatFrame_params this0 bound this :
  flatFrame this0 bound this ->
  sectorCount this = sectorCount this0 /\ stackCount this = stackCount this0.
Proof. by intros (V & N & T & X & -> & _). Qed.

Lemma flatTriangle_inv this0 bound index kk s v1 v2 v3 :
  0 <= index -> index + 3 <= bound ->
  flatInv this0 bound index kk s ->
  flatInv this0 bound (index + 3) (kk + 3) (flatTriangle v1 v2 v3 s) /\
  f_vi1 (flatTriangle v1 v2 v3 s) = f_vi1 s /\
  f_vi2 (flatTriangle v1 v2 v3 s) = f_vi2 s.
Proof.
  intros Hidx Hb (Hframe & Hindex & Hkk & Hii & Hjj).
  unfold flatTriangle, flatInv.
  cbn [f_this f_index f_kk f_ii f_jj f_vi1 f_vi2].
  split; [split|done]; [|lia].
  apply flatFrame_addIndices; [lia..|].
  do 3 apply flatFrame_addNormal. do 3 apply flatFrame_addTexCoord.
  by do 3 apply flatFrame_addVertex.
Qed.

Lemma flatQuad_inv this0 bound index kk s v1 v2 v3 v4 :
  0 <= index -> index + 4 <= bound ->
  flatInv this0 bound index kk s ->
  flatInv this0 bound (index + 4) (kk + 6) (flatQuad v1 v2 v3 v4 s) /\
  f_vi1 (flatQuad v1 v2 v3 v4 s) = f_vi1 s /\
  f_vi2 (flatQuad v1 v2 v3 v4 s) = f_vi2 s.
Proof.
  intros Hidx Hb (Hframe & Hindex & Hkk & Hii & Hjj).
  unfold flatQuad, flatInv.
  cbn [f_this f_index f_kk f_ii f_jj f_vi1 f_vi2].
  split; [split|done]; [|lia].
  do 2 (apply flatFrame_addIndices; [lia..|]).
  do 3 apply flatFrame_addNormal. do 4 apply flatFrame_addTexCoord.
  by do 4 apply flatFrame_addVertex.
Qed.

Lemma ta_load_Some {A} (a : list A) i :
  0 <= i < Z.of_nat (length a) -> exists x, ta_load a i = Some x.
Proof.
  intros Hi. unfold ta_load. rewrite decide_True by lia.
  apply lookup_lt_is_Some_2. lia.
Qed.

(** One sector of the triangle loop: it returns, having emitted three
    vertices and index values in the first and the last stack, four
    vertices and six index values in the others. *)
Lemma flatCellStep_inv this0 (tmp : list (Vertex F)) bound i j index kk s :
  0 <= sectorCount this0 ->
  Z.of_nat (length tmp) = (stackCount this0 + 1) * (sectorCount this0 + 1) ->
  0 <= i < stackCount this0 -> 0 <= j < sectorCount this0 ->
  f_vi1 s = i * (sectorCount this0 + 1) + j ->
  f_vi2 s = (i + 1) * (sectorCount this0 + 1) + j ->
  0 <= index ->
  index + (if decide (i = 0 \/ i = stackCount this0 - 1) then 3 else 4) <= bound ->
  flatInv this0 bound index kk s ->
  exists s',
    flatCellStep tmp i j s = Return s' /\
    flatInv this0 bound
      (index + (if decide (i = 0 \/ i = stackCount this0 - 1) then 3 else 4))
      (kk + (if decide (i = 0 \/ i = stackCount this0 - 1) then 3 else 6)) s' /\
    f_vi1 s' = f_vi1 s + 1 /\ f_vi2 s' = f_vi2 s + 1.
Proof.
  intros Hsc Htmp Hi Hj Hvi1 Hvi2 Hidx Hb Hinv.
  destruct (flatFrame_params _ _ _ (proj1 Hinv)) as (_ & Hst).
  unfold flatCellStep. rewrite Hst.
  destruct (ta_load_Some tmp (f_vi1 s)) as [v1 ->]; [nia|].
  destruct (ta_load_Some tmp (f_vi2 s)) as [v2 ->]; [nia|].
  destruct (ta_load_Some tmp (f_vi1 s + 1)) as [v3 ->]; [nia|].
  destruct (ta_load_Some tmp (f_vi2 s + 1)) as [v4 ->]; [nia|].
  cbn [deref mbind Js_bind mret Js_ret].
  destruct (decide (i = 0)) as [Hi0|Hi0].
  - rewrite decide_True in Hb |- * by lia. rewrite decide_True by lia.
    destruct (flatTriangle_inv this0 bound index kk s v1 v2 v4) as (H1 & H2 & H3); [done..|].
    eexists. split; [reflexivity|]. cbn [f_vi1 f_vi2].
    split; [|lia]. destruct H1 as (? & ? & ? & ? & ?). by split.
  - destruct (decide (i = stackCount this0 - 1)) as [Hi1|Hi1].
    + rewrite decide_True in Hb |- * by lia. rewrite decide_True by lia.
      destruct (flatTriangle_inv this0 bound index kk s v1 v2 v3) as (H1 & H2 & H3); [done..|].
      eexists. split; [reflexivity|]. cbn [f_vi1 f_vi2].
      split; [|lia]. destruct H1 as (? & ? & ? & ? & ?). by split.
    + rewrite decide_False in Hb |- * by lia. rewrite decide_False by lia.
      destruct (flatQuad_inv this0 bound index kk s v1 v2 v3 v4) as (H1 & H2 & H3); [done..|].
      eexists. split; [reflexivity|]. cbn [f_vi1 f_vi2].
      split; [|lia]. destruct H1 as (? & ? & ? & ? & ?). by split.
Qed.

Lemma flatIndexAt_succ sc st i :
  2 <= st -> 0 <= i < st ->
  flatIndexAt sc st (i + 1) =
  flatIndexAt sc st i + (if decide (i = 0 \/ i = st - 1) then 3 else 4) * sc.
Proof. intros Hst Hi. unfold flatIndexAt. repeat case_decide; lia. Qed.

Lemma flatKkAt_succ sc st i :
  2 <= st -> 0 <= i < st ->
  flatKkAt sc st (i + 1) =
  flatKkAt sc st i + (if decide (i = 0 \/ i = st - 1) then 3 else 6) * sc.
Proof. intros Hst Hi. unfold flatKkAt. repeat case_decide; lia. Qed.

Lemma flatIndexAt_bounds sc st i :
  0 <= sc -> 2 <= st -> 0 <= i <= st ->
  0 <= flatIndexAt sc st i <= flatIndexAt sc st st.
Proof. intros Hsc Hst Hi. unfold flatIndexAt. repeat case_decide; nia. Qed.

Lemma flatIndexAt_last sc st :
  2 <= st -> flatIndexAt sc st st = 6 * sc + 4 * sc * (st - 2).
Proof. intros Hst. unfold flatIndexAt. rewrite !decide_True by lia. lia. Qed.

Lemma flatKkAt_last sc st :
  2 <= st -> flatKkAt sc st st = 6 * sc * (st - 1).
Proof. intros Hst. unfold flatKkAt. rewrite !decide_True by lia. lia. Qed.

Lemma flatRow_inv this0 (tmp : list (Vertex F)) i s :
  0 <= sectorCount this0 -> 2 <= stackCount this0 ->
  Z.of_nat (length tmp) = (stackCount this0 + 1) * (sectorCount this0 + 1) ->
  0 <= i < stackCount this0 ->
  let sc := sectorCount this0 in
  let st := stackCount this0 in
  let bound := flatIndexAt sc st st in
  flatInv this0 bound (flatIndexAt sc st i) (flatKkAt sc st i) s ->
  exists s',
    flatRow tmp i s = Return s' /\
    flatInv this0 bound (flatIndexAt sc st (i + 1)) (flatKkAt sc st (i + 1)) s'.
Proof.
  intros Hsc Hst Htmp Hi sc st bound Hinv.
  destruct (flatFrame_params _ _ _ (proj1 Hinv)) as (Hsc' & _).
  unfold flatRow. rewrite Hsc'. fold sc.
  set (c := if decide (i = 0 \/ i = st - 1) then 3 else 4).
  set (d := if decide (i = 0 \/ i = st - 1) then 3 else 6).
  pose proof (flatIndexAt_bounds sc st i Hsc Hst ltac:(lia)) as Hlo.
  pose proof (flatIndexAt_bounds sc st (i + 1) Hsc Hst ltac:(lia)) as Hhi.
  pose proof (flatIndexAt_succ sc st i Hst Hi) as Hsucc. fold c in Hsucc.
  pose proof (flatKkAt_succ sc st i Hst Hi) as Hksucc. fold d in Hksucc.
  assert (Hc : 3 <= c <= 4) by (unfold c; case_decide; lia).
  destruct (for_rangeM_ind (fun j s' =>
      flatInv this0 bound (flatIndexAt sc st i + c * j) (flatKkAt sc st i + d * j) s' /\
      f_vi1 s' = i * (sc + 1) + j /\ f_vi2 s' = (i + 1) * (sc + 1) + j)
    0 sc (flatCellStep tmp i)
    {| f_this := f_this s; f_ii := f_ii s; f_jj := f_jj s; f_kk := f_kk s;
       f_index := f_index s; f_vi1 := i * (sc + 1); f_vi2 := (i + 1) * (sc + 1) |})
    as (s' & Hrun & Hs' & _); [done| | |].
  - cbn [f_vi1 f_vi2]. split; [|lia].
    rewrite !Z.mul_0_r, !Z.add_0_r. destruct Hinv as (? & ? & ? & ? & ?). by split.
  - intros j s1 Hj (Hinv1 & Hvi1 & Hvi2).
    destruct (flatCellStep_inv this0 tmp bound i j
                (flatIndexAt sc st i + c * j) (flatKkAt sc st i + d * j) s1)
      as (s2 & Hstep & Hinv2 & Hvi1' & Hvi2'); [done..|nia| |done|].
    { fold st c. unfold bound. nia. }
    exists s2. split; [done|]. fold st c d in Hinv2.
    replace (flatIndexAt sc st i + c * (j + 1)) with (flatIndexAt sc st i + c * j + c) by lia.
    replace (flatKkAt sc st i + d * (j + 1)) with (flatKkAt sc st i + d * j + d) by lia.
    split; [done|lia].
  - exists s'. split; [done|]. rewrite Hsucc, Hksucc.
    by rewrite (Z.mul_comm c sc), (Z.mul_comm d sc) in Hs' |- *.
Qed.

(** The triangle loop returns; it has then emitted
    [6*sectorCount + 4*sectorCount*(stackCount-2)] vertices and
    [6*sectorCount*(stackCount-1)] index values, each below the number of
    vertices. *)
Lemma flatTriangleLoop_inv this0 (tmp : list (Vertex F)) :
  0 <= sectorCount this0 -> 2 <= stackCount this0 ->
  Z.of_nat (length tmp) = (stackCount this0 + 1) * (sectorCount this0 + 1) ->
  Forall (fun x => 0 <= x < 6 * sectorCount this0 +
                           4 * sectorCount this0 * (stackCount this0 - 2))
         (indices this0) ->
  exists s',
    flatTriangleLoop tmp this0 = Return s' /\
    flatInv this0 (6 * sectorCount this0 + 4 * sectorCount this0 * (stackCount this0 - 2))
      (6 * sectorCount this0 + 4 * sectorCount this0 * (stackCount this0 - 2))
      (6 * sectorCount this0 * (stackCount this0 - 1)) s'.
Proof.
  intros Hsc Hst Htmp Hbound. unfold flatTriangleLoop.
  rewrite <- (flatIndexAt_last (sectorCount this0) (stackCount this0)) in * by done.
  rewrite <- (flatKkAt_last (sectorCount this0) (stackCount this0)) by done.
  apply (for_rangeM_ind (fun i s =>
    flatInv this0 (flatIndexAt (sectorCount this0) (stackCount this0) (stackCount this0))
      (flatIndexAt (sectorCount this0) (stackCount this0) i)
      (flatKkAt (sectorCount this0) (stackCount this0) i) s)); [lia| |].
  - unfold flatInv. cbn [f_this f_index f_kk f_ii f_jj].
    unfold flatIndexAt at 2 3 4, flatKkAt. rewrite !decide_False by lia.
    split; [|lia].
    exists (vertices this0), (normals this0), (texCoords this0), (indices this0).
    split; [by destruct this0|done].
  - intros i s Hi Hinv. by apply flatRow_inv.
Qed.

(** With a context at hand and at least two stacks, the flat build
    returns the mesh described by [flatBuilt]. *)
Lemma buildVerticesFlat_spec this g :
  gl this = Some g -> 0 <= sectorCount this -> 2 <= stackCount this ->
  exists s', buildVerticesFlat this = Return s' /\ flatBuilt this g s'.
Proof.
  intros Hg Hsc Hst. unfold buildVerticesFlat, resizeArraysFlat, clearArrays.
  set (n := 6 * sectorCount this + 4 * sectorCount this * (stackCount this - 2)).
  set (m := 6 * sectorCount this * (stackCount this - 1)).
  assert (Hn : 0 <= n) by (unfold n; nia).
  assert (Hm : 0 <= m) by (unfold m; nia).
  rewrite !newTypedArray_nonneg by lia. cbn [mbind Js_bind mret Js_ret].
  set (this0 := with_indices _ _).
  destruct (flatTriangleLoop_inv this0 (flatTmpVertices this))
    as (s & -> & (V & N & T & X & Hs & HlV & HlN & HlT & HlX & HX) & _); [done|done|..].
  { change (stackCount this0) with (stackCount this).
    change (sectorCount this0) with (sectorCount this).
    by apply length_flatTmpVertices; lia. }
  { change (stackCount this0) with (stackCount this).
    change (sectorCount this0) with (sectorCount this).
    change (indices this0) with (replicate (Z.to_nat m) 0). fold n.
    destruct (decide (sectorCount this = 0)) as [Hz|Hnz].
    - replace m with 0 by (unfold m; rewrite Hz; lia). constructor.
    - apply Forall_replicate. unfold n. nia. }
  cbn [mbind Js_bind]. rewrite Hs. clear Hs.
  change (stackCount this0) with (stackCount this) in *.
  change (sectorCount this0) with (sectorCount this) in *.
  fold n in HX.
  change (length (vertices this0))
    with (length (replicate (Z.to_nat (3 * n)) (f32_zero (F := F)))) in HlV.
  change (length (normals this0))
    with (length (replicate (Z.to_nat (3 * n)) (f32_zero (F := F)))) in HlN.
  change (length (texCoords this0))
    with (length (replicate (Z.to_nat (2 * n)) (f32_zero (F := F)))) in HlT.
  change (length (indices this0)) with (length (replicate (Z.to_nat m) 0)) in HlX.
  rewrite length_replicate in HlV, HlN, HlT. rewrite length_replicate in HlX.
  set (this3 := with_indices X _).
  destruct (buildInterleavedVertices_spec this3 n) as (I & -> & HlI & HI);
    [done|unfold this3; cbn [vertices normals texCoords with_indices with_texCoords
                             with_normals with_vertices]; lia..|].
  cbn [mbind Js_bind]. rewrite (buildVbos_Return _ g) by done.
  eexists. split; [reflexivity|].
  exists V, N, T, X, I. cbn zeta. split; [reflexivity|].
  fold n m. do 3 (split; [lia|]). split; [lia|]. split; [lia|]. by split.
Qed.

End FlatBuild.

(** ** Building through [set] *)

Section SetBuild.
Context {F F32 : Type} {num : JsNumber F F32}.
Implicit Types this : Sphere F F32.

Lemma set_smooth_spec this g r se st :
  gl this = Some g ->
  exists s', set r se st true this = Return s' /\
             smoothBuilt (shaped r se st true this) g s'.
Proof.
  intros Hg. rewrite set_unfold. apply buildVerticesSmooth_spec; [done|..];
    cbn [shaped sectorCount stackCount with_smooth with_stackCount with_sectorCount];
    lia.
Qed.

Lemma set_flat_spec this g r se st :
  gl this = Some g ->
  exists s', set r se st false this = Return s' /\
             flatBuilt (shaped r se st false this) g s'.
Proof.
  intros Hg. rewrite set_unfold. apply buildVerticesFlat_spec; [done|..];
    cbn [shaped sectorCount stackCount with_smooth with_stackCount with_sectorCount];
    lia.
Qed.

Lemma Sphere_new_unfold (g : GL F32) r se st sm :
  Sphere_new (Some g) r se st sm = set r se st sm (constructed g).
Proof. reflexivity. Qed.

Lemma smoothBuilt_shape this g s' :
  smoothBuilt this g s' ->
  radius s' = radius this /\ sectorCount s' = sectorCount this /\
  stackCount s' = stackCount this /\ smooth s' = smooth this.
Proof. by intros (V & N & T & I & -> & _). Qed.

Lemma flatBuilt_shape this g s' :
  flatBuilt this g s' ->
  radius s' = radius this /\ sectorCount s' = sectorCount this /\
  stackCount s' = stackCount this /\ smooth s' = smooth this.
Proof. by intros (V & N & T & X & I & -> & _). Qed.

Lemma smoothBuilt_vertexCount this g s' :
  smoothBuilt this g s' ->
  Z.of_nat (length (vertices s')) = 3 * ((sectorCount this + 1) * (stackCount this + 1)) /\
  getVertexCount s' = (sectorCount this + 1) * (stackCount this + 1).
Proof.
  intros (V & N & T & I & -> & HV & _).
  assert (Hlen : Z.of_nat (length V) =
                 3 * ((sectorCount this + 1) * (stackCount this + 1))) by done.
  split; [done|]. by apply getVertexCount_exact.
Qed.

Lemma flatBuilt_vertexCount this g s' :
  flatBuilt this g s' ->
  getVertexCount s' =
  6 * sectorCount this + 4 * sectorCount this * (stackCount this - 2).
Proof.
  intros (V & N & T & X & I & -> & HV & _). by apply getVertexCount_exact.
Qed.

Lemma smoothBuilt_indices this g s' :
  smoothBuilt this g s' ->
  indices s' = to_uint16 <$> smoothIndicesSpec (sectorCount this) (stackCount this).
Proof. by intros (V & N & T & I & -> & _). Qed.

End SetBuild.

Lemma smoothCellIndices_bound sc st i j :
  0 <= i < st -> 0 <= j < sc ->
  Forall (fun k => 0 <= k < (sc + 1) * (st + 1)) (smoothCellIndices sc st i j).
Proof.
  intros Hi Hj. unfold smoothCellIndices. apply Forall_app.
  split; case_decide; repeat constructor; nia.
Qed.

(** Every index value the specification lists is the number of a vertex
    of the grid. *)
Lemma smoothIndicesSpec_bound sc st :
  Forall (fun k => 0 <= k < (sc + 1) * (st + 1)) (smoothIndicesSpec sc st).
Proof.
  unfold smoothIndicesSpec. apply Forall_bind, Forall_seqZ. intros i Hi.
  apply Forall_bind, Forall_seqZ. intros j Hj.
  apply smoothCellIndices_bound; lia.
Qed.

Lemma fmap_to_uint16_small (l : list Z) :
  Forall (fun k => 0 <= k < 65536) l -> to_uint16 <$> l = l.
Proof.
  induction 1 as [|k l Hk _ IH]; [done|].
  cbn [fmap list_fmap]. rewrite to_uint16_small by done. f_equal. apply IH.
Qed.

Lemma record_split {A} (X a b c : list A) :
  take 8 X = a ++ b ++ c -> length a = 3%nat -> length b = 3%nat -> length c = 2%nat ->
  take 3 X = a /\ take 3 (drop 3 X) = b /\ take 2 (drop 6 X) = c.
Proof.
  intros HX Ha Hb Hc. rewrite <- (take_drop 8 X). rewrite HX.
  destruct a as [|a0 [|a1 [|a2 [|]]]]; try discriminate.
  destruct b as [|b0 [|b1 [|b2 [|]]]]; try discriminate.
  destruct c as [|c0 [|c1 [|]]]; try discriminate.
  done.
Qed.

Lemma length_slice3 {A} (a : list A) v :
  0 <= v -> 3 * v + 3 <= Z.of_nat (length a) -> length (slice3 a v) = 3%nat.
Proof. intros Hv Hlen. unfold slice3. rewrite length_take, length_drop. lia. Qed.

Lemma length_slice2 {A} (a : list A) v :
  0 <= v -> 2 * v + 2 <= Z.of_nat (length a) -> length (slice2 a v) = 2%nat.
Proof. intros Hv Hlen. unfold slice2. rewrite length_take, length_drop. lia. Qed.

(** The record of a vertex read back as its three parts. *)
Lemma interleaves_parts {A} (V N T I : list A) n v :
  (forall v, 0 <= v < n -> slice8 I v = slice3 V v ++ slice3 N v ++ slice2 T v) ->
  Z.of_nat (length V) = 3 * n -> Z.of_nat (length N) = 3 * n ->
  Z.of_nat (length T) = 2 * n ->
  0 <= v < n ->
  take 3 (drop (Z.to_nat (8 * v)) I) = slice3 V v /\
  take 3 (drop (Z.to_nat (8 * v + 3)) I) = slice3 N v /\
  take 2 (drop (Z.to_nat (8 * v + 6)) I) = slice2 T v /\
  length (slice3 V v) = 3%nat /\ length (slice3 N v) = 3%nat /\
  length (slice2 T v) = 2%nat.
Proof.
  intros HI HV HN HT Hv.
  pose proof (length_slice3 V v) as H1. pose proof (length_slice3 N v) as H2.
  pose proof (length_slice2 T v) as H3.
  destruct (record_split (drop (Z.to_nat (8 * v)) I) (slice3 V v) (slice3 N v) (slice2 T v))
    as (HA & HB & HC); [by apply HI|lia..|].
  rewrite !drop_drop in HB, HC.
  replace (Z.to_nat (8 * v + 3)) with (Z.to_nat (8 * v) + 3)%nat by lia.
  replace (Z.to_nat (8 * v + 6)) with (Z.to_nat (8 * v) + 6)%nat by lia.
  repeat split; try done; lia.
Qed.

(** * The claims *)

Section Claims.
Context {F F32 : Type} {num : JsNumber F F32}.
Implicit Types this : Sphere F F32.

(** C1. On an object that holds a WebGL context, [set] in smooth mode
    returns for every radius and all shape parameters; with the stored,
    clamped [sectorCount >= 3] and [stackCount >= 2] the mesh has exactly
    [(sectorCount+1)*(stackCount+1)] vertices, its [vertices] array three
    times as many elements, which is also where the vertex loop leaves its
    counter [ii]; for [sectorCount = 3] and [stackCount = 2] these are 12
    vertices. *)
Theorem smooth_vertex_count this g r se st :
  gl this = Some g ->
  exists s',
    set r se st true this = Return s' /\
    sectorCount s' = Z.max 3 se /\ stackCount s' = Z.max 2 st /\
    getVertexCount s' = (sectorCount s' + 1) * (stackCount s' + 1) /\
    Z.of_nat (length (vertices s')) = 3 * ((sectorCount s' + 1) * (stackCount s' + 1)) /\
    (smoothVertexLoop s').1.2 = 3 * ((sectorCount s' + 1) * (stackCount s' + 1)) /\
    (se = 3 -> st = 2 -> getVertexCount s' = 12).
Proof.
  intros Hg. destruct (set_smooth_spec this g r se st Hg) as (s' & Hset & Hbuilt).
  exists s'. split; [done|].
  destruct (smoothBuilt_shape _ _ _ Hbuilt) as (_ & Hsc & Hst & _).
  destruct (smoothBuilt_vertexCount _ _ _ Hbuilt) as (Hlen & Hcount).
  cbn [shaped sectorCount stackCount with_smooth with_stackCount with_sectorCount]
    in Hsc, Hst, Hlen, Hcount.
  rewrite Hsc, Hst. do 4 (split; [done|]). split.
  - destruct Hbuilt as (V & N & T & I & Hs' & HV & HN & HT & _).
    destruct (smoothVertexLoop_run s') as (this' & -> & _);
      rewrite ?Hsc, ?Hst, ?Hs'; try done; lia.
  - intros -> ->. by rewrite Hcount.
Qed.

(** C2. In smooth mode the index array holds, in order and from its
    first element on, the index values the specification lists (each
    converted by the [Uint16Array] store, which changes none of them
    while the mesh has at most 65536 vertices); they are
    [6*sectorCount*(stackCount-1)] values, as many as the index array was
    allocated for and as the counter [kk] of the loop reaches. *)
Theorem smooth_indices_generated this g r se st :
  gl this = Some g ->
  exists s',
    set r se st true this = Return s' /\
    let sc := sectorCount s' in
    let stc := stackCount s' in
    sc = Z.max 3 se /\ stc = Z.max 2 st /\
    indices s' = to_uint16 <$> smoothIndicesSpec sc stc /\
    ((sc + 1) * (stc + 1) <= 65536 -> indices s' = smoothIndicesSpec sc stc) /\
    Z.of_nat (length (smoothIndicesSpec sc stc)) = 6 * sc * (stc - 1) /\
    getIndexCount s' = 6 * sc * (stc - 1) /\
    (forall this0, sectorCount this0 = sc -> stackCount this0 = stc ->
       (smoothIndexLoop this0).2 = 6 * sc * (stc - 1)).
Proof.
  intros Hg. destruct (set_smooth_spec this g r se st Hg) as (s' & Hset & Hbuilt).
  exists s'. split; [done|].
  destruct (smoothBuilt_shape _ _ _ Hbuilt) as (_ & Hsc & Hst & _).
  pose proof (smoothBuilt_indices _ _ _ Hbuilt) as Hidx.
  cbn [shaped sectorCount stackCount with_smooth with_stackCount with_sectorCount]
    in Hsc, Hst, Hidx.
  cbn zeta. rewrite Hsc, Hst.
  pose proof (length_smoothIndicesSpec (Z.max 3 se) (Z.max 2 st)) as Hlen.
  do 3 (split; [done|]). split; [|split; [|split]].
  - intros Hsmall. rewrite Hidx. apply fmap_to_uint16_small.
    eapply Forall_impl; [apply smoothIndicesSpec_bound|]. cbn beta. lia.
  - apply Hlen; lia.
  - unfold getIndexCount. rewrite Hidx, length_fmap. apply Hlen; lia.
  - intros this0 Hsc0 Hst0.
    rewrite smoothIndexLoop_emitted by lia. unfold emitted. cbn [snd].
    rewrite Hsc0, Hst0. apply Hlen; lia.
Qed.

(** C5. In both modes every element of the index array is the number of
    a vertex: it is below [vertices.length / 3]. *)
Theorem indices_below_vertex_count this g r se st sm :
  gl this = Some g ->
  exists s',
    set r se st sm this = Return s' /\
    Forall (fun x => 0 <= x < getVertexCount s') (indices s').
Proof.
  intros Hg. destruct sm.
  - destruct (set_smooth_spec this g r se st Hg) as (s' & Hset & Hbuilt).
    exists s'. split; [done|].
    rewrite (smoothBuilt_indices _ _ _ Hbuilt).
    rewrite (proj2 (smoothBuilt_vertexCount _ _ _ Hbuilt)).
    apply Forall_fmap. eapply Forall_impl; [apply smoothIndicesSpec_bound|].
    intros k Hk. cbn beta in Hk |- *. unfold compose.
    pose proof (to_uint16_le k). lia.
  - destruct (set_flat_spec this g r se st Hg) as (s' & Hset & Hbuilt).
    exists s'. split; [done|].
    rewrite (flatBuilt_vertexCount _ _ _ Hbuilt).
    by destruct Hbuilt as (V & N & T & X & I & -> & _ & _ & _ & _ & _ & HX & _).
Qed.

Lemma built_set_smooth this g r se st s' :
  smoothBuilt (shaped r se st true this) g s' -> built this g s'.
Proof.
  intros Hbuilt. destruct (smoothBuilt_shape _ _ _ Hbuilt) as (Hr & Hsc & Hst & Hsm).
  cbn [shaped radius sectorCount stackCount smooth with_smooth with_stackCount
       with_sectorCount with_radius] in Hr, Hsc, Hst, Hsm.
  unfold built. rewrite Hsm, Hr, Hsc, Hst.
  unfold shaped in *. by rewrite !(Z.max_r _ (Z.max _ _)) by lia.
Qed.

Lemma built_set_flat this g r se st s' :
  flatBuilt (shaped r se st false this) g s' -> built this g s'.
Proof.
  intros Hbuilt. destruct (flatBuilt_shape _ _ _ Hbuilt) as (Hr & Hsc & Hst & Hsm).
  cbn [shaped radius sectorCount stackCount smooth with_smooth with_stackCount
       with_sectorCount with_radius] in Hr, Hsc, Hst, Hsm.
  unfold built. rewrite Hsm, Hr, Hsc, Hst.
  unfold shaped in *. by rewrite !(Z.max_r _ (Z.max _ _)) by lia.
Qed.

(** [set] returns the mesh built for the clamped shape. *)
Lemma set_built this g r se st sm :
  gl this = Some g ->
  exists s', set r se st sm this = Return s' /\ built this g s' /\
    radius s' = r /\ sectorCount s' = Z.max 3 se /\
    stackCount s' = Z.max 2 st /\ smooth s' = sm.
Proof.
  intros Hg. destruct sm.
  - destruct (set_smooth_spec this g r se st Hg) as (s' & Hset & Hbuilt).
    exists s'. split; [done|]. split; [by eapply built_set_smooth|].
    apply (smoothBuilt_shape _ _ _ Hbuilt).
  - destruct (set_flat_spec this g r se st Hg) as (s' & Hset & Hbuilt).
    exists s'. split; [done|]. split; [by eapply built_set_flat|].
    apply (flatBuilt_shape _ _ _ Hbuilt).
Qed.

Lemma flatBuilt_counts this g s' :
  0 <= sectorCount this -> 2 <= stackCount this ->
  flatBuilt this g s' ->
  getIndexCount s' = 6 * sectorCount this * (stackCount this - 1) /\
  getTriangleCount s' = 2 * sectorCount this * (stackCount this - 1) /\
  exists sl,
    flatTriangleLoop (flatTmpVertices s') s' = Return sl /\
    f_kk sl = 6 * sectorCount this * (stackCount this - 1) /\
    f_index sl = getVertexCount s'.
Proof.
  intros Hsc Hst Hbuilt.
  pose proof (flatBuilt_vertexCount _ _ _ Hbuilt) as Hcount.
  destruct (flatBuilt_shape _ _ _ Hbuilt) as (_ & Hsc' & Hst' & _).
  destruct Hbuilt as (V & N & T & X & I & Hs' & _ & _ & _ & HlX & _ & HX & _).
  assert (Hidx : indices s' = X) by by rewrite Hs'.
  assert (Hic : getIndexCount s' = 6 * sectorCount this * (stackCount this - 1)).
  { unfold getIndexCount. by rewrite Hidx. }
  split; [done|]. split.
  { unfold getTriangleCount. rewrite Hic. Z.div_mod_to_equations. nia. }
  destruct (flatTriangleLoop_inv s' (flatTmpVertices s')) as (sl & Hrun & Hinv).
  - lia.
  - lia.
  - apply length_flatTmpVertices; lia.
  - rewrite Hsc', Hst', Hidx. done.
  - exists sl. split; [done|].
    destruct Hinv as (_ & Hindex & Hkk & _).
    rewrite Hkk, Hindex, Hcount, Hsc', Hst'. done.
Qed.

(** C3. In flat mode the mesh has
    [sectorCount + sectorCount + 2*sectorCount*(stackCount-2)] triangles,
    a third of its index count, for the stored, clamped shape; the
    triangle loop emits that many triangles and as many vertices as the
    arrays hold. *)
Theorem flat_triangle_count this g r se st :
  gl this = Some g ->
  exists s',
    set r se st false this = Return s' /\
    let sc := sectorCount s' in
    let stc := stackCount s' in
    sc = Z.max 3 se /\ stc = Z.max 2 st /\
    getTriangleCount s' = sc + sc + 2 * sc * (stc - 2) /\
    getIndexCount s' = 3 * (sc + sc + 2 * sc * (stc - 2)) /\
    exists sl,
      flatTriangleLoop (flatTmpVertices s') s' = Return sl /\
      f_kk sl = 3 * (sc + sc + 2 * sc * (stc - 2)) /\
      f_index sl = getVertexCount s'.
Proof.
  intros Hg. destruct (set_flat_spec this g r se st Hg) as (s' & Hset & Hbuilt).
  exists s'. split; [done|].
  destruct (flatBuilt_shape _ _ _ Hbuilt) as (_ & Hsc & Hst & _).
  destruct (flatBuilt_counts (shaped r se st false this) g s')
    as (Hic & Htc & sl & Hrun & Hkk & Hindex); [cbn; lia..|done|].
  cbn [shaped sectorCount stackCount with_smooth with_stackCount with_sectorCount]
    in Hsc, Hst, Hic, Htc, Hkk.
  cbn zeta. rewrite Hsc, Hst. do 2 (split; [done|]).
  split; [lia|]. split; [lia|]. exists sl. split; [done|]. split; [lia|done].
Qed.

(** C4, as amended. For [sectorCount = 4] and [stackCount = 3] the flat
    mesh has exactly 16 triangles: 4 in the first stack, 4 in the last
    and 8 in the stack between them. *)
Theorem flat_4_3_triangle_count this g r :
  gl this = Some g ->
  exists s',
    set r 4 3 false this = Return s' /\
    getTriangleCount s' = 16 /\ 16 = 4 + 4 + 2 * 4 * (3 - 2).
Proof.
  intros Hg. destruct (set_flat_spec this g r 4 3 Hg) as (s' & Hset & Hbuilt).
  exists s'. split; [done|].
  destruct (flatBuilt_counts (shaped r 4 3 false this) g s')
    as (_ & Htc & _); [cbn; lia..|done|].
  split; [|done]. rewrite Htc. reflexivity.
Qed.

(** C7. In both modes the interleaved array gives every vertex [v] a
    record of eight elements from the offset [8v]: its elements 0..2 are
    [vertices[3v..3v+2]], 3..5 are [normals[3v..3v+2]] and 6..7 are
    [texCoords[2v..2v+1]], element for element. *)
Theorem interleaved_round_trip this g r se st sm :
  gl this = Some g ->
  exists s',
    set r se st sm this = Return s' /\
    Z.of_nat (length (interleavedVertices s')) = 8 * getVertexCount s' /\
    forall v, 0 <= v < getVertexCount s' ->
      take 3 (drop (Z.to_nat (8 * v)) (interleavedVertices s')) = slice3 (vertices s') v /\
      take 3 (drop (Z.to_nat (8 * v + 3)) (interleavedVertices s')) = slice3 (normals s') v /\
      take 2 (drop (Z.to_nat (8 * v + 6)) (interleavedVertices s')) = slice2 (texCoords s') v /\
      length (slice3 (vertices s') v) = 3%nat /\
      length (slice3 (normals s') v) = 3%nat /\
      length (slice2 (texCoords s') v) = 2%nat.
Proof.
  intros Hg. destruct sm.
  - destruct (set_smooth_spec this g r se st Hg) as (s' & Hset & Hbuilt).
    exists s'. split; [done|].
    rewrite (proj2 (smoothBuilt_vertexCount _ _ _ Hbuilt)).
    destruct Hbuilt as (V & N & T & I & -> & HV & HN & HT & HlI & _ & HI).
    split; [done|]. intros v Hv. by apply (interleaves_parts V N T I _ v HI).
  - destruct (set_flat_spec this g r se st Hg) as (s' & Hset & Hbuilt).
    exists s'. split; [done|].
    rewrite (flatBuilt_vertexCount _ _ _ Hbuilt).
    destruct Hbuilt as (V & N & T & X & I & -> & HV & HN & HT & _ & HlI & _ & HI).
    split; [done|]. intros v Hv. by apply (interleaves_parts V N T I _ v HI).
Qed.

(** C8. [computeFaceNormal] on the triangle v1-v2-v3: with [n] the cross
    product of the edges [v2-v1] and [v3-v1], the result is the zero
    vector of a fresh array when the magnitude of [n] does not exceed
    0.000001 (nothing is divided then), and [n] divided by its magnitude,
    as a [Float32Array] stores it, otherwise. *)
Theorem computeFaceNormal_cases (x1 y1 z1 x2 y2 z2 x3 y3 z3 : F) :
  let n := cross (vsub (x2, y2, z2) (x1, y1, z1)) (vsub (x3, y3, z3) (x1, y1, z1)) in
  (fgt (magnitude n) feps = false ->
     computeFaceNormal x1 y1 z1 x2 y2 z2 x3 y3 z3 = (f32_zero, f32_zero, f32_zero)) /\
  (fgt (magnitude n) feps = true ->
     computeFaceNormal x1 y1 z1 x2 y2 z2 x3 y3 z3 =
     (fround (fdiv n.1.1 (magnitude n)), fround (fdiv n.1.2 (magnitude n)),
      fround (fdiv n.2 (magnitude n)))).
Proof.
  intros n. unfold computeFaceNormal.
  change (fsqrt _) with (magnitude n).
  split; intros Hgt; by rewrite Hgt.
Qed.

Lemma shaped_same this sm :
  3 <= sectorCount this -> 2 <= stackCount this ->
  shaped (radius this) (sectorCount this) (stackCount this) sm this = with_smooth sm this.
Proof.
  intros Hsc Hst. unfold shaped. rewrite !Z.max_r by lia. by destruct this.
Qed.

(** A build appends the six calls of [buildVbos] to the log of the
    context, so its result is never the object it started from. *)
Lemma built_uploaded this g s' :
  gl this = Some g -> built this g s' ->
  (exists g', gl s' = Some g' /\ glCalls g' = glCalls g ++ vboCalls s') /\ s' <> this.
Proof.
  intros Hg Hbuilt.
  assert (Hup : exists g', gl s' = Some g' /\ glCalls g' = glCalls g ++ vboCalls s').
  { unfold built in Hbuilt. destruct (smooth s').
    - destruct Hbuilt as (V & N & T & I & -> & _). eexists. split; reflexivity.
    - destruct Hbuilt as (V & N & T & X & I & -> & _). eexists. split; reflexivity. }
  split; [done|]. intros ->. destruct Hup as (g' & Hg' & Hcalls).
  rewrite Hg in Hg'. injection Hg' as <-.
  apply (f_equal length) in Hcalls. rewrite length_app in Hcalls.
  cbn [vboCalls length] in Hcalls. lia.
Qed.

(** C10. On an object that holds a WebGL context and a clamped shape,
    each setter compares its argument with the stored value: when they
    are equal the object is returned as it is, arrays included; when they
    differ the mesh is built again for the new value (clamped, for the
    sector and stack counts) and uploaded, which changes the object. An
    object constructed with a [sectorCount] below 3 stores 3: on it
    [setSectorCount(2)] builds again and [setSectorCount(3)] does not. *)
Theorem setters_rebuild_iff_changed this g :
  gl this = Some g -> 3 <= sectorCount this -> 2 <= stackCount this ->
  (forall r,
     (fne (radius this) r = false -> setRadius r this = Return this) /\
     (fne (radius this) r = true ->
        exists s', setRadius r this = Return s' /\ built this g s' /\ s' <> this /\
          radius s' = r /\ sectorCount s' = sectorCount this /\
          stackCount s' = stackCount this /\ smooth s' = smooth this)) /\
  (forall s,
     (s = sectorCount this -> setSectorCount s this = Return this) /\
     (s <> sectorCount this ->
        exists s', setSectorCount s this = Return s' /\ built this g s' /\ s' <> this /\
          radius s' = radius this /\ sectorCount s' = Z.max 3 s /\
          stackCount s' = stackCount this /\ smooth s' = smooth this)) /\
  (forall s,
     (s = stackCount this -> setStackCount s this = Return this) /\
     (s <> stackCount this ->
        exists s', setStackCount s this = Return s' /\ built this g s' /\ s' <> this /\
          radius s' = radius this /\ sectorCount s' = sectorCount this /\
          stackCount s' = Z.max 2 s /\ smooth s' = smooth this)) /\
  (forall s,
     (s = smooth this -> setSmooth s this = Return this) /\
     (s <> smooth this ->
        exists s', setSmooth s this = Return s' /\ built this g s' /\ s' <> this /\
          radius s' = radius this /\ sectorCount s' = sectorCount this /\
          stackCount s' = stackCount this /\ smooth s' = s)) /\
  (forall g0 r se st sm, se < 3 ->
     exists s0,
       Sphere_new (Some g0) r se st sm = Return s0 /\ sectorCount s0 = 3 /\
       setSectorCount 3 s0 = Return s0 /\
       exists s', setSectorCount 2 s0 = Return s' /\ s' <> s0 /\ sectorCount s' = 3 /\
         exists g1, gl s0 = Some g1 /\ built s0 g1 s').
Proof.
  intros Hg Hsc Hst. split; [|split; [|split; [|split]]].
  - intros r. unfold setRadius. split; intros ->; [done|].
    destruct (set_built this g r (sectorCount this) (stackCount this) (smooth this) Hg)
      as (s' & Hset & Hb & Hr & Hsc' & Hst' & Hsm).
    exists s'. rewrite Z.max_r in Hsc', Hst' by lia.
    repeat split; try done. by apply (built_uploaded this g s').
  - intros s. unfold setSectorCount. split.
    + intros ->. by rewrite decide_False by (intros H; by apply H).
    + intros Hne. rewrite decide_True by done.
      destruct (set_built this g (radius this) s (stackCount this) (smooth this) Hg)
        as (s' & Hset & Hb & Hr & Hsc' & Hst' & Hsm).
      exists s'. rewrite Z.max_r in Hst' by lia.
      repeat split; try done. by apply (built_uploaded this g s').
  - intros s. unfold setStackCount. split.
    + intros ->. by rewrite decide_False by (intros H; by apply H).
    + intros Hne. rewrite decide_True by done.
      destruct (set_built this g (radius this) (sectorCount this) s (smooth this) Hg)
        as (s' & Hset & Hb & Hr & Hsc' & Hst' & Hsm).
      exists s'. rewrite Z.max_r in Hsc' by lia.
      repeat split; try done. by apply (built_uploaded this g s').
  - intros s. unfold setSmooth. split.
    + intros ->. by rewrite decide_False by (intros H; by apply H).
    + intros Hne. rewrite decide_True by done.
      change (smooth (with_smooth s this)) with s.
      rewrite <- (shaped_same this s) by done.
      pose proof (set_unfold (radius this) (sectorCount this) (stackCount this) s this) as Hu.
      rewrite <- Hu.
      destruct (set_built this g (radius this) (sectorCount this) (stackCount this) s Hg)
        as (s' & Hset & Hb & Hr & Hsc' & Hst' & Hsm).
      exists s'. rewrite Z.max_r in Hsc', Hst' by lia.
      repeat split; try done. by apply (built_uploaded this g s').
  - intros g0 r se st sm Hse. rewrite Sphere_new_unfold.
    destruct (set_built (constructed g0) _ r se st sm eq_refl)
      as (s0 & Hset & Hb & Hr & Hsc' & Hst' & Hsm).
    rewrite Z.max_l in Hsc' by lia.
    destruct (proj1 (built_uploaded (constructed g0) _ s0 eq_refl Hb)) as (g1 & Hg1 & _).
    exists s0. do 2 (split; [done|]). split.
    { unfold setSectorCount. rewrite decide_False; [done|]. rewrite Hsc'. by intros H. }
    unfold setSectorCount. rewrite decide_True by lia.
    destruct (set_built s0 g1 (radius s0) 2 (stackCount s0) (smooth s0) Hg1)
      as (s' & Hset' & Hb' & _ & Hsc'' & _).
    exists s'. split; [done|]. split; [by apply (built_uploaded s0 g1 s')|].
    split; [by rewrite Hsc''|]. by exists g1.
Qed.

(** What the smooth builder stores for the vertex numbered [v], the
    vertex of the stack [v / (sectorCount+1)] and the sector
    [v mod (sectorCount+1)]: the rounded position, and for the normal the
    rounded products of the position with [1.0 / radius]. *)
Lemma smooth_vertex_stored this g r se st :
  gl this = Some g ->
  exists s',
    set r se st true this = Return s' /\
    radius s' = r /\
    forall v, 0 <= v < getVertexCount s' ->
      let i := v / (sectorCount s' + 1) in
      let j := v mod (sectorCount s' + 1) in
      slice3 (vertices s') v = round3 (smoothPosition s' i j) /\
      slice3 (normals s') v = round3 (smoothNormal s' i j) /\
      slice2 (texCoords s') v = round2 (smoothTexCoord s' i j).
Proof.
  intros Hg. destruct (set_smooth_spec this g r se st Hg) as (s' & Hset & Hbuilt).
  exists s'. split; [done|].
  rewrite (proj2 (smoothBuilt_vertexCount _ _ _ Hbuilt)).
  destruct Hbuilt as (V & N & T & I & -> & _ & _ & _ & _ & Hcontent & _).
  split; [done|].
  intros v Hv.
  cbn [shaped sectorCount stackCount vertices normals texCoords with_gl
       with_interleavedVertices with_indices with_texCoords with_normals
       with_vertices with_smooth with_stackCount with_sectorCount with_radius]
    in Hcontent, Hv |- *.
  set (i := v / (Z.max 3 se + 1)). set (j := v mod (Z.max 3 se + 1)).
  assert (Hij : v = i * (Z.max 3 se + 1) + j /\ 0 <= j <= Z.max 3 se /\
                0 <= i <= Z.max 2 st).
  { unfold i, j. Z.div_mod_to_equations. nia. }
  destruct Hij as (Hvij & Hj & Hi).
  rewrite Hvij at 1 2 3. by apply Hcontent.
Qed.

End Claims.

(** ** Runs on a first object *)

(** The index values compute, whatever the numbers of the positions
    are. Without a context the constructor builds the arrays and throws
    in [buildVbos]. *)
Example smooth_3_2_indices :
  index_run (Sphere_new (Some gl0) 1%R 3 2 true) =
  Some [1; 4; 5; 2; 5; 6; 3; 6; 7; 4; 8; 5; 5; 9; 6; 6; 10; 7].
Proof. reflexivity. Qed.

Example flat_4_2_indices :
  index_run (Sphere_new (Some gl0) 1%R 4 2 false) =
  Some [0; 1; 2; 3; 4; 5; 6; 7; 8; 9; 10; 11;
        12; 13; 14; 15; 16; 17; 18; 19; 20; 21; 22; 23].
Proof. reflexivity. Qed.

Example flat_4_3_indices :
  index_run (Sphere_new (Some gl0) 1%R 4 3 false) =
  Some [0; 1; 2; 3; 4; 5; 6; 7; 8; 9; 10; 11;
        12; 13; 14; 14; 13; 15; 16; 17; 18; 18; 17; 19;
        20; 21; 22; 22; 21; 23; 24; 25; 26; 26; 25; 27;
        28; 29; 30; 31; 32; 33; 34; 35; 36; 37; 38; 39].
Proof. reflexivity. Qed.

Example clamped_0_0_indices :
  index_run (Sphere_new (Some gl0) 1%R 0 0 true) =
  Some [1; 4; 5; 2; 5; 6; 3; 6; 7; 4; 8; 5; 5; 9; 6; 6; 10; 7].
Proof. reflexivity. Qed.

Example Sphere_new_without_gl : Sphere_new None 1%R 3 2 true = Throw TypeError.
Proof. reflexivity. Qed.

(** The first object holds a context. *)
Lemma sphere0_gl : gl sphere0 = Some {| glBuffers := 2; glCalls := [] |}.
Proof. reflexivity. Defined.

Lemma smooth_vertex_count_witness :
  exists s', set 1%R 3 2 true sphere0 = Return s' /\ getVertexCount s' = 12.
Proof.
  destruct (smooth_vertex_count sphere0 _ 1%R 3 2 sphere0_gl)
    as (s' & Hset & _ & _ & _ & _ & _ & H12).
  exists s'. split; [exact Hset|]. apply H12; reflexivity.
Defined.

Lemma smooth_indices_generated_witness :
  exists s', set 1%R 3 2 true sphere0 = Return s' /\
    indices s' = smoothIndicesSpec 3 2 /\ getIndexCount s' = 18.
Proof.
  destruct (smooth_indices_generated sphere0 _ 1%R 3 2 sphere0_gl)
    as (s' & Hset & Hsc & Hst & _ & Hidx & _ & Hcount & _).
  exists s'. split; [exact Hset|]. rewrite Hsc, Hst in Hidx, Hcount.
  split; [apply Hidx; vm_compute; discriminate|exact Hcount].
Defined.

Lemma flat_triangle_count_witness :
  exists s', set 1%R 3 2 false sphere0 = Return s' /\ getTriangleCount s' = 6.
Proof.
  destruct (flat_triangle_count sphere0 _ 1%R 3 2 sphere0_gl)
    as (s' & Hset & Hsc & Hst & Hcount & _).
  exists s'. split; [exact Hset|]. rewrite Hsc, Hst in Hcount. exact Hcount.
Defined.

Lemma flat_4_3_triangle_count_witness :
  exists s', set 1%R 4 3 false sphere0 = Return s' /\ getTriangleCount s' = 16.
Proof.
  destruct (flat_4_3_triangle_count sphere0 _ 1%R sphere0_gl) as (s' & Hset & Hcount & _).
  exists s'. split; [exact Hset|exact Hcount].
Defined.

(** C4, as stated, fails: the flat mesh for [sectorCount = 4] and
    [stackCount = 3] does not have 8 triangles. *)
Lemma flat_4_3_not_8_triangles :
  ~ exists s', set 1%R 4 3 false sphere0 = Return s' /\ getTriangleCount s' = 8.
Proof.
  intros (s' & Hset & Hcount).
  destruct (set_flat_spec sphere0 _ 1%R 4 3 sphere0_gl) as (s'' & Hset' & Hbuilt).
  rewrite Hset in Hset'. injection Hset' as <-.
  apply flatBuilt_counts in Hbuilt as (_ & Htc & _); [|cbn; lia..].
  rewrite Hcount in Htc. discriminate Htc.
Qed.

Lemma indices_below_vertex_count_witness :
  exists s', set 1%R 3 2 false sphere0 = Return s' /\
    Forall (fun x => 0 <= x < getVertexCount s') (indices s').
Proof. exact (indices_below_vertex_count sphere0 _ 1%R 3 2 false sphere0_gl). Defined.

Lemma interleaved_round_trip_witness :
  exists s',
    set 1%R 3 2 false sphere0 = Return s' /\
    Z.of_nat (length (interleavedVertices s')) = 8 * getVertexCount s' /\
    forall v, 0 <= v < getVertexCount s' ->
      take 3 (drop (Z.to_nat (8 * v)) (interleavedVertices s')) = slice3 (vertices s') v /\
      take 3 (drop (Z.to_nat (8 * v + 3)) (interleavedVertices s')) = slice3 (normals s') v /\
      take 2 (drop (Z.to_nat (8 * v + 6)) (interleavedVertices s')) = slice2 (texCoords s') v /\
      length (slice3 (vertices s') v) = 3%nat /\
      length (slice3 (normals s') v) = 3%nat /\
      length (slice2 (texCoords s') v) = 2%nat.
Proof. exact (interleaved_round_trip sphere0 _ 1%R 3 2 false sphere0_gl). Defined.

Lemma setters_rebuild_iff_changed_witness :
  setSectorCount 36 sphere0 = Return sphere0 /\
  exists s', setSectorCount 2 sphere0 = Return s' /\ s' <> sphere0 /\ sectorCount s' = 3.
Proof.
  destruct (setters_rebuild_iff_changed sphere0 _ sphere0_gl) as (_ & Hsector & _).
  - cbn. lia.
  - cbn. lia.
  - split; [apply (proj1 (Hsector 36)); reflexivity|].
    destruct (proj2 (Hsector 2)) as (s' & Hset & _ & Hne & _ & Hsc & _).
    + cbn. lia.
    + exists s'. split; [exact Hset|]. split; [exact Hne|exact Hsc].
Defined.

Lemma computeFaceNormal_cases_witness :
  computeFaceNormal 0%R 0%R 0%R 0%R 0%R 0%R 0%R 0%R 0%R = (0%R, 0%R, 0%R) /\
  computeFaceNormal 0%R 0%R 0%R 1%R 0%R 0%R 0%R 1%R 0%R =
    ((0 / 1)%R, (0 / 1)%R, (1 / 1)%R).
Proof.
  split.
  - destruct (computeFaceNormal_cases 0%R 0%R 0%R 0%R 0%R 0%R 0%R 0%R 0%R) as [Hzero _].
    apply Hzero. unfold magnitude, cross, vsub.
    cbn [fst snd fgt fsqrt fadd fsub fmul feps ExactNumber].
    replace ((0 - 0) * (0 - 0) - (0 - 0) * (0 - 0))%R with 0%R by ring.
    replace (0 * 0 + 0 * 0 + 0 * 0)%R with 0%R by ring.
    rewrite sqrt_0. destruct (Rgt_dec 0 (1 / 1000000)) as [Hgt|Hle]; [lra|reflexivity].
  - assert (Hlen : magnitude (cross (vsub (1%R, 0%R, 0%R) (0%R, 0%R, 0%R))
                                    (vsub (0%R, 1%R, 0%R) (0%R, 0%R, 0%R))) = 1%R).
    { unfold magnitude, cross, vsub.
      cbn [fst snd fsqrt fadd fsub fmul ExactNumber].
      replace (((0 - 0) * (0 - 0) - (0 - 0) * (1 - 0)) *
               ((0 - 0) * (0 - 0) - (0 - 0) * (1 - 0)) +
               ((0 - 0) * (0 - 0) - (1 - 0) * (0 - 0)) *
               ((0 - 0) * (0 - 0) - (1 - 0) * (0 - 0)) +
               ((1 - 0) * (1 - 0) - (0 - 0) * (0 - 0)) *
               ((1 - 0) * (1 - 0) - (0 - 0) * (0 - 0)))%R with 1%R by ring.
      apply sqrt_1. }
    destruct (computeFaceNormal_cases 0%R 0%R 0%R 1%R 0%R 0%R 0%R 1%R 0%R) as [_ Hcross].
    cbn zeta in Hcross. rewrite Hlen in Hcross. rewrite Hcross.
    + unfold cross, vsub. cbn [fst snd fround fdiv fsub fmul ExactNumber].
      f_equal; [f_equal|]; f_equal; ring.
    + cbn [fgt feps ExactNumber].
      destruct (Rgt_dec 1 (1 / 1000000)) as [Hgt|Hle]; [reflexivity|lra].
Defined.

(** * The rest of the mesh *)

Section MeshArrays.
Context {F F32 : Type} {num : JsNumber F F32}.
Implicit Types this : Sphere F F32.

Lemma getCount_exact (l : list F32) k n :
  0 < k -> Z.of_nat (length l) = k * n -> Z.of_nat (length l) / k = n.
Proof. intros Hk ->. rewrite Z.mul_comm. by apply Z.div_mul; lia. Qed.

(** X1. After [set] the arrays describe one and the same number of
    vertices: [normals] is as long as [vertices], [texCoords] holds two
    elements where these hold three, the interleaved array eight, and the
    index count is three times the triangle count. The vertex count is
    [(sectorCount+1)*(stackCount+1)] in smooth mode and
    [6*sectorCount + 4*sectorCount*(stackCount-2)] in flat mode. *)
Theorem mesh_arrays_consistent this g r se st sm :
  gl this = Some g ->
  exists s',
    set r se st sm this = Return s' /\
    let n := getVertexCount s' in
    Z.of_nat (length (vertices s')) = 3 * n /\
    Z.of_nat (length (normals s')) = 3 * n /\
    Z.of_nat (length (texCoords s')) = 2 * n /\
    Z.of_nat (length (interleavedVertices s')) = 8 * n /\
    getNormalCount s' = n /\ getTexCoordCount s' = n /\
    getIndexCount s' = 3 * getTriangleCount s' /\
    n = if sm then (sectorCount s' + 1) * (stackCount s' + 1)
        else 6 * sectorCount s' + 4 * sectorCount s' * (stackCount s' - 2).
Proof.
  intros Hg. destruct sm.
  - destruct (set_smooth_spec this g r se st Hg) as (s' & Hset & Hbuilt).
    exists s'. split; [done|]. cbn zeta.
    rewrite (proj2 (smoothBuilt_vertexCount _ _ _ Hbuilt)).
    destruct (smoothBuilt_shape _ _ _ Hbuilt) as (_ & -> & -> & _).
    pose proof (smoothBuilt_indices _ _ _ Hbuilt) as Hidx.
    destruct Hbuilt as (V & N & T & I & -> & HV & HN & HT & HI & _).
    unfold getNormalCount, getTexCoordCount, getTriangleCount, getIndexCount.
    cbn [vertices normals texCoords interleavedVertices indices with_gl
         with_interleavedVertices with_indices with_texCoords with_normals
         with_vertices] in Hidx |- *.
    rewrite (getCount_exact N 3 _ ltac:(lia) HN), (getCount_exact T 2 _ ltac:(lia) HT).
    rewrite length_fmap.
    rewrite (length_smoothIndicesSpec _ _) by (cbn; lia).
    repeat split; try done. Z.div_mod_to_equations. nia.
  - destruct (set_flat_spec this g r se st Hg) as (s' & Hset & Hbuilt).
    exists s'. split; [done|]. cbn zeta.
    rewrite (flatBuilt_vertexCount _ _ _ Hbuilt).
    destruct (flatBuilt_shape _ _ _ Hbuilt) as (_ & -> & -> & _).
    destruct Hbuilt as (V & N & T & X & I & -> & HV & HN & HT & HX & HI & _).
    unfold getNormalCount, getTexCoordCount, getTriangleCount, getIndexCount.
    cbn [vertices normals texCoords interleavedVertices indices with_gl
         with_interleavedVertices with_indices with_texCoords with_normals
         with_vertices].
    rewrite (getCount_exact N 3 _ ltac:(lia) HN), (getCount_exact T 2 _ ltac:(lia) HT).
    rewrite HX. repeat split; try done. Z.div_mod_to_equations. nia.
Qed.

Lemma built_frame this g s' :
  built this g s' ->
  gl s' = Some {| glBuffers := glBuffers g; glCalls := glCalls g ++ vboCalls s' |} /\
  stride s' = stride this /\ vboVertex s' = vboVertex this /\
  vboIndex s' = vboIndex this.
Proof.
  unfold built. destruct (smooth s').
  - by intros (V & N & T & I & -> & _).
  - by intros (V & N & T & X & I & -> & _).
Qed.

(** X2. [set] creates no buffer and makes exactly six calls on the
    context, in this order: it binds the vertex buffer of the object,
    uploads the interleaved array the object now holds, unbinds; binds
    the index buffer, uploads the index array the object now holds,
    unbinds. The two buffer handles and the stride stay as they were. *)
Theorem set_uploads_mesh this g r se st sm :
  gl this = Some g ->
  exists s' g',
    set r se st sm this = Return s' /\ gl s' = Some g' /\
    glBuffers g' = glBuffers g /\
    glCalls g' = glCalls g ++
      [bindBuffer ARRAY_BUFFER (vboVertex this);
       bufferData ARRAY_BUFFER (FloatData (interleavedVertices s'));
       bindBuffer ARRAY_BUFFER None;
       bindBuffer ELEMENT_ARRAY_BUFFER (vboIndex this);
       bufferData ELEMENT_ARRAY_BUFFER (ShortData (indices s'));
       bindBuffer ELEMENT_ARRAY_BUFFER None] /\
    vboVertex s' = vboVertex this /\ vboIndex s' = vboIndex this /\
    stride s' = stride this.
Proof.
  intros Hg.
  destruct (set_built this g r se st sm Hg) as (s' & Hset & Hb & _).
  destruct (built_frame _ _ _ Hb) as (Hgl & Hstride & Hv & Hi).
  eexists s', _. split; [done|]. split; [exact Hgl|].
  cbn [glBuffers glCalls]. unfold vboCalls. by rewrite Hv, Hi.
Qed.

(** X3. The constructor, given a context, creates exactly two buffers,
    distinct from each other and from every buffer created before, keeps
    them as [vboVertex] and [vboIndex], sets the stride to 32 and makes
    no other call than the six of the first upload. *)
Theorem Sphere_new_buffers (g : GL F32) r se st sm :
  exists s' g',
    Sphere_new (Some g) r se st sm = Return s' /\ gl s' = Some g' /\
    glBuffers g' = S (S (glBuffers g)) /\
    vboVertex s' = Some (glBuffers g) /\ vboIndex s' = Some (S (glBuffers g)) /\
    vboVertex s' <> vboIndex s' /\ stride s' = 32 /\
    glCalls g' = glCalls g ++ vboCalls s'.
Proof.
  rewrite Sphere_new_unfold.
  destruct (set_built (constructed g) _ r se st sm eq_refl) as (s' & Hset & Hb & _).
  destruct (built_frame _ _ _ Hb) as (Hgl & Hstride & Hv & Hi).
  eexists s', _. split; [done|]. split; [exact Hgl|].
  cbn [glBuffers glCalls constructed stride vboVertex vboIndex] in *.
  rewrite Hv, Hi, Hstride. repeat split; try done. intros [=]. lia.
Qed.

End MeshArrays.

(** ** Which vertices the smooth triangles use *)

Lemma elem_of_smoothCellIndices sc st i j k :
  k ∈ smoothCellIndices sc st i j <->
  (i <> 0 /\ (k = i * (sc + 1) + j \/ k = i * (sc + 1) + j + sc + 1 \/
              k = i * (sc + 1) + j + 1)) \/
  (i <> st - 1 /\ (k = i * (sc + 1) + j + 1 \/ k = i * (sc + 1) + j + sc + 1 \/
                   k = i * (sc + 1) + j + sc + 1 + 1)).
Proof.
  unfold smoothCellIndices. rewrite elem_of_app.
  destruct (decide (i = 0)), (decide (i = st - 1));
    rewrite ?elem_of_cons, ?elem_of_nil; intuition lia.
Qed.

(** The vertex numbers the triangles use are those from 1 to two less
    than the number of vertices. *)
Lemma elem_of_smoothIndicesSpec sc st k :
  1 <= sc -> 2 <= st ->
  k ∈ smoothIndicesSpec sc st <-> 1 <= k <= (sc + 1) * (st + 1) - 2.
Proof.
  intros Hsc Hst. unfold smoothIndicesSpec. rewrite list_elem_of_bind. split.
  - intros (i & Hk & Hi). apply list_elem_of_bind in Hk as (j & Hk & Hj).
    apply elem_of_seqZ in Hi, Hj. apply elem_of_smoothCellIndices in Hk.
    destruct Hk as [(Hi0 & Hk)|(Hi1 & Hk)]; nia.
  - intros Hk.
    set (i := k / (sc + 1)). set (j := k mod (sc + 1)).
    assert (Hij : k = i * (sc + 1) + j /\ 0 <= j <= sc /\ 0 <= i <= st).
    { unfold i, j. Z.div_mod_to_equations. nia. }
    destruct Hij as (Hkij & Hj & Hi).
    destruct (decide (i = 0)) as [Hi0|Hi0].
    { (* first stack: [k1+1] of the sector before *)
      exists 0. split; [|apply elem_of_seqZ; lia].
      apply list_elem_of_bind. exists (j - 1). split; [|apply elem_of_seqZ; nia].
      apply elem_of_smoothCellIndices. right. split; [lia|]. left. nia. }
    destruct (decide (i = st)) as [Hist|Hist].
    { (* below the last stack: [k2] of the sector above *)
      exists (st - 1). split; [|apply elem_of_seqZ; lia].
      apply list_elem_of_bind. exists j. split; [|apply elem_of_seqZ; nia].
      apply elem_of_smoothCellIndices. left. split; [lia|]. right. left. nia. }
    exists i. split; [|apply elem_of_seqZ; lia].
    destruct (decide (j = sc)) as [Hjsc|Hjsc].
    + apply list_elem_of_bind. exists (sc - 1). split; [|apply elem_of_seqZ; lia].
      apply elem_of_smoothCellIndices. left. split; [lia|]. right. right. nia.
    + apply list_elem_of_bind. exists j. split; [|apply elem_of_seqZ; lia].
      apply elem_of_smoothCellIndices. left. split; [lia|]. left. nia.
Qed.

Section SmoothUse.
Context {F F32 : Type} {num : JsNumber F F32}.
Implicit Types this : Sphere F F32.

(** X4. In smooth mode the index array refers to every vertex except
    the first and the last one: while the mesh has at most 65537
    vertices, a number is an element of [indices] exactly when it lies
    between 1 and [vertexCount - 2]. *)
Theorem smooth_indices_use_all_but_two this g r se st :
  gl this = Some g ->
  exists s',
    set r se st true this = Return s' /\
    (getVertexCount s' <= 65537 ->
     forall k, k ∈ indices s' <-> 1 <= k <= getVertexCount s' - 2).
Proof.
  intros Hg. destruct (set_smooth_spec this g r se st Hg) as (s' & Hset & Hbuilt).
  exists s'. split; [done|].
  rewrite (proj2 (smoothBuilt_vertexCount _ _ _ Hbuilt)).
  rewrite (smoothBuilt_indices _ _ _ Hbuilt).
  cbn [shaped sectorCount stackCount with_smooth with_stackCount with_sectorCount].
  intros Hsmall k.
  rewrite fmap_to_uint16_small.
  - apply elem_of_smoothIndicesSpec; lia.
  - apply Forall_forall. intros x Hx.
    apply elem_of_smoothIndicesSpec in Hx; lia.
Qed.

(** X5. The [Uint16Array] keeps the index values as the loop emits
    them exactly when the mesh has at most 65537 vertices; in a larger
    mesh some stored index differs from the emitted one. *)
Theorem smooth_indices_exact_iff this g r se st :
  gl this = Some g ->
  exists s',
    set r se st true this = Return s' /\
    (indices s' = smoothIndicesSpec (sectorCount s') (stackCount s') <->
     getVertexCount s' <= 65537).
Proof.
  intros Hg. destruct (set_smooth_spec this g r se st Hg) as (s' & Hset & Hbuilt).
  exists s'. split; [done|].
  rewrite (proj2 (smoothBuilt_vertexCount _ _ _ Hbuilt)).
  rewrite (smoothBuilt_indices _ _ _ Hbuilt).
  destruct (smoothBuilt_shape _ _ _ Hbuilt) as (_ & -> & -> & _).
  cbn [shaped sectorCount stackCount with_smooth with_stackCount with_sectorCount].
  set (sc := Z.max 3 se). set (stc := Z.max 2 st).
  split.
  - intros Heq.
    destruct (decide ((sc + 1) * (stc + 1) <= 65537)) as [|Hbig]; [done|].
    assert (Hin : (sc + 1) * (stc + 1) - 2 ∈ smoothIndicesSpec sc stc)
      by (apply elem_of_smoothIndicesSpec; unfold sc, stc; lia).
    apply list_elem_of_lookup in Hin as (p & Hp).
    assert (Hp' : (to_uint16 <$> smoothIndicesSpec sc stc) !! p =
                  Some (to_uint16 ((sc + 1) * (stc + 1) - 2)))
      by (by rewrite list_lookup_fmap, Hp).
    rewrite Heq, Hp in Hp'. injection Hp' as Hwrap.
    unfold to_uint16 in Hwrap.
    pose proof (Z.mod_pos_bound ((sc + 1) * (stc + 1) - 2) 65536). lia.
  - intros Hsmall. apply fmap_to_uint16_small.
    apply Forall_forall. intros x Hx.
    apply elem_of_smoothIndicesSpec in Hx; unfold sc, stc in *; lia.
Qed.

End SmoothUse.

(** ** The grid of the smooth mesh *)

Section SmoothGrid.
Context {F F32 : Type} {num : JsNumber F F32}.
Implicit Types this : Sphere F F32.

(** What the smooth builder stores for the vertex of stack [i] and
    sector [j], whose number is [i*(sectorCount+1)+j]. *)
Lemma smooth_grid_stored this g r se st :
  gl this = Some g ->
  exists s',
    set r se st true this = Return s' /\
    radius s' = r /\ sectorCount s' = Z.max 3 se /\ stackCount s' = Z.max 2 st /\
    forall i j, 0 <= i <= stackCount s' -> 0 <= j <= sectorCount s' ->
      slice3 (vertices s') (i * (sectorCount s' + 1) + j) =
        round3 (smoothPosition s' i j) /\
      slice3 (normals s') (i * (sectorCount s' + 1) + j) =
        round3 (smoothNormal s' i j) /\
      slice2 (texCoords s') (i * (sectorCount s' + 1) + j) =
        round2 (smoothTexCoord s' i j).
Proof.
  intros Hg. destruct (set_smooth_spec this g r se st Hg) as (s' & Hset & Hbuilt).
  exists s'. split; [done|].
  destruct (smoothBuilt_shape _ _ _ Hbuilt) as (Hr & Hsc & Hst & _).
  do 3 (split; [done|]).
  destruct Hbuilt as (V & N & T & I & -> & _ & _ & _ & _ & Hcontent & _).
  intros i j Hi Hj. by apply Hcontent.
Qed.

(** X8. The texture coordinates stored for the vertex of stack [i] and
    sector [j] of the smooth mesh, at the vertex number
    [i*(sectorCount+1)+j], are the quotients [j / sectorCount] and
    [i / stackCount] of the clamped counts, each computed in double
    precision and rounded to single precision by the store. *)
Theorem smooth_texCoords_stored this g r se st :
  gl this = Some g ->
  exists s',
    set r se st true this = Return s' /\
    sectorCount s' = Z.max 3 se /\ stackCount s' = Z.max 2 st /\
    forall i j, 0 <= i <= stackCount s' -> 0 <= j <= sectorCount s' ->
      slice2 (texCoords s') (i * (sectorCount s' + 1) + j) =
        [fround (fdiv (num_of_Z j) (num_of_Z (sectorCount s')));
         fround (fdiv (num_of_Z i) (num_of_Z (stackCount s')))].
Proof.
  intros Hg.
  destruct (smooth_grid_stored this g r se st Hg) as (s' & Hset & _ & Hsc & Hst & Hgrid).
  exists s'. do 3 (split; [assumption|]). intros i j Hi Hj.
  destruct (Hgrid i j Hi Hj) as (_ & _ & HT). exact HT.
Qed.

End SmoothGrid.

(** ** The face normal in exact arithmetic *)

(** X10. In exact arithmetic a triangle two of whose corners coincide
    has the zero vector for its face normal. *)
Theorem computeFaceNormal_collapsed (x1 y1 z1 x2 y2 z2 x3 y3 z3 : R) :
  (x2, y2, z2) = (x1, y1, z1) \/ (x3, y3, z3) = (x1, y1, z1) \/
  (x3, y3, z3) = (x2, y2, z2) ->
  computeFaceNormal x1 y1 z1 x2 y2 z2 x3 y3 z3 = (0%R, 0%R, 0%R).
Proof.
  intros Hsame. unfold computeFaceNormal.
  cbn [fgt feps fsqrt fadd fsub fmul f32_zero ExactNumber].
  match goal with |- context [sqrt ?e] => replace e with 0%R end.
  - rewrite sqrt_0. destruct (Rgt_dec 0 (1 / 1000000)); [lra|reflexivity].
  - destruct Hsame as [[= -> -> ->]|[[= -> -> ->]|[= -> -> ->]]]; ring.
Qed.

(** ** The arrays of the flat mesh *)

Lemma ta_store_app_l {A} (a b : list A) k x :
  0 <= k < Z.of_nat (length a) -> ta_store (a ++ b) k x = ta_store a k x ++ b.
Proof.
  intros Hk. unfold ta_store. rewrite !decide_True by lia.
  apply insert_app_l. lia.
Qed.

Lemma ta_write_app_l {A} (a b l : list A) k :
  0 <= k -> k + Z.of_nat (length l) <= Z.of_nat (length a) ->
  ta_write (a ++ b) k l = ta_write a k l ++ b.
Proof.
  revert a k. induction l as [|x l IH]; intros a k Hk Hlen; cbn [ta_write]; [done|].
  cbn [length] in Hlen. rewrite ta_store_app_l by lia.
  apply IH; [lia|]. rewrite length_ta_store. lia.
Qed.

(** Writing [l] behind the part [d] already written, into an array that
    is still as allocated from there on. *)
Lemma ta_write_done {A} (d l : list A) (k : nat) z :
  (length l <= k)%nat ->
  ta_write (d ++ replicate k z) (Z.of_nat (length d)) l =
  (d ++ l) ++ replicate (k - length l) z.
Proof.
  intros Hl.
  replace k with (length l + (k - length l))%nat at 1 by lia.
  rewrite replicate_add, app_assoc.
  rewrite ta_write_app_l by (rewrite ?length_app, ?length_replicate; lia).
  by rewrite ta_write_fill by (by rewrite length_replicate).
Qed.

Section FlatContent.
Context {F F32 : Type} {num : JsNumber F F32}.
Implicit Types this : Sphere F F32.

Lemma flatTmpRow_lookup this i (tmp : list (Vertex F)) :
  0 <= sectorCount this ->
  let sectorStep := fdiv (fmul (num_of_Z 2) fPI) (num_of_Z (sectorCount this)) in
  let stackStep := fdiv fPI (num_of_Z (stackCount this)) in
  let row := flatTmpRow this sectorStep stackStep i tmp in
  (forall p v, tmp !! p = Some v -> row !! p = Some v) /\
  (forall j, 0 <= j <= sectorCount this ->
     row !! (length tmp + Z.to_nat j)%nat = Some (gridVertex this i j)).
Proof.
  intros Hsc sectorStep stackStep. unfold flatTmpRow.
  set (xy := fmul (radius this) _). set (z := fmul (radius this) _).
  assert (H : (fun j (l : list (Vertex F)) =>
    Z.of_nat (length l) = Z.of_nat (length tmp) + j /\
    (forall (p : nat) v, tmp !! p = Some v -> l !! p = Some v) /\
    (forall j', 0 <= j' < j ->
       l !! (length tmp + Z.to_nat j')%nat = Some (gridVertex this i j')))
    (sectorCount this + 1)
    (for_range 0 (sectorCount this + 1) (flatTmpStep this sectorStep xy z i) tmp)).
  { apply for_range_ind; [lia| |].
    - split; [lia|]. split; [done|]. intros j' Hj'. lia.
    - intros j l Hj (Hlen & Hold & Hnew). unfold flatTmpStep.
      split; [rewrite length_app; cbn [length]; lia|]. split.
      + intros p v Hp. apply lookup_app_l_Some. by apply Hold.
      + intros j' Hj'. destruct (decide (j' = j)) as [->|Hne].
        * replace (length tmp + Z.to_nat j)%nat with (length l + 0)%nat by lia.
          rewrite lookup_app_r by lia.
          replace (length l + 0 - length l)%nat with 0%nat by lia. reflexivity.
        * apply lookup_app_l_Some. apply Hnew. lia. }
  destruct H as (_ & Hold & Hnew). split; [exact Hold|].
  intros j Hj. apply Hnew. lia.
Qed.

(** [tmpVertices] holds the grid, row after row. *)
Lemma flatTmpVertices_lookup this i j :
  0 <= sectorCount this -> 0 <= i <= stackCount this -> 0 <= j <= sectorCount this ->
  ta_load (flatTmpVertices this) (i * (sectorCount this + 1) + j) =
  Some (gridVertex this i j).
Proof.
  intros Hsc Hi Hj. unfold ta_load. rewrite decide_True by nia.
  unfold flatTmpVertices.
  assert (H : forall i', 0 <= i' < stackCount this + 1 ->
    for_range 0 (stackCount this + 1)
      (flatTmpRow this (fdiv (fmul (num_of_Z 2) fPI) (num_of_Z (sectorCount this)))
         (fdiv fPI (num_of_Z (stackCount this)))) [] !!
      Z.to_nat (i' * (sectorCount this + 1) + j) = Some (gridVertex this i' j));
    [|apply H; lia].
  apply (for_range_ind (fun k (l : list (Vertex F)) =>
    Z.of_nat (length l) = k * (sectorCount this + 1) /\
    forall i', 0 <= i' < k ->
      l !! Z.to_nat (i' * (sectorCount this + 1) + j) = Some (gridVertex this i' j))
    0 (stackCount this + 1)); [lia| |].
  - split; [done|]. intros i' Hi'. lia.
  - intros k l Hk (Hlen & Hold).
    destruct (flatTmpRow_lookup this k l Hsc) as (Hkeep & Hnew).
    split; [rewrite length_flatTmpRow by done; lia|].
    intros i' Hi'. destruct (decide (i' = k)) as [->|Hne].
    + replace (Z.to_nat (k * (sectorCount this + 1) + j))
        with (length l + Z.to_nat j)%nat by nia.
      by apply Hnew.
    + apply Hkeep, Hold. lia.
Qed.

Lemma arrays_eq (V N T V' N' T' : list F32) (X X' : list Z) this0 :
  V = V' -> N = N' -> T = T' -> X = X' ->
  arrays V N T X this0 = arrays V' N' T' X' this0.
Proof. by intros -> -> -> ->. Qed.

Lemma faceNormal_stored (v1 v2 v3 : Vertex F) :
  let n := computeFaceNormal (vx v1) (vy v1) (vz v1) (vx v2) (vy v2) (vz v2)
                             (vx v3) (vy v3) (vz v3) in
  round3 (widen n.1.1, widen n.1.2, widen n.2) = faceNormal v1 v2 v3.
Proof. intros n. unfold round3, faceNormal. cbn [fst snd]. by rewrite !fround_widen. Qed.

(** The arrays after one triangle has been stored. *)
Lemma flatTriangle_arrays this0 V N T X s v1 v2 v3 :
  f_this s = arrays V N T X this0 ->
  f_this (flatTriangle v1 v2 v3 s) =
  arrays
    (ta_write V (f_ii s) (vertexPosition v1 ++ vertexPosition v2 ++ vertexPosition v3))
    (ta_write N (f_ii s) (faceNormal v1 v2 v3 ++ faceNormal v1 v2 v3 ++ faceNormal v1 v2 v3))
    (ta_write T (f_jj s) (vertexTexCoord v1 ++ vertexTexCoord v2 ++ vertexTexCoord v3))
    (ta_write X (f_kk s) (to_uint16 <$> [f_index s; f_index s + 1; f_index s + 2]))
    this0.
Proof.
  intros Hs. unfold flatTriangle. cbn [f_this]. rewrite Hs.
  rewrite !addVertex_write, !addTexCoord_write, !addNormal_write, addIndices_write.
  rewrite !faceNormal_stored.
  unfold arrays.
  cbn [vertices normals texCoords indices with_indices with_texCoords with_normals
       with_vertices].
  rewrite !ta_write_app. unfold vertexPosition, vertexTexCoord, faceNormal, round3, round2.
  cbn [length]. change (Z.of_nat 3) with 3. change (Z.of_nat 2) with 2.
  replace (f_ii s + 3 + 3) with (f_ii s + 6) by lia.
  replace (f_jj s + 2 + 2) with (f_jj s + 4) by lia.
  reflexivity.
Qed.

(** The arrays after one quad has been stored: the normal of its fourth
    corner is not written. *)
Lemma flatQuad_arrays this0 V N T X s v1 v2 v3 v4 :
  f_this s = arrays V N T X this0 ->
  f_this (flatQuad v1 v2 v3 v4 s) =
  arrays
    (ta_write V (f_ii s) (vertexPosition v1 ++ vertexPosition v2 ++ vertexPosition v3 ++
                          vertexPosition v4))
    (ta_write N (f_ii s) (faceNormal v1 v2 v3 ++ faceNormal v1 v2 v3 ++ faceNormal v1 v2 v3))
    (ta_write T (f_jj s) (vertexTexCoord v1 ++ vertexTexCoord v2 ++ vertexTexCoord v3 ++
                          vertexTexCoord v4))
    (ta_write X (f_kk s)
       (to_uint16 <$> [f_index s; f_index s + 1; f_index s + 2;
                       f_index s + 2; f_index s + 1; f_index s + 3]))
    this0.
Proof.
  intros Hs. unfold flatQuad. cbn [f_this]. rewrite Hs.
  rewrite !addVertex_write, !addTexCoord_write, !addNormal_write, !addIndices_write.
  rewrite !faceNormal_stored.
  unfold arrays.
  cbn [vertices normals texCoords indices with_indices with_texCoords with_normals
       with_vertices].
  change (to_uint16 <$> [f_index s; f_index s + 1; f_index s + 2;
                         f_index s + 2; f_index s + 1; f_index s + 3])
    with ((to_uint16 <$> [f_index s; f_index s + 1; f_index s + 2]) ++
          (to_uint16 <$> [f_index s + 2; f_index s + 1; f_index s + 3])).
  rewrite !ta_write_app. unfold vertexPosition, vertexTexCoord, faceNormal, round3, round2.
  cbn [length fmap list_fmap]. change (Z.of_nat 3) with 3. change (Z.of_nat 2) with 2.
  replace (f_ii s + 3 + 3) with (f_ii s + 6) by lia.
  replace (f_ii s + 6 + 3) with (f_ii s + 9) by lia.
  replace (f_jj s + 2 + 2) with (f_jj s + 4) by lia.
  replace (f_jj s + 4 + 2) with (f_jj s + 6) by lia.
  reflexivity.
Qed.

Lemma flatDone_params this0 n m dV dN dT dX s :
  flatDone this0 n m dV dN dT dX s ->
  sectorCount (f_this s) = sectorCount this0 /\ stackCount (f_this s) = stackCount this0.
Proof. by intros (-> & _). Qed.

Lemma flatTriangle_done this0 n m dV dN dT dX s v1 v2 v3 :
  flatDone this0 n m dV dN dT dX s ->
  (length dV + 9 <= Z.to_nat (3 * n))%nat ->
  (length dT + 6 <= Z.to_nat (2 * n))%nat ->
  (length dX + 3 <= Z.to_nat m)%nat ->
  flatDone this0 n m
    (dV ++ vertexPosition v1 ++ vertexPosition v2 ++ vertexPosition v3)
    (dN ++ faceNormal v1 v2 v3 ++ faceNormal v1 v2 v3 ++ faceNormal v1 v2 v3)
    (dT ++ vertexTexCoord v1 ++ vertexTexCoord v2 ++ vertexTexCoord v3)
    (dX ++ [f_index s; f_index s + 1; f_index s + 2])
    (flatTriangle v1 v2 v3 s).
Proof.
  intros (Hthis & Hii & HlN & Hjj & Hkk) HrV HrT HrX.
  split; [|by rewrite !length_app; cbn; lia].
  rewrite (flatTriangle_arrays this0 _ _ _ _ s v1 v2 v3 Hthis).
  rewrite Hii, Hjj, Hkk. apply arrays_eq.
  - rewrite ta_write_done by (simpl; lia).
    f_equal. f_equal. rewrite !length_app. simpl. lia.
  - rewrite <- HlN. rewrite ta_write_done by (simpl; lia).
    f_equal. f_equal. rewrite !length_app. simpl. lia.
  - rewrite ta_write_done by (simpl; lia).
    f_equal. f_equal. rewrite !length_app. simpl. lia.
  - replace (Z.of_nat (length dX)) with (Z.of_nat (length (to_uint16 <$> dX)))
      by (by rewrite length_fmap).
    rewrite ta_write_done by (rewrite length_fmap; simpl; lia).
    rewrite fmap_app. f_equal. f_equal. rewrite !length_app, !length_fmap. simpl. lia.
Qed.

Lemma flatQuad_done this0 n m dV dN dT dX s v1 v2 v3 v4 :
  flatDone this0 n m dV dN dT dX s ->
  (length dV + 12 <= Z.to_nat (3 * n))%nat ->
  (length dT + 8 <= Z.to_nat (2 * n))%nat ->
  (length dX + 6 <= Z.to_nat m)%nat ->
  flatDone this0 n m
    (dV ++ vertexPosition v1 ++ vertexPosition v2 ++ vertexPosition v3 ++ vertexPosition v4)
    (dN ++ faceNormal v1 v2 v3 ++ faceNormal v1 v2 v3 ++ faceNormal v1 v2 v3 ++
           [f32_zero; f32_zero; f32_zero])
    (dT ++ vertexTexCoord v1 ++ vertexTexCoord v2 ++ vertexTexCoord v3 ++ vertexTexCoord v4)
    (dX ++ [f_index s; f_index s + 1; f_index s + 2;
            f_index s + 2; f_index s + 1; f_index s + 3])
    (flatQuad v1 v2 v3 v4 s).
Proof.
  intros (Hthis & Hii & HlN & Hjj & Hkk) HrV HrT HrX.
  split; [|by rewrite !length_app; cbn; lia].
  rewrite (flatQuad_arrays this0 _ _ _ _ s v1 v2 v3 v4 Hthis).
  rewrite Hii, Hjj, Hkk. apply arrays_eq.
  - rewrite ta_write_done by (simpl; lia).
    f_equal. f_equal. rewrite ?length_app. simpl. lia.
  - rewrite <- HlN. rewrite ta_write_done by (simpl; lia).
    replace (Z.to_nat (3 * n) - length dN -
             length (faceNormal v1 v2 v3 ++ faceNormal v1 v2 v3 ++ faceNormal v1 v2 v3))%nat
      with (3 + (Z.to_nat (3 * n) - length
              (dN ++ faceNormal v1 v2 v3 ++ faceNormal v1 v2 v3 ++ faceNormal v1 v2 v3 ++
                     [f32_zero; f32_zero; f32_zero])))%nat
      by (rewrite !length_app; simpl; lia).
    rewrite replicate_add. cbn [replicate]. rewrite <- !app_assoc. reflexivity.
  - rewrite ta_write_done by (simpl; lia).
    f_equal. f_equal. rewrite ?length_app. simpl. lia.
  - replace (Z.of_nat (length dX)) with (Z.of_nat (length (to_uint16 <$> dX)))
      by (by rewrite length_fmap).
    rewrite ta_write_done by (rewrite length_fmap; simpl; lia).
    rewrite fmap_app. f_equal. f_equal. rewrite !length_app, !length_fmap. simpl. lia.
Qed.

Lemma list_bind_nil {A B} (f : A -> list B) : [] ≫= f = [].
Proof. reflexivity. Qed.

Lemma flatProgress_cell {A} sc (cell : Z -> Z -> list A) i j :
  0 <= j -> flatProgress sc cell i (j + 1) = flatProgress sc cell i j ++ cell i j.
Proof.
  intros Hj. unfold flatProgress. rewrite (seqZ_snoc 0 j) by done.
  by rewrite bind_app, bind_singleton, Z.add_0_l, app_assoc.
Qed.

Lemma flatProgress_row {A} sc (cell : Z -> Z -> list A) i :
  0 <= i -> flatProgress sc cell (i + 1) 0 = flatProgress sc cell i sc.
Proof.
  intros Hi. unfold flatProgress. rewrite (seqZ_snoc 0 i) by done.
  rewrite bind_app, bind_singleton, Z.add_0_l.
  rewrite (seqZ_nil 0 0) by lia. by rewrite list_bind_nil, app_nil_r.
Qed.

Lemma length_flatProgress {A} sc st (cell : Z -> Z -> list A) (c tot : Z -> Z) i j :
  0 <= sc ->
  (forall i' j', 0 <= i' < st -> Z.of_nat (length (cell i' j')) = c i') ->
  tot 0 = 0 ->
  (forall i', 0 <= i' < st -> tot (i' + 1) = tot i' + c i' * sc) ->
  0 <= i <= st -> 0 <= j -> i < st \/ j = 0 ->
  Z.of_nat (length (flatProgress sc cell i j)) = tot i + c i * j.
Proof.
  intros Hsc Hcell Htot0 Htot Hi Hj Hij.
  assert (Hrow : forall i' k, 0 <= i' < st -> 0 <= k ->
    Z.of_nat (length (seqZ 0 k ≫= cell i')) = c i' * k).
  { intros i' k Hi' Hk. pose proof (Hcell i' 0 Hi') as Hc.
    rewrite (length_bind_const _ _ (Z.to_nat (c i'))).
    - rewrite length_seqZ. nia.
    - intros x _. specialize (Hcell i' x Hi'). lia. }
  assert (Hrows : forall k : nat, Z.of_nat k <= st ->
    Z.of_nat (length (seqZ 0 (Z.of_nat k) ≫= fun i' => seqZ 0 sc ≫= cell i')) =
    tot (Z.of_nat k)).
  { induction k as [|k IH]; intros Hk;
      [change (Z.of_nat 0) with 0; by rewrite Htot0|].
    replace (Z.of_nat (S k)) with (Z.of_nat k + 1) by lia.
    rewrite (seqZ_snoc 0 (Z.of_nat k)) by lia.
    rewrite bind_app, bind_singleton, Z.add_0_l, length_app, Nat2Z.inj_add.
    rewrite IH, Hrow, Htot by lia. reflexivity. }
  unfold flatProgress. rewrite length_app, Nat2Z.inj_add.
  specialize (Hrows (Z.to_nat i)). rewrite Z2Nat.id in Hrows by lia.
  rewrite Hrows by lia. destruct Hij as [Hlt| ->].
  - by rewrite Hrow by lia.
  - rewrite (seqZ_nil 0 0) by lia. rewrite list_bind_nil. simpl. lia.
Qed.

Lemma flatProgress_split {A} sc st (cell : Z -> Z -> list A) i j :
  0 <= i < st -> 0 <= j < sc ->
  exists rest,
    (seqZ 0 st ≫= fun i' => seqZ 0 sc ≫= cell i') =
    flatProgress sc cell i j ++ cell i j ++ rest.
Proof.
  intros Hi Hj.
  exists ((seqZ (j + 1) (sc - j - 1) ≫= cell i) ++
          (seqZ (i + 1) (st - i - 1) ≫= fun i' => seqZ 0 sc ≫= cell i')).
  unfold flatProgress.
  replace st with (i + (st - i)) at 1 by lia.
  rewrite (seqZ_app 0 i (st - i)) by lia.
  rewrite (seqZ_cons (0 + i) (st - i)) by lia.
  rewrite bind_app, bind_cons, Z.add_0_l.
  replace (Z.succ i) with (i + 1) by lia. replace (Z.pred (st - i)) with (st - i - 1) by lia.
  replace sc with (j + (sc - j)) at 1 by lia.
  rewrite (seqZ_app 0 j (sc - j)) by lia.
  rewrite (seqZ_cons (0 + j) (sc - j)) by lia.
  rewrite bind_app, bind_cons, Z.add_0_l.
  replace (Z.succ j) with (j + 1) by lia. replace (Z.pred (sc - j)) with (sc - j - 1) by lia.
  by rewrite <- !app_assoc.
Qed.

Lemma flatFirstIndex_room sc st i j :
  0 <= sc -> 2 <= st -> 0 <= i < st -> 0 <= j < sc ->
  0 <= flatFirstIndex sc st i j /\
  flatFirstIndex sc st i j + (if isQuad st i then 4 else 3) <= flatIndexAt sc st st /\
  0 <= flatKkAt sc st i + (if isQuad st i then 6 else 3) * j /\
  flatKkAt sc st i + (if isQuad st i then 6 else 3) * j + (if isQuad st i then 6 else 3)
    <= flatKkAt sc st st.
Proof.
  intros Hsc Hst Hi Hj. unfold flatFirstIndex, flatIndexAt, flatKkAt, isQuad.
  repeat case_decide; nia.
Qed.

Lemma length_flatCell this i j :
  let c := if isQuad (stackCount this) i then 4 else 3 in
  Z.of_nat (length (flatCellPositions this i j)) = 3 * c /\
  Z.of_nat (length (flatCellNormals this i j)) = 3 * c /\
  Z.of_nat (length (flatCellTexCoords this i j)) = 2 * c /\
  Z.of_nat (length (flatCellIndices (sectorCount this) (stackCount this) i j)) =
    if isQuad (stackCount this) i then 6 else 3.
Proof.
  unfold flatCellPositions, flatCellNormals, flatCellTexCoords, flatCellIndices,
    flatCorners, isQuad.
  repeat case_decide; try lia; by repeat split.
Qed.

(** Length of what the loop has emitted at a sector. *)
Lemma length_flatAt this i j :
  0 <= sectorCount this -> 2 <= stackCount this ->
  0 <= i <= stackCount this -> 0 <= j -> i < stackCount this \/ j = 0 ->
  let sc := sectorCount this in
  let st := stackCount this in
  Z.of_nat (length (flatProgress sc (flatCellPositions this) i j)) =
    3 * flatFirstIndex sc st i j /\
  Z.of_nat (length (flatProgress sc (flatCellNormals this) i j)) =
    3 * flatFirstIndex sc st i j /\
  Z.of_nat (length (flatProgress sc (flatCellTexCoords this) i j)) =
    2 * flatFirstIndex sc st i j /\
  Z.of_nat (length (flatProgress sc (flatCellIndices sc st) i j)) =
    flatKkAt sc st i + (if isQuad st i then 6 else 3) * j.
Proof.
  intros Hsc Hst Hi Hj Hij sc st.
  assert (Hidx : forall i', 0 <= i' < st ->
    flatIndexAt sc st (i' + 1) =
    flatIndexAt sc st i' + (if isQuad st i' then 4 else 3) * sc).
  { intros i' Hi'. rewrite flatIndexAt_succ by done. unfold isQuad.
    repeat case_decide; lia. }
  assert (Hkk : forall i', 0 <= i' < st ->
    flatKkAt sc st (i' + 1) = flatKkAt sc st i' + (if isQuad st i' then 6 else 3) * sc).
  { intros i' Hi'. rewrite flatKkAt_succ by done. unfold isQuad.
    repeat case_decide; lia. }
  assert (H0 : flatIndexAt sc st 0 = 0 /\ flatKkAt sc st 0 = 0).
  { unfold flatIndexAt, flatKkAt. rewrite !decide_False by lia. lia. }
  unfold flatFirstIndex. repeat split.
  - rewrite (length_flatProgress sc st _ (fun i => 3 * (if isQuad st i then 4 else 3))
               (fun i => 3 * flatIndexAt sc st i)); [lia|done| |lia| |done..].
    + intros i' j' _. apply (length_flatCell this i' j').
    + intros i' Hi'. rewrite Hidx by done. lia.
  - rewrite (length_flatProgress sc st _ (fun i => 3 * (if isQuad st i then 4 else 3))
               (fun i => 3 * flatIndexAt sc st i)); [lia|done| |lia| |done..].
    + intros i' j' _. apply (length_flatCell this i' j').
    + intros i' Hi'. rewrite Hidx by done. lia.
  - rewrite (length_flatProgress sc st _ (fun i => 2 * (if isQuad st i then 4 else 3))
               (fun i => 2 * flatIndexAt sc st i)); [lia|done| |lia| |done..].
    + intros i' j' _. apply (length_flatCell this i' j').
    + intros i' Hi'. rewrite Hidx by done. lia.
  - rewrite (length_flatProgress sc st _ (fun i => if isQuad st i then 6 else 3)
               (fun i => flatKkAt sc st i)); [lia|done| |lia| |done..].
    + intros i' j' _. apply (length_flatCell this i' j').
    + intros i' Hi'. by rewrite Hkk.
Qed.

(** One sector of the triangle loop stores what [flatCellPositions] and
    the like describe. *)
Lemma flatCellStep_done this i j s :
  0 <= sectorCount this -> 2 <= stackCount this ->
  0 <= i < stackCount this -> 0 <= j < sectorCount this ->
  flatAt this i j s ->
  f_vi1 s = i * (sectorCount this + 1) + j ->
  f_vi2 s = (i + 1) * (sectorCount this + 1) + j ->
  exists s',
    flatCellStep (flatTmpVertices this) i j s = Return s' /\
    flatAt this i (j + 1) s' /\
    f_vi1 s' = f_vi1 s + 1 /\ f_vi2 s' = f_vi2 s + 1.
Proof.
  intros Hsc Hst Hi Hj (Hdone & Hindex) Hvi1 Hvi2.
  destruct (flatDone_params _ _ _ _ _ _ _ _ Hdone) as (_ & Hst').
  destruct (length_flatAt this i j) as (HlV & HlN & HlT & HlX); [lia..|].
  destruct (flatFirstIndex_room (sectorCount this) (stackCount this) i j)
    as (Hlo & Hhi & Hklo & Hkhi); [lia..|].
  unfold flatCellStep. rewrite Hst', Hvi1, Hvi2.
  replace (i * (sectorCount this + 1) + j + 1)
    with (i * (sectorCount this + 1) + (j + 1)) by lia.
  replace ((i + 1) * (sectorCount this + 1) + j + 1)
    with ((i + 1) * (sectorCount this + 1) + (j + 1)) by lia.
  rewrite !flatTmpVertices_lookup by lia.
  cbn [deref mbind Js_bind mret Js_ret].
  unfold flatAt. rewrite !flatProgress_cell by lia.
  unfold isQuad in Hhi, Hkhi, HlX.
  unfold flatCellPositions, flatCellNormals, flatCellTexCoords, flatCellIndices,
    flatCorners, isQuad.
  cbv zeta. rewrite <- !Hindex.
  destruct (decide (i = 0)) as [Hi0|Hi0].
  - rewrite (decide_True (P := i = 0 \/ _)) in Hhi, Hkhi, HlX |- * by lia.
    eexists. split; [reflexivity|]. cbn [f_vi1 f_vi2 f_index flatTriangle].
    split; [|lia]. split; [|rewrite Hindex; unfold flatFirstIndex, isQuad;
                            rewrite decide_True by lia; lia].
    cbn [mbind list_bind]. rewrite !app_nil_r.
    apply (flatTriangle_done this _ _ _ _ _ _ s _ _ _ Hdone); lia.
  - destruct (decide (i = stackCount this - 1)) as [Hi1|Hi1].
    + rewrite (decide_True (P := i = 0 \/ _)) in Hhi, Hkhi, HlX |- * by lia.
      eexists. split; [reflexivity|]. cbn [f_vi1 f_vi2 f_index flatTriangle].
      split; [|lia]. split; [|rewrite Hindex; unfold flatFirstIndex, isQuad;
                              rewrite decide_True by lia; lia].
      cbn [mbind list_bind]. rewrite !app_nil_r.
      apply (flatTriangle_done this _ _ _ _ _ _ s _ _ _ Hdone); lia.
    + rewrite (decide_False (P := i = 0 \/ _)) in Hhi, Hkhi, HlX |- * by lia.
      eexists. split; [reflexivity|]. cbn [f_vi1 f_vi2 f_index flatQuad].
      split; [|lia]. split; [|rewrite Hindex; unfold flatFirstIndex, isQuad;
                              rewrite decide_False by lia; lia].
      cbn [mbind list_bind]. rewrite !app_nil_r.
      apply (flatQuad_done this _ _ _ _ _ _ s _ _ _ _ Hdone); lia.
Qed.

Lemma flatRow_done this i s :
  0 <= sectorCount this -> 2 <= stackCount this -> 0 <= i < stackCount this ->
  flatAt this i 0 s ->
  exists s', flatRow (flatTmpVertices this) i s = Return s' /\ flatAt this (i + 1) 0 s'.
Proof.
  intros Hsc Hst Hi Hat.
  destruct (flatDone_params _ _ _ _ _ _ _ _ (proj1 Hat)) as (Hsc' & _).
  unfold flatRow. rewrite Hsc'.
  destruct (for_rangeM_ind (fun j s' =>
      flatAt this i j s' /\
      f_vi1 s' = i * (sectorCount this + 1) + j /\
      f_vi2 s' = (i + 1) * (sectorCount this + 1) + j)
    0 (sectorCount this) (flatCellStep (flatTmpVertices this) i)
    {| f_this := f_this s; f_ii := f_ii s; f_jj := f_jj s; f_kk := f_kk s;
       f_index := f_index s; f_vi1 := i * (sectorCount this + 1);
       f_vi2 := (i + 1) * (sectorCount this + 1) |})
    as (s' & Hrun & Hs' & _); [done| | |].
  - cbn [f_vi1 f_vi2]. split; [exact Hat|lia].
  - intros j s1 Hj (Hat1 & Hvi1 & Hvi2).
    destruct (flatCellStep_done this i j s1) as (s2 & Hstep & Hat2 & Hvi1' & Hvi2');
      [done..|lia|done|done|done|].
    exists s2. split; [done|]. split; [done|lia].
  - exists s'. split; [done|].
    destruct Hs' as (Hdone & Hindex). split.
    + rewrite !flatProgress_row by lia. exact Hdone.
    + rewrite Hindex. unfold flatFirstIndex. rewrite flatIndexAt_succ by done.
      unfold isQuad. repeat case_decide; lia.
Qed.

(** The triangle loop returns with the four arrays filled as specified. *)
Lemma flatTriangleLoop_done this this0 :
  0 <= sectorCount this -> 2 <= stackCount this ->
  let n := 6 * sectorCount this + 4 * sectorCount this * (stackCount this - 2) in
  let m := 6 * sectorCount this * (stackCount this - 1) in
  this0 = arrays (replicate (Z.to_nat (3 * n)) f32_zero)
                 (replicate (Z.to_nat (3 * n)) f32_zero)
                 (replicate (Z.to_nat (2 * n)) f32_zero)
                 (replicate (Z.to_nat m) 0) this ->
  exists s',
    flatTriangleLoop (flatTmpVertices this) this0 = Return s' /\
    f_this s' = arrays (flatPositionsSpec this) (flatNormalsSpec this)
                       (flatTexCoordsSpec this)
                       (to_uint16 <$> flatIndicesSpec (sectorCount this) (stackCount this))
                       this.
Proof.
  intros Hsc Hst n m ->. unfold flatTriangleLoop.
  change (stackCount (arrays _ _ _ _ this)) with (stackCount this).
  destruct (for_rangeM_ind (fun i s => flatAt this i 0 s) 0 (stackCount this)
              (flatRow (flatTmpVertices this))
              {| f_this := arrays (replicate (Z.to_nat (3 * n)) f32_zero)
                                  (replicate (Z.to_nat (3 * n)) f32_zero)
                                  (replicate (Z.to_nat (2 * n)) f32_zero)
                                  (replicate (Z.to_nat m) 0) this;
                 f_ii := 0; f_jj := 0; f_kk := 0; f_index := 0;
                 f_vi1 := 0; f_vi2 := 0 |})
    as (s' & Hrun & ((Hthis & _) & _)); [lia| | |].
  - split.
    + unfold flatDone. cbn [f_this f_ii f_jj f_kk].
      rewrite flatIndexAt_last, flatKkAt_last by done. fold n m.
      unfold flatProgress. rewrite (seqZ_nil 0 0) by lia. rewrite !list_bind_nil.
      cbn [length app fmap list_fmap]. by rewrite !Nat.sub_0_r.
    + cbn [f_index]. unfold flatFirstIndex, flatIndexAt.
      rewrite !decide_False by lia. lia.
  - intros i s Hi Hat. by apply flatRow_done.
  - exists s'. split; [done|]. rewrite Hthis.
    destruct (length_flatAt this (stackCount this) 0) as (HlV & HlN & HlT & HlX);
      [lia..|by right|].
    unfold flatFirstIndex in HlV, HlN, HlT. rewrite Z.mul_0_r, Z.add_0_r in *.
    unfold flatProgress in *. rewrite (seqZ_nil 0 0) in * by lia.
    rewrite !list_bind_nil, !app_nil_r in *.
    apply arrays_eq.
    + replace (_ - _)%nat with 0%nat by lia. apply app_nil_r.
    + replace (_ - _)%nat with 0%nat by lia. apply app_nil_r.
    + replace (_ - _)%nat with 0%nat by lia. apply app_nil_r.
    + replace (_ - _)%nat with 0%nat by lia. apply app_nil_r.
Qed.

Lemma flatProgress_all {A} sc (cell : Z -> Z -> list A) st :
  flatProgress sc cell st 0 = seqZ 0 st ≫= fun i => seqZ 0 sc ≫= cell i.
Proof.
  unfold flatProgress. rewrite (seqZ_nil 0 0) by lia.
  by rewrite list_bind_nil, app_nil_r.
Qed.

Lemma length_flatSpec this :
  0 <= sectorCount this -> 2 <= stackCount this ->
  let n := 6 * sectorCount this + 4 * sectorCount this * (stackCount this - 2) in
  Z.of_nat (length (flatPositionsSpec this)) = 3 * n /\
  Z.of_nat (length (flatNormalsSpec this)) = 3 * n /\
  Z.of_nat (length (flatTexCoordsSpec this)) = 2 * n.
Proof.
  intros Hsc Hst n.
  destruct (length_flatAt this (stackCount this) 0) as (HlV & HlN & HlT & _);
    [lia..|by right|].
  rewrite !flatProgress_all in *.
  unfold flatFirstIndex in *. rewrite flatIndexAt_last in * by done.
  fold n in HlV, HlN, HlT. rewrite Z.mul_0_r, Z.add_0_r in *. done.
Qed.

(** The flat build hands to [buildVbos] the mesh whose arrays are the
    specified lists. *)
Lemma buildVerticesFlat_mesh this :
  0 <= sectorCount this -> 2 <= stackCount this ->
  let n := 6 * sectorCount this + 4 * sectorCount this * (stackCount this - 2) in
  exists I,
    buildVerticesFlat this =
    buildVbos
      (with_interleavedVertices I
        (arrays (flatPositionsSpec this) (flatNormalsSpec this) (flatTexCoordsSpec this)
                (to_uint16 <$> flatIndicesSpec (sectorCount this) (stackCount this))
                this)) /\
    Z.of_nat (length I) = 8 * n /\
    interleaves (flatPositionsSpec this) (flatNormalsSpec this) (flatTexCoordsSpec this) I n.
Proof.
  intros Hsc Hst. unfold buildVerticesFlat, resizeArraysFlat, clearArrays.
  set (n := 6 * sectorCount this + 4 * sectorCount this * (stackCount this - 2)).
  set (m := 6 * sectorCount this * (stackCount this - 1)).
  assert (Hn : 0 <= n) by (unfold n; nia).
  assert (Hm : 0 <= m) by (unfold m; nia).
  rewrite !newTypedArray_nonneg by lia. cbn [mbind Js_bind mret Js_ret].
  destruct (flatTriangleLoop_done this _ Hsc Hst eq_refl) as (s & Hrun & Hs).
  unfold arrays in Hrun. fold n m in Hrun. rewrite Hrun.
  cbn [mbind Js_bind]. rewrite Hs.
  destruct (length_flatSpec this Hsc Hst) as (HlV & HlN & HlT). fold n in HlV, HlN, HlT.
  destruct (buildInterleavedVertices_spec
              (arrays (flatPositionsSpec this) (flatNormalsSpec this)
                      (flatTexCoordsSpec this)
                      (to_uint16 <$> flatIndicesSpec (sectorCount this) (stackCount this))
                      this) n) as (I & -> & HlI & HI); [done..|].
  cbn [mbind Js_bind]. by exists I.
Qed.

Lemma buildVerticesFlat_content this g :
  gl this = Some g -> 0 <= sectorCount this -> 2 <= stackCount this ->
  let n := 6 * sectorCount this + 4 * sectorCount this * (stackCount this - 2) in
  exists I,
    let mesh :=
      with_interleavedVertices I
        (arrays (flatPositionsSpec this) (flatNormalsSpec this) (flatTexCoordsSpec this)
                (to_uint16 <$> flatIndicesSpec (sectorCount this) (stackCount this))
                this) in
    buildVerticesFlat this = Return (with_gl (Some (uploaded g mesh)) mesh) /\
    Z.of_nat (length I) = 8 * n /\
    interleaves (flatPositionsSpec this) (flatNormalsSpec this) (flatTexCoordsSpec this) I n.
Proof.
  intros Hg Hsc Hst n.
  destruct (buildVerticesFlat_mesh this Hsc Hst) as (I & -> & HlI & HI).
  exists I. split; [|done]. by apply buildVbos_Return.
Qed.

Lemma set_flat_content this g r se st :
  gl this = Some g ->
  exists s',
    set r se st false this = Return s' /\
    radius s' = r /\ sectorCount s' = Z.max 3 se /\ stackCount s' = Z.max 2 st /\
    vertices s' = flatPositionsSpec s' /\
    normals s' = flatNormalsSpec s' /\
    texCoords s' = flatTexCoordsSpec s' /\
    indices s' = to_uint16 <$> flatIndicesSpec (sectorCount s') (stackCount s') /\
    let n := 6 * sectorCount s' + 4 * sectorCount s' * (stackCount s' - 2) in
    Z.of_nat (length (interleavedVertices s')) = 8 * n /\
    interleaves (vertices s') (normals s') (texCoords s') (interleavedVertices s') n.
Proof.
  intros Hg. rewrite set_unfold.
  destruct (buildVerticesFlat_content (shaped r se st false this) g) as (I & -> & HlI & HI);
    [done|cbn [shaped sectorCount stackCount with_smooth with_stackCount with_sectorCount];
          lia..|].
  eexists. split; [reflexivity|]. do 7 (split; [reflexivity|]). split; [exact HlI|exact HI].
Qed.

Lemma flatSpec_ext this1 this2 :
  radius this1 = radius this2 -> sectorCount this1 = sectorCount this2 ->
  stackCount this1 = stackCount this2 ->
  flatPositionsSpec this1 = flatPositionsSpec this2 /\
  flatNormalsSpec this1 = flatNormalsSpec this2 /\
  flatTexCoordsSpec this1 = flatTexCoordsSpec this2.
Proof.
  intros Hr Hsc Hst.
  unfold flatPositionsSpec, flatNormalsSpec, flatTexCoordsSpec, flatCellPositions,
    flatCellNormals, flatCellTexCoords, flatCorners, gridVertex, smoothPosition,
    smoothTexCoord.
  by rewrite Hr, Hsc, Hst.
Qed.

End FlatContent.

Lemma slice3_app_mid {A} (d l rest : list A) (k p : Z) x :
  Z.of_nat (length d) = 3 * k -> 0 <= k -> 0 <= p ->
  slice3 l p = x -> length x = 3%nat ->
  slice3 (d ++ l ++ rest) (k + p) = x.
Proof.
  intros Hd Hk Hp Hx Hlen. unfold slice3 in *.
  rewrite drop_app_ge by lia.
  replace (Z.to_nat (3 * (k + p)) - length d)%nat with (Z.to_nat (3 * p)) by lia.
  rewrite drop_app, take_app, Hx.
  assert (3 <= length (drop (Z.to_nat (3 * p)) l))%nat as Hge.
  { rewrite <- Hx in Hlen. rewrite length_take in Hlen. lia. }
  replace (3 - length (drop (Z.to_nat (3 * p)) l))%nat with 0%nat by lia.
  by rewrite take_0, app_nil_r.
Qed.

Lemma slice2_app_mid {A} (d l rest : list A) (k p : Z) x :
  Z.of_nat (length d) = 2 * k -> 0 <= k -> 0 <= p ->
  slice2 l p = x -> length x = 2%nat ->
  slice2 (d ++ l ++ rest) (k + p) = x.
Proof.
  intros Hd Hk Hp Hx Hlen. unfold slice2 in *.
  rewrite drop_app_ge by lia.
  replace (Z.to_nat (2 * (k + p)) - length d)%nat with (Z.to_nat (2 * p)) by lia.
  rewrite drop_app, take_app, Hx.
  assert (2 <= length (drop (Z.to_nat (2 * p)) l))%nat as Hge.
  { rewrite <- Hx in Hlen. rewrite length_take in Hlen. lia. }
  replace (2 - length (drop (Z.to_nat (2 * p)) l))%nat with 0%nat by lia.
  by rewrite take_0, app_nil_r.
Qed.

Lemma slice3_bind {A B} (f : B -> list A) (l : list B) (p : nat) v :
  (forall x, length (f x) = 3%nat) -> l !! p = Some v ->
  slice3 (l ≫= f) (Z.of_nat p) = f v.
Proof.
  intros Hf. revert p. induction l as [|x l IH]; intros p Hp; [done|].
  rewrite bind_cons. destruct p as [|p].
  - injection Hp as ->. unfold slice3. change (Z.to_nat (3 * Z.of_nat 0)) with 0%nat.
    rewrite drop_0. by apply take_app_length'.
  - replace (Z.of_nat (S p)) with (1 + Z.of_nat p) by lia.
    rewrite <- (app_nil_r (l ≫= f)).
    apply slice3_app_mid; [rewrite Hf; lia|lia|lia| |apply Hf].
    by apply IH.
Qed.

Lemma slice2_bind {A B} (f : B -> list A) (l : list B) (p : nat) v :
  (forall x, length (f x) = 2%nat) -> l !! p = Some v ->
  slice2 (l ≫= f) (Z.of_nat p) = f v.
Proof.
  intros Hf. revert p. induction l as [|x l IH]; intros p Hp; [done|].
  rewrite bind_cons. destruct p as [|p].
  - injection Hp as ->. unfold slice2. change (Z.to_nat (2 * Z.of_nat 0)) with 0%nat.
    rewrite drop_0. by apply take_app_length'.
  - replace (Z.of_nat (S p)) with (1 + Z.of_nat p) by lia.
    rewrite <- (app_nil_r (l ≫= f)).
    apply slice2_app_mid; [rewrite Hf; lia|lia|lia| |apply Hf].
    by apply IH.
Qed.

Section FlatMesh.
Context {F F32 : Type} {num : JsNumber F F32}.
Implicit Types this : Sphere F F32.

(** X11. With a context at hand, [set] in flat mode returns, and the
    four arrays hold the sectors one after the other, stack by stack: for
    each sector the positions and the texture coordinates of its three
    (first and last stack) or four corners, the face normal for the first
    three of them, and the index values of its one or two triangles
    reduced modulo 65536. *)
Theorem flat_arrays_content this g r se st :
  gl this = Some g ->
  exists s',
    set r se st false this = Return s' /\
    vertices s' = flatPositionsSpec s' /\
    normals s' = flatNormalsSpec s' /\
    texCoords s' = flatTexCoordsSpec s' /\
    indices s' = to_uint16 <$> flatIndicesSpec (sectorCount s') (stackCount s').
Proof.
  intros Hg.
  destruct (set_flat_content this g r se st Hg)
    as (s' & Hset & _ & _ & _ & HV & HN & HT & HX & _).
  by exists s'.
Qed.

(** X12. In the flat mesh the three first vertices of a sector carry the
    face normal of the sector; the fourth vertex of a sector between the
    first and the last stack keeps the zero normal of the allocation:
    [addNormal] is called three times for its four vertices. *)
Theorem flat_normals_per_sector this g r se st :
  gl this = Some g ->
  exists s',
    set r se st false this = Return s' /\
    forall i j, 0 <= i < stackCount s' -> 0 <= j < sectorCount s' ->
      let k := flatFirstIndex (sectorCount s') (stackCount s') i j in
      let v1 := gridVertex s' i j in
      let v2 := gridVertex s' (i + 1) j in
      let v3 := if decide (i = 0) then gridVertex s' (i + 1) (j + 1)
                else gridVertex s' i (j + 1) in
      slice3 (normals s') k = faceNormal v1 v2 v3 /\
      slice3 (normals s') (k + 1) = faceNormal v1 v2 v3 /\
      slice3 (normals s') (k + 2) = faceNormal v1 v2 v3 /\
      (0 < i < stackCount s' - 1 ->
       slice3 (normals s') (k + 3) = [f32_zero; f32_zero; f32_zero]).
Proof.
  intros Hg.
  destruct (set_flat_content this g r se st Hg)
    as (s' & Hset & _ & Hsc & Hst & _ & HN & _).
  exists s'. split; [done|]. intros i j Hi Hj k v1 v2 v3.
  destruct (length_flatAt s' i j) as (_ & Hlen & _); [lia..|].
  destruct (flatFirstIndex_room (sectorCount s') (stackCount s') i j) as (Hk & _); [lia..|].
  fold k in Hlen, Hk.
  destruct (flatProgress_split (sectorCount s') (stackCount s') (flatCellNormals s') i j)
    as (rest & Hsplit); [done..|].
  rewrite HN.
  change (flatNormalsSpec s')
    with (seqZ 0 (stackCount s') ≫= fun i' => seqZ 0 (sectorCount s') ≫= flatCellNormals s' i').
  rewrite Hsplit.
  rewrite <- (Z.add_0_r k) at 1.
  assert (Hcell : exists tl, flatCellNormals s' i j =
            faceNormal v1 v2 v3 ++ faceNormal v1 v2 v3 ++ faceNormal v1 v2 v3 ++ tl /\
            (0 < i < stackCount s' - 1 -> tl = [f32_zero; f32_zero; f32_zero])).
  { unfold flatCellNormals, flatCorners, v3.
    destruct (decide (i = 0)); [|destruct (decide (i = stackCount s' - 1))];
      eexists; (split; [reflexivity|]); intros ?; first [lia|reflexivity]. }
  destruct Hcell as (tl & -> & Htl).
  repeat split.
  - by apply slice3_app_mid.
  - by apply slice3_app_mid.
  - by apply slice3_app_mid.
  - intros Hmid. rewrite (Htl Hmid). by apply slice3_app_mid.
Qed.

Lemma flat_corner_stored this g r se st :
  gl this = Some g ->
  exists s',
    set r se st false this = Return s' /\
    radius s' = r /\ sectorCount s' = Z.max 3 se /\ stackCount s' = Z.max 2 st /\
    forall i j (p : nat) v,
      0 <= i < stackCount s' -> 0 <= j < sectorCount s' ->
      flatCorners s' i j !! p = Some v ->
      let k := flatFirstIndex (sectorCount s') (stackCount s') i j + Z.of_nat p in
      slice3 (vertices s') k = vertexPosition v /\
      slice2 (texCoords s') k = vertexTexCoord v.
Proof.
  intros Hg.
  destruct (set_flat_content this g r se st Hg)
    as (s' & Hset & Hr & Hsc & Hst & HV & _ & HT & _).
  exists s'. do 4 (split; [done|]). intros i j p v Hi Hj Hp k.
  destruct (length_flatAt s' i j) as (HlV & _ & HlT & _); [lia..|].
  destruct (flatFirstIndex_room (sectorCount s') (stackCount s') i j) as (Hk & _); [lia..|].
  destruct (flatProgress_split (sectorCount s') (stackCount s') (flatCellPositions s') i j)
    as (restV & HsplitV); [done..|].
  destruct (flatProgress_split (sectorCount s') (stackCount s') (flatCellTexCoords s') i j)
    as (restT & HsplitT); [done..|].
  split.
  - rewrite HV.
    change (flatPositionsSpec s')
      with (seqZ 0 (stackCount s') ≫=
              fun i' => seqZ 0 (sectorCount s') ≫= flatCellPositions s' i').
    rewrite HsplitV. apply slice3_app_mid; [done|lia|lia| |done].
    by apply slice3_bind.
  - rewrite HT.
    change (flatTexCoordsSpec s')
      with (seqZ 0 (stackCount s') ≫=
              fun i' => seqZ 0 (sectorCount s') ≫= flatCellTexCoords s' i').
    rewrite HsplitT. apply slice2_app_mid; [done|lia|lia| |done].
    by apply slice2_bind.
Qed.

(** X13. In the flat mesh the vertices of a sector are its corners, each
    sector having vertices of its own: the vertex whose number is the
    first of the sector plus [p] stores the position and the texture
    coordinates of the corner [p] of the sector. *)
Theorem flat_vertices_per_corner this g r se st :
  gl this = Some g ->
  exists s',
    set r se st false this = Return s' /\
    forall i j (p : nat) v,
      0 <= i < stackCount s' -> 0 <= j < sectorCount s' ->
      flatCorners s' i j !! p = Some v ->
      let k := flatFirstIndex (sectorCount s') (stackCount s') i j + Z.of_nat p in
      slice3 (vertices s') k = vertexPosition v /\
      slice2 (texCoords s') k = vertexTexCoord v.
Proof.
  intros Hg.
  destruct (flat_corner_stored this g r se st Hg) as (s' & Hset & _ & _ & _ & H).
  by exists s'.
Qed.

(** X23. The two builders agree on the grid: for the same arguments,
    the corners of a sector of the flat mesh store the positions and the
    texture coordinates the smooth mesh stores for the grid points
    (i,j), (i+1,j), (i,j+1) and (i+1,j+1), each corner in a vertex of its
    own. *)
Theorem flat_corners_from_smooth_grid this g r se st :
  gl this = Some g ->
  exists sf ss,
    set r se st false this = Return sf /\ set r se st true this = Return ss /\
    sectorCount sf = sectorCount ss /\ stackCount sf = stackCount ss /\
    forall i j (p : nat) i' j',
      0 <= i < stackCount ss -> 0 <= j < sectorCount ss ->
      flatCorners sf i j !! p = Some (gridVertex sf i' j') ->
      0 <= i' <= stackCount ss -> 0 <= j' <= sectorCount ss ->
      let k := flatFirstIndex (sectorCount ss) (stackCount ss) i j + Z.of_nat p in
      let v := i' * (sectorCount ss + 1) + j' in
      slice3 (vertices sf) k = slice3 (vertices ss) v /\
      slice2 (texCoords sf) k = slice2 (texCoords ss) v.
Proof.
  intros Hg.
  destruct (flat_corner_stored this g r se st Hg) as (sf & Hsetf & Hrf & Hscf & Hstf & Hf).
  destruct (smooth_grid_stored this g r se st Hg) as (ss & Hsets & Hrs & Hscs & Hsts & Hs).
  exists sf, ss. do 2 (split; [done|]). split; [congruence|]. split; [congruence|].
  assert (Hsc : sectorCount ss = sectorCount sf) by congruence.
  assert (Hst : stackCount ss = stackCount sf) by congruence.
  intros i j p i' j' Hi Hj Hp Hi' Hj' k v.
  destruct (Hs i' j' Hi' Hj') as (HV' & _ & HT').
  unfold k, v. rewrite Hsc, Hst in *.
  destruct (Hf i j p _ Hi Hj Hp) as (HV & HT).
  rewrite HV, HT, HV', HT'.
  unfold vertexPosition, vertexTexCoord, gridVertex, smoothPosition, smoothTexCoord.
  cbn [vx vy vz vs vt]. by rewrite Hrf, Hrs, Hsc, Hst.
Qed.

End FlatMesh.

(** ** Without a context; building again *)

Lemma list_eq_chunks {A} (c : nat) (l l' : list A) (n : Z) :
  (0 < c)%nat ->
  Z.of_nat (length l) = Z.of_nat c * n -> Z.of_nat (length l') = Z.of_nat c * n ->
  (forall v, 0 <= v < n ->
     take c (drop (Z.to_nat (Z.of_nat c * v)) l) =
     take c (drop (Z.to_nat (Z.of_nat c * v)) l')) ->
  l = l'.
Proof.
  intros Hc Hl Hl' Hchunks. apply list_eq. intros q.
  destruct (decide (q < length l)%nat) as [Hq|Hq].
  - pose proof (Nat.div_mod_eq q c) as Hdiv.
    pose proof (Nat.mod_upper_bound q c ltac:(lia)) as Hmod.
    assert (Hv : 0 <= Z.of_nat (q `div` c)%nat < n) by nia.
    specialize (Hchunks _ Hv).
    apply (f_equal (fun x => x !! (q `mod` c)%nat)) in Hchunks.
    rewrite !lookup_take_lt, !lookup_drop in Hchunks by done.
    replace (Z.to_nat (Z.of_nat c * Z.of_nat (q `div` c)%nat) + q `mod` c)%nat
      with q in Hchunks by nia.
    done.
  - rewrite !(proj2 (lookup_ge_None _ _)) by lia. done.
Qed.

Section Rebuild.
Context {F F32 : Type} {num : JsNumber F F32}.
Implicit Types this : Sphere F F32.

(** The smooth build hands a mesh to [buildVbos]; the context is not
    used before. *)
Lemma buildVerticesSmooth_mesh this :
  0 <= sectorCount this -> 2 <= stackCount this ->
  exists mesh, buildVerticesSmooth this = buildVbos mesh /\ gl mesh = gl this.
Proof.
  intros Hsc Hst. unfold buildVerticesSmooth, resizeArraysSmooth, clearArrays.
  set (n := (sectorCount this + 1) * (stackCount this + 1)).
  assert (Hn : 0 <= n) by (unfold n; nia).
  assert (Hm : 0 <= 6 * sectorCount this * (stackCount this - 1)) by nia.
  rewrite !newTypedArray_nonneg by lia. cbn [mbind Js_bind mret Js_ret].
  set (this0 := with_indices _ _).
  destruct (smoothVertexLoop_filled this0) as (V & N & T & HV & HlV & HlN & HlT & _).
  1-5: unfold this0; cbn [sectorCount stackCount vertices normals texCoords
         with_indices with_texCoords with_normals with_vertices];
       rewrite ?length_replicate; fold n; lia.
  rewrite HV. clear HV.
  rewrite smoothIndexLoop_emitted by exact Hsc || (unfold this0; cbn; lia).
  unfold emitted. cbn [fst snd].
  change (length (vertices this0))
    with (length (replicate (Z.to_nat (3 * n)) (f32_zero (F := F)))) in HlV.
  change (length (normals this0))
    with (length (replicate (Z.to_nat (3 * n)) (f32_zero (F := F)))) in HlN.
  change (length (texCoords this0))
    with (length (replicate (Z.to_nat (2 * n)) (f32_zero (F := F)))) in HlT.
  rewrite length_replicate in HlV, HlN, HlT.
  set (this3 := with_indices _ _).
  destruct (buildInterleavedVertices_spec this3 n) as (I & -> & _);
    [done|unfold this3; cbn [vertices normals texCoords with_indices with_texCoords
                             with_normals with_vertices]; lia..|].
  cbn [mbind Js_bind]. eexists. split; reflexivity.
Qed.

Lemma set_without_context this r se st sm :
  gl this = None -> set r se st sm this = Throw TypeError.
Proof.
  intros Hg. rewrite set_unfold. destruct sm.
  - destruct (buildVerticesSmooth_mesh (shaped r se st true this)) as (mesh & -> & Hmesh);
      [cbn [shaped sectorCount stackCount with_smooth with_stackCount with_sectorCount];
       lia..|].
    unfold buildVbos. rewrite Hmesh. cbn [shaped gl with_smooth with_stackCount
      with_sectorCount with_radius]. by rewrite Hg.
  - destruct (buildVerticesFlat_mesh (shaped r se st false this)) as (I & -> & _);
      [cbn [shaped sectorCount stackCount with_smooth with_stackCount with_sectorCount];
       lia..|].
    unfold buildVbos, arrays. cbn [shaped gl with_smooth with_stackCount
      with_sectorCount with_radius with_interleavedVertices with_indices with_texCoords
      with_normals with_vertices]. by rewrite Hg.
Qed.


Lemma smoothBuilt_arrays this1 this2 g1 g2 s1 s2 :
  radius this1 = radius this2 -> sectorCount this1 = sectorCount this2 ->
  stackCount this1 = stackCount this2 ->
  0 <= sectorCount this1 -> 0 <= stackCount this1 ->
  smoothBuilt this1 g1 s1 -> smoothBuilt this2 g2 s2 ->
  vertices s1 = vertices s2 /\ normals s1 = normals s2 /\
  texCoords s1 = texCoords s2 /\ indices s1 = indices s2 /\
  interleavedVertices s1 = interleavedVertices s2.
Proof.
  intros Hr Hsc Hst Hsc0 Hst0
    (V1 & N1 & T1 & I1 & -> & HlV1 & HlN1 & HlT1 & HlI1 & Hc1 & HI1)
    (V2 & N2 & T2 & I2 & -> & HlV2 & HlN2 & HlT2 & HlI2 & Hc2 & HI2).
  cbn [vertices normals texCoords indices interleavedVertices with_gl
       with_interleavedVertices with_indices with_texCoords with_normals with_vertices].
  rewrite <- Hsc, <- Hst in *.
  set (n := (sectorCount this1 + 1) * (stackCount this1 + 1)) in *.
  assert (Hgrid : forall v, 0 <= v < n ->
    slice3 V1 v = slice3 V2 v /\ slice3 N1 v = slice3 N2 v /\ slice2 T1 v = slice2 T2 v).
  { intros v Hv.
    set (i := v / (sectorCount this1 + 1)). set (j := v mod (sectorCount this1 + 1)).
    assert (Hvij : v = i * (sectorCount this1 + 1) + j)
      by (unfold i, j; rewrite Z.mul_comm; apply Z.div_mod; lia).
    assert (Hj : 0 <= j < sectorCount this1 + 1) by (apply Z.mod_pos_bound; lia).
    assert (Hi : 0 <= i <= stackCount this1).
    { split; [apply Z.div_pos; lia|]. unfold n in Hv. nia. }
    destruct (Hc1 i j) as (HV1 & HN1 & HT1); [lia..|].
    destruct (Hc2 i j) as (HV2 & HN2 & HT2); [lia..|].
    rewrite Hvij, HV1, HN1, HT1, HV2, HN2, HT2.
    unfold smoothPosition, smoothNormal, smoothTexCoord, smoothPosition.
    by rewrite <- Hr, <- Hsc, <- Hst. }
  assert (HV : V1 = V2).
  { apply (list_eq_chunks 3 V1 V2 n); [lia|done..|]. intros v Hv. apply (Hgrid v Hv). }
  assert (HN : N1 = N2).
  { apply (list_eq_chunks 3 N1 N2 n); [lia|done..|]. intros v Hv. apply (Hgrid v Hv). }
  assert (HT : T1 = T2).
  { apply (list_eq_chunks 2 T1 T2 n); [lia|done..|]. intros v Hv. apply (Hgrid v Hv). }
  subst V2 N2 T2. do 4 (split; [done|]).
  apply (list_eq_chunks 8 I1 I2 n); [lia|done..|]. intros v Hv.
  exact (eq_trans (HI1 v Hv) (eq_sym (HI2 v Hv))).
Qed.

End Rebuild.

(** ** Which vertices the flat triangles use *)

Lemma elem_of_flatCellIndices sc st i j k :
  k ∈ flatCellIndices sc st i j <->
  flatFirstIndex sc st i j <= k <
  flatFirstIndex sc st i j + (if isQuad st i then 4 else 3).
Proof.
  unfold flatCellIndices. destruct (isQuad st i);
    rewrite ?elem_of_cons, ?elem_of_nil; lia.
Qed.

(** The triangles of the flat mesh use every vertex. *)
Lemma elem_of_flatIndicesSpec sc st k :
  1 <= sc -> 2 <= st ->
  k ∈ flatIndicesSpec sc st <-> 0 <= k < 6 * sc + 4 * sc * (st - 2).
Proof.
  intros Hsc Hst. unfold flatIndicesSpec. rewrite list_elem_of_bind. split.
  - intros (i & Hk & Hi). apply list_elem_of_bind in Hk as (j & Hk & Hj).
    apply elem_of_seqZ in Hi, Hj. apply elem_of_flatCellIndices in Hk.
    destruct (flatFirstIndex_room sc st i j) as (Hlo & Hhi & _); [lia..|].
    rewrite flatIndexAt_last in Hhi by done. lia.
  - intros Hk.
    assert (Hcell : exists i j, 0 <= i < st /\ 0 <= j < sc /\
              flatFirstIndex sc st i j <= k <
              flatFirstIndex sc st i j + (if isQuad st i then 4 else 3)).
    { unfold flatFirstIndex, flatIndexAt, isQuad.
      destruct (decide (k < 3 * sc)) as [Hfirst|Hfirst].
      { exists 0, (k / 3). rewrite !decide_False by lia. rewrite decide_True by lia.
        Z.div_mod_to_equations. lia. }
      destruct (decide (3 * sc + 4 * sc * (st - 2) <= k)) as [Hlast|Hlast].
      { exists (st - 1), ((k - (3 * sc + 4 * sc * (st - 2))) / 3).
        rewrite (decide_True (P := 0 < st - 1)) by lia.
        rewrite (decide_False (P := st - 1 < st - 1)) by lia.
        rewrite decide_True by lia.
        Z.div_mod_to_equations. nia. }
      set (q := (k - 3 * sc) / (4 * sc)). set (m := (k - 3 * sc) mod (4 * sc)).
      assert (Hqm : k - 3 * sc = 4 * sc * q + m /\ 0 <= m < 4 * sc /\ 0 <= q < st - 2).
      { unfold q, m. split; [apply Z.div_mod; lia|].
        split; [apply Z.mod_pos_bound; lia|].
        split; [apply Z.div_pos; lia|]. apply Z.div_lt_upper_bound; nia. }
      destruct Hqm as (Hk' & Hm & Hq).
      exists (q + 1), (m / 4).
      rewrite (decide_True (P := 0 < q + 1)) by lia.
      rewrite (decide_False (P := st - 1 < q + 1)) by lia.
      rewrite decide_False by lia.
      Z.div_mod_to_equations. nia. }
    destruct Hcell as (i & j & Hi & Hj & Hk').
    exists i. split; [|apply elem_of_seqZ; lia].
    apply list_elem_of_bind. exists j. split; [|apply elem_of_seqZ; lia].
    by apply elem_of_flatCellIndices.
Qed.

Section FlatUse.
Context {F F32 : Type} {num : JsNumber F F32}.
Implicit Types this : Sphere F F32.

(** X16. In flat mode the index array refers to every vertex: while the
    mesh has at most 65536 vertices, a number is an element of [indices]
    exactly when it is the number of a vertex. *)
Theorem flat_indices_use_all this g r se st :
  gl this = Some g ->
  exists s',
    set r se st false this = Return s' /\
    (getVertexCount s' <= 65536 ->
     forall k, k ∈ indices s' <-> 0 <= k < getVertexCount s').
Proof.
  intros Hg.
  destruct (set_flat_content this g r se st Hg)
    as (s' & Hset & _ & Hsc & Hst & HV & _ & _ & HX & _).
  exists s'. split; [done|].
  destruct (length_flatSpec s') as (HlV & _); [lia..|].
  rewrite (getVertexCount_exact s' (6 * sectorCount s' +
             4 * sectorCount s' * (stackCount s' - 2))) by (by rewrite HV).
  intros Hsmall k. rewrite HX, fmap_to_uint16_small.
  - apply elem_of_flatIndicesSpec; lia.
  - apply Forall_forall. intros x Hx.
    apply elem_of_flatIndicesSpec in Hx; lia.
Qed.

(** X17. In flat mode the [Uint16Array] keeps the index values as the
    loop emits them exactly when the mesh has at most 65536 vertices: the
    last vertex is used, so a larger mesh stores a wrapped index. *)
Theorem flat_indices_exact_iff this g r se st :
  gl this = Some g ->
  exists s',
    set r se st false this = Return s' /\
    (indices s' = flatIndicesSpec (sectorCount s') (stackCount s') <->
     getVertexCount s' <= 65536).
Proof.
  intros Hg.
  destruct (set_flat_content this g r se st Hg)
    as (s' & Hset & _ & Hsc & Hst & HV & _ & _ & HX & _).
  exists s'. split; [done|].
  destruct (length_flatSpec s') as (HlV & _); [lia..|].
  rewrite (getVertexCount_exact s' (6 * sectorCount s' +
             4 * sectorCount s' * (stackCount s' - 2))) by (by rewrite HV).
  rewrite HX.
  set (n := 6 * sectorCount s' + 4 * sectorCount s' * (stackCount s' - 2)).
  split.
  - intros Heq. destruct (decide (n <= 65536)) as [|Hbig]; [done|].
    assert (Hin : n - 1 ∈ flatIndicesSpec (sectorCount s') (stackCount s'))
      by (apply elem_of_flatIndicesSpec; fold n; lia).
    apply list_elem_of_lookup in Hin as (p & Hp).
    assert (Hp' : (to_uint16 <$> flatIndicesSpec (sectorCount s') (stackCount s')) !! p =
                  Some (to_uint16 (n - 1)))
      by (by rewrite list_lookup_fmap, Hp).
    rewrite Heq, Hp in Hp'. injection Hp' as Hwrap.
    unfold to_uint16 in Hwrap.
    pose proof (Z.mod_pos_bound (n - 1) 65536). lia.
  - intros Hsmall. apply fmap_to_uint16_small.
    apply Forall_forall. intros x Hx.
    apply elem_of_flatIndicesSpec in Hx; fold n in Hx; lia.
Qed.

End FlatUse.

(** ** The objects of a page *)

Section Reachable.
Context {F F32 : Type} {num : JsNumber F F32}.
Implicit Types this : Sphere F F32.

Lemma set_clamped r se st sm this :
  set r (Z.max 3 se) (Z.max 2 st) sm this = set r se st sm this.
Proof.
  rewrite !set_unfold. unfold shaped.
  by rewrite (Z.max_r 3 (Z.max 3 se)), (Z.max_r 2 (Z.max 2 st)) by lia.
Qed.

(** The five arrays [set] returns depend on its arguments only. *)
Lemma set_arrays_determined this1 this2 g1 g2 r se st sm s1 s2 :
  gl this1 = Some g1 -> gl this2 = Some g2 ->
  set r se st sm this1 = Return s1 -> set r se st sm this2 = Return s2 ->
  vertices s1 = vertices s2 /\ normals s1 = normals s2 /\
  texCoords s1 = texCoords s2 /\ indices s1 = indices s2 /\
  interleavedVertices s1 = interleavedVertices s2.
Proof.
  intros Hg1 Hg2 Hs1 Hs2. destruct sm.
  - destruct (set_smooth_spec this1 g1 r se st Hg1) as (s1' & Hset1 & Hb1).
    destruct (set_smooth_spec this2 g2 r se st Hg2) as (s2' & Hset2 & Hb2).
    rewrite Hs1 in Hset1. rewrite Hs2 in Hset2.
    injection Hset1 as <-. injection Hset2 as <-.
    apply (smoothBuilt_arrays (shaped r se st true this1) (shaped r se st true this2)
             g1 g2 s1 s2); [done..| | |done|done];
      cbn [shaped sectorCount stackCount with_smooth with_stackCount with_sectorCount]; lia.
  - destruct (set_flat_content this1 g1 r se st Hg1)
      as (s1' & Hset1 & Hr1 & Hsc1 & Hst1 & HV1 & HN1 & HT1 & HX1 & HlI1 & HI1).
    destruct (set_flat_content this2 g2 r se st Hg2)
      as (s2' & Hset2 & Hr2 & Hsc2 & Hst2 & HV2 & HN2 & HT2 & HX2 & HlI2 & HI2).
    rewrite Hs1 in Hset1. rewrite Hs2 in Hset2.
    injection Hset1 as <-. injection Hset2 as <-.
    destruct (flatSpec_ext s1 s2) as (HV & HN & HT); [congruence..|].
    assert (HV' : vertices s1 = vertices s2) by congruence.
    assert (HN' : normals s1 = normals s2) by congruence.
    assert (HT' : texCoords s1 = texCoords s2) by congruence.
    do 3 (split; [done|]). split; [congruence|].
    rewrite <- HV', <- HN', <- HT', Hsc2, Hst2, <- Hsc1, <- Hst1 in *.
    set (n := 6 * sectorCount s1 + 4 * sectorCount s1 * (stackCount s1 - 2)) in *.
    apply (list_eq_chunks 8 _ _ n); [lia|done..|]. intros v Hv.
    exact (eq_trans (HI1 v Hv) (eq_sym (HI2 v Hv))).
Qed.

Lemma set_steady this r se st sm s' :
  hasBuffers this -> set r se st sm this = Return s' -> steady s'.
Proof.
  intros (Hstride & g & b1 & b2 & Hg & Hb1 & Hb2 & Hne & Hlt1 & Hlt2) Hset.
  destruct (set_built this g r se st sm Hg) as (s'' & Hset' & Hbuilt & Hr & Hsc & Hst & Hsm).
  rewrite Hset in Hset'. injection Hset' as <-.
  destruct (built_frame this g s' Hbuilt) as (Hg' & Hstride' & Hv & Hi).
  split.
  - split; [congruence|]. eexists _, b1, b2. split; [exact Hg'|].
    cbn [glBuffers]. repeat split; congruence || done.
  - exists this, g. split; [done|]. by rewrite Hr, Hsc, Hst, Hsm, set_clamped.
Qed.

Lemma steady_shape s :
  steady s -> 3 <= sectorCount s /\ 2 <= stackCount s /\ exists g, gl s = Some g.
Proof.
  intros ((_ & g' & _ & _ & Hg' & _) & this & g & Hg & Hset).
  destruct (set_built this g (radius s) (sectorCount s) (stackCount s) (smooth s) Hg)
    as (s' & Hset' & _ & _ & Hsc & Hst & _).
  rewrite Hset in Hset'. injection Hset' as <-.
  split; [lia|]. split; [lia|]. by exists g'.
Qed.

Lemma setSmooth_unfold s b :
  3 <= sectorCount s -> 2 <= stackCount s -> smooth s <> b ->
  setSmooth b s = set (radius s) (sectorCount s) (stackCount s) b s.
Proof.
  intros Hsc Hst Hne. unfold setSmooth. rewrite decide_True by done.
  rewrite set_unfold, shaped_same by done. reflexivity.
Qed.

Lemma reachable_steady s : reachable s -> steady s.
Proof.
  induction 1 as [g r se st sm s Hnew|r se st sm s s' _ IH Hset|r s s' _ IH Hset
                  |n s s' _ IH Hset|n s s' _ IH Hset|b s s' _ IH Hset].
  - rewrite Sphere_new_unfold in Hnew. apply (set_steady (constructed g) r se st sm s); [|done].
    split; [done|]. eexists _, _, _. split; [reflexivity|].
    do 2 (split; [reflexivity|]). cbn [glBuffers]. lia.
  - exact (set_steady _ _ _ _ _ _ (proj1 IH) Hset).
  - unfold setRadius in Hset. destruct (fne (radius s) r).
    + exact (set_steady _ _ _ _ _ _ (proj1 IH) Hset).
    + by injection Hset as <-.
  - unfold setSectorCount in Hset. case_decide.
    + exact (set_steady _ _ _ _ _ _ (proj1 IH) Hset).
    + by injection Hset as <-.
  - unfold setStackCount in Hset. case_decide.
    + exact (set_steady _ _ _ _ _ _ (proj1 IH) Hset).
    + by injection Hset as <-.
  - destruct (steady_shape s IH) as (Hsc & Hst & _).
    destruct (decide (smooth s <> b)) as [Hne|Heq].
    + rewrite setSmooth_unfold in Hset by done.
      exact (set_steady _ _ _ _ _ _ (proj1 IH) Hset).
    + unfold setSmooth in Hset. rewrite decide_False in Hset by done.
      by injection Hset as <-.
Qed.

Lemma steady_counts s :
  steady s ->
  getVertexCount s =
    (if smooth s then (sectorCount s + 1) * (stackCount s + 1)
     else 6 * sectorCount s + 4 * sectorCount s * (stackCount s - 2)) /\
  getIndexCount s = 6 * sectorCount s * (stackCount s - 1).
Proof.
  intros Hs. destruct (steady_shape s Hs) as (Hsc & Hst & _).
  destruct Hs as (_ & this & g & Hg & Hset).
  destruct (smooth s).
  - destruct (set_smooth_spec this g (radius s) (sectorCount s) (stackCount s) Hg)
      as (s' & Hset' & Hbuilt).
    rewrite Hset in Hset'. injection Hset' as <-.
    rewrite (proj2 (smoothBuilt_vertexCount _ _ _ Hbuilt)).
    unfold getIndexCount. rewrite (smoothBuilt_indices _ _ _ Hbuilt), length_fmap.
    cbn [shaped sectorCount stackCount with_smooth with_stackCount with_sectorCount].
    rewrite length_smoothIndicesSpec by lia.
    rewrite !Z.max_r by lia. done.
  - destruct (set_flat_spec this g (radius s) (sectorCount s) (stackCount s) Hg)
      as (s' & Hset' & Hbuilt).
    rewrite Hset in Hset'. injection Hset' as <-.
    rewrite (flatBuilt_vertexCount _ _ _ Hbuilt).
    destruct (flatBuilt_counts (shaped (radius s) (sectorCount s) (stackCount s) false this)
                g s) as (-> & _);
      [cbn [shaped sectorCount stackCount with_smooth with_stackCount with_sectorCount];
       lia..|done|].
    cbn [shaped sectorCount stackCount with_smooth with_stackCount with_sectorCount].
    rewrite !Z.max_r by lia. done.
Qed.

(** X15. What [set] builds depends on its four arguments only: started
    on two objects that hold a context, whatever their arrays hold, it
    returns the same five arrays. Nothing of an older mesh is left, the
    zero normals of the flat mesh included. *)
Theorem set_forgets_previous_mesh this1 this2 g1 g2 r se st sm :
  gl this1 = Some g1 -> gl this2 = Some g2 ->
  exists s1 s2,
    set r se st sm this1 = Return s1 /\ set r se st sm this2 = Return s2 /\
    vertices s1 = vertices s2 /\ normals s1 = normals s2 /\
    texCoords s1 = texCoords s2 /\ indices s1 = indices s2 /\
    interleavedVertices s1 = interleavedVertices s2.
Proof.
  intros Hg1 Hg2.
  destruct (set_built this1 g1 r se st sm Hg1) as (s1 & Hset1 & _).
  destruct (set_built this2 g2 r se st sm Hg2) as (s2 & Hset2 & _).
  exists s1, s2. do 2 (split; [done|]).
  exact (set_arrays_determined this1 this2 g1 g2 r se st sm s1 s2 Hg1 Hg2 Hset1 Hset2).
Qed.

(** X18. An object constructed on a context and changed through [set]
    and the setters in any order, by calls that pass integer counts and
    have all returned, stores at least three sectors and two stacks, the
    stride 32, a context and two different buffers of it; its arrays have
    the size its stored shape asks for. Nothing is said of an object
    after a call that has thrown, nor of counts that are no integers. *)
Theorem reachable_invariant s :
  reachable s ->
  3 <= sectorCount s /\ 2 <= stackCount s /\ stride s = 32 /\
  (exists g b1 b2,
     gl s = Some g /\ vboVertex s = Some b1 /\ vboIndex s = Some b2 /\
     b1 <> b2 /\ (b1 < glBuffers g)%nat /\ (b2 < glBuffers g)%nat) /\
  getVertexCount s =
    (if smooth s then (sectorCount s + 1) * (stackCount s + 1)
     else 6 * sectorCount s + 4 * sectorCount s * (stackCount s - 2)) /\
  getIndexCount s = 6 * sectorCount s * (stackCount s - 1).
Proof.
  intros Hs. apply reachable_steady in Hs.
  destruct (steady_shape s Hs) as (Hsc & Hst & _).
  destruct (steady_counts s Hs) as (Hn & Hm).
  destruct Hs as ((Hstride & Hbuf) & _). done.
Qed.

(** X19. The mesh of an object of a page is a function of the four
    values it stores: two objects that store the same radius, sector
    count, stack count and shading mode hold the same five arrays,
    whatever calls have led to them. *)
Theorem reachable_mesh_determined s1 s2 :
  reachable s1 -> reachable s2 ->
  radius s1 = radius s2 -> sectorCount s1 = sectorCount s2 ->
  stackCount s1 = stackCount s2 -> smooth s1 = smooth s2 ->
  vertices s1 = vertices s2 /\ normals s1 = normals s2 /\
  texCoords s1 = texCoords s2 /\ indices s1 = indices s2 /\
  interleavedVertices s1 = interleavedVertices s2.
Proof.
  intros H1 H2 Hr Hsc Hst Hsm.
  apply reachable_steady in H1 as (_ & this1 & g1 & Hg1 & Hset1).
  apply reachable_steady in H2 as (_ & this2 & g2 & Hg2 & Hset2).
  rewrite Hr, Hsc, Hst, Hsm in Hset1.
  exact (set_arrays_determined this1 this2 g1 g2 _ _ _ _ s1 s2 Hg1 Hg2 Hset1 Hset2).
Qed.

End Reachable.

(** ** Setters on the objects of a page *)

Section Setters.
Context {F F32 : Type} {num : JsNumber F F32}.
Implicit Types this : Sphere F F32.

Lemma steady_set s r se st sm :
  steady s ->
  exists s' g,
    gl s = Some g /\ set r se st sm s = Return s' /\ built s g s' /\ s' <> s /\
    radius s' = r /\ sectorCount s' = Z.max 3 se /\ stackCount s' = Z.max 2 st /\
    smooth s' = sm.
Proof.
  intros Hs. destruct (steady_shape s Hs) as (_ & _ & g & Hg).
  destruct (set_built s g r se st sm Hg) as (s' & Hset & Hbuilt & Hshape).
  exists s', g. do 3 (split; [done|]). split; [|done].
  by apply (built_uploaded s g s').
Qed.

(** X25. A setter called twice with the same count: the second call
    leaves the object as the first one has returned it exactly when the
    count is not clamped, that is at least 3 sectors or 2 stacks. With a
    smaller count the stored value never equals the argument, and every
    call builds and uploads the mesh again. *)
Theorem setter_twice s :
  reachable s ->
  (forall n, exists s',
     setSectorCount n s = Return s' /\
     (setSectorCount n s' = Return s' <-> 3 <= n)) /\
  (forall n, exists s',
     setStackCount n s = Return s' /\
     (setStackCount n s' = Return s' <-> 2 <= n)).
Proof.
  intros Hs. apply reachable_steady in Hs.
  destruct (steady_shape s Hs) as (Hsc & Hst & _).
  split; intros n.
  - unfold setSectorCount at 1. case_decide as Hne.
    + destruct (steady_set s (radius s) n (stackCount s) (smooth s) Hs)
        as (s' & g & Hg & Hset & _ & _ & _ & Hsc' & _).
      exists s'. split; [done|].
      pose proof (set_steady s _ _ _ _ s' (proj1 Hs) Hset) as Hs'.
      unfold setSectorCount. case_decide as Hne'.
      * destruct (steady_set s' (radius s') n (stackCount s') (smooth s') Hs')
          as (s'' & _ & _ & -> & _ & Hdiff & _).
        split; [|lia]. intros [= ->]. done.
      * split; [lia|done].
    + exists s. split; [done|]. unfold setSectorCount.
      rewrite decide_False by (intros H; by apply H). split; [lia|done].
  - unfold setStackCount at 1. case_decide as Hne.
    + destruct (steady_set s (radius s) (sectorCount s) n (smooth s) Hs)
        as (s' & g & Hg & Hset & _ & _ & _ & _ & Hst' & _).
      exists s'. split; [done|].
      pose proof (set_steady s _ _ _ _ s' (proj1 Hs) Hset) as Hs'.
      unfold setStackCount. case_decide as Hne'.
      * destruct (steady_set s' (radius s') (sectorCount s') n (smooth s') Hs')
          as (s'' & _ & _ & -> & _ & Hdiff & _).
        split; [|lia]. intros [= ->]. done.
      * split; [lia|done].
    + exists s. split; [done|]. unfold setStackCount.
      rewrite decide_False by (intros H; by apply H). split; [lia|done].
Qed.

End Setters.

(** ** Runs on the first object *)

Lemma returned_Return (x : Js (Sphere R R)) s : x = Return s -> x = Return (returned x).
Proof. by intros ->. Qed.

Lemma Sphere_new_shape (g : GL R) (r : R) se st sm :
  exists s g',
    Sphere_new (Some g) r se st sm = Return s /\ gl s = Some g' /\
    radius s = r /\ sectorCount s = Z.max 3 se /\ stackCount s = Z.max 2 st /\
    smooth s = sm.
Proof.
  rewrite Sphere_new_unfold.
  destruct (set_built (constructed g) _ r se st sm eq_refl) as (s & Hs & Hb & Hshape).
  destruct (built_frame _ _ _ Hb) as (Hg' & _).
  eexists s, _. split; [exact Hs|]. split; [exact Hg'|exact Hshape].
Qed.

Lemma sphere1_new :
  Sphere_new (Some gl0) 1%R 3 2 true = Return sphere1 /\
  radius sphere1 = 1%R /\ sectorCount sphere1 = 3 /\ stackCount sphere1 = 2 /\
  smooth sphere1 = true.
Proof.
  destruct (Sphere_new_shape gl0 1%R 3 2 true) as (s & g' & Hs & _ & Hshape).
  unfold sphere1. rewrite Hs. cbn [returned]. split; [reflexivity|exact Hshape].
Qed.

Lemma sphere1_reachable : reachable sphere1.
Proof. exact (reach_new gl0 1%R 3 2 true sphere1 (proj1 sphere1_new)). Qed.

Lemma sphere2_set :
  reachable sphere5 /\ setSectorCount 3 sphere5 = Return sphere2 /\
  radius sphere2 = 1%R /\ sectorCount sphere2 = 3 /\ stackCount sphere2 = 2 /\
  smooth sphere2 = true.
Proof.
  destruct (Sphere_new_shape gl0 1%R 5 2 true) as (s & g' & Hs & Hg' & Hr & Hsc & Hst & Hsm).
  assert (Hs5 : sphere5 = s) by (unfold sphere5; rewrite Hs; reflexivity).
  split; [apply (reach_new gl0 1%R 5 2 true); rewrite Hs5; exact Hs|].
  unfold sphere2. rewrite Hs5. clear Hs Hs5. unfold setSectorCount.
  rewrite decide_True by (rewrite Hsc; lia).
  destruct (set_built s g' (radius s) 3 (stackCount s) (smooth s) Hg')
    as (s2 & Hs2 & _ & Hr2 & Hsc2 & Hst2 & Hsm2).
  rewrite Hs2. cbn [returned]. split; [reflexivity|].
  rewrite Hr2, Hsc2, Hst2, Hsm2, Hr, Hst, Hsm. repeat split; reflexivity.
Qed.

Lemma sphere2_reachable : reachable sphere2.
Proof.
  destruct sphere2_set as (H5 & Hset & _).
  exact (reach_setSectorCount 3 sphere5 sphere2 H5 Hset).
Qed.

Lemma mesh_arrays_consistent_witness :
  exists s',
    set 1%R 3 2 false sphere0 = Return s' /\
    Z.of_nat (length (vertices s')) = 3 * getVertexCount s' /\
    Z.of_nat (length (interleavedVertices s')) = 8 * getVertexCount s' /\
    getVertexCount s' = 6 * sectorCount s' + 4 * sectorCount s' * (stackCount s' - 2).
Proof.
  destruct (mesh_arrays_consistent sphere0 _ 1%R 3 2 false sphere0_gl)
    as (s' & Hset & HV & _ & _ & HI & _ & _ & _ & Hn).
  exists s'. split; [exact Hset|]. split; [exact HV|]. split; [exact HI|exact Hn].
Defined.

Lemma set_uploads_mesh_witness :
  exists s' g',
    set 1%R 3 2 true sphere0 = Return s' /\ gl s' = Some g' /\
    glBuffers g' = 2%nat /\ length (glCalls g') = 6%nat.
Proof.
  destruct (set_uploads_mesh sphere0 _ 1%R 3 2 true sphere0_gl)
    as (s' & g' & Hset & Hg' & Hbuf & Hcalls & _).
  exists s', g'. split; [exact Hset|]. split; [exact Hg'|]. split; [exact Hbuf|].
  rewrite Hcalls. reflexivity.
Defined.

Lemma smooth_indices_use_all_but_two_witness :
  exists s',
    set 1%R 3 2 true sphere0 = Return s' /\
    (getVertexCount s' <= 65537 ->
     forall k, k ∈ indices s' <-> 1 <= k <= getVertexCount s' - 2).
Proof. exact (smooth_indices_use_all_but_two sphere0 _ 1%R 3 2 sphere0_gl). Defined.

Lemma smooth_indices_exact_iff_witness :
  exists s',
    set 1%R 3 2 true sphere0 = Return s' /\
    (indices s' = smoothIndicesSpec (sectorCount s') (stackCount s') <->
     getVertexCount s' <= 65537).
Proof. exact (smooth_indices_exact_iff sphere0 _ 1%R 3 2 sphere0_gl). Defined.

Lemma smooth_texCoords_stored_witness :
  exists s',
    set 1%R 3 2 true sphere0 = Return s' /\
    sectorCount s' = Z.max 3 3 /\ stackCount s' = Z.max 2 2 /\
    forall i j, 0 <= i <= stackCount s' -> 0 <= j <= sectorCount s' ->
      slice2 (texCoords s') (i * (sectorCount s' + 1) + j) =
        [(IZR j / IZR (sectorCount s'))%R; (IZR i / IZR (stackCount s'))%R].
Proof. exact (smooth_texCoords_stored sphere0 _ 1%R 3 2 sphere0_gl). Defined.

Lemma computeFaceNormal_collapsed_witness :
  computeFaceNormal 1%R 2%R 3%R 1%R 2%R 3%R 0%R 1%R 0%R = (0%R, 0%R, 0%R).
Proof.
  apply (computeFaceNormal_collapsed 1%R 2%R 3%R 1%R 2%R 3%R 0%R 1%R 0%R).
  left. reflexivity.
Defined.

Lemma flat_arrays_content_witness :
  exists s',
    set 1%R 4 3 false sphere0 = Return s' /\
    vertices s' = flatPositionsSpec s' /\
    normals s' = flatNormalsSpec s' /\
    texCoords s' = flatTexCoordsSpec s' /\
    indices s' = to_uint16 <$> flatIndicesSpec (sectorCount s') (stackCount s').
Proof. exact (flat_arrays_content sphere0 _ 1%R 4 3 sphere0_gl). Defined.

Lemma flat_normals_per_sector_witness :
  exists s',
    set 1%R 4 3 false sphere0 = Return s' /\
    forall j, 0 <= j < sectorCount s' ->
      slice3 (normals s') (flatFirstIndex (sectorCount s') (stackCount s') 1 j + 3) =
      [0%R; 0%R; 0%R].
Proof.
  destruct (set_built sphere0 _ 1%R 4 3 false sphere0_gl) as (s0 & Hset0 & _ & _ & _ & Hst0 & _).
  destruct (flat_normals_per_sector sphere0 _ 1%R 4 3 sphere0_gl) as (s' & Hset & Hn).
  exists s'. split; [exact Hset|]. intros j Hj.
  assert (Hst : stackCount s' = 3).
  { rewrite Hset in Hset0. injection Hset0 as <-. exact Hst0. }
  apply (Hn 1 j); [rewrite Hst; lia|exact Hj|rewrite Hst; lia].
Defined.

Lemma flat_vertices_per_corner_witness :
  exists s',
    set 1%R 4 3 false sphere0 = Return s' /\
    forall i j (p : nat) v,
      0 <= i < stackCount s' -> 0 <= j < sectorCount s' ->
      flatCorners s' i j !! p = Some v ->
      slice3 (vertices s')
        (flatFirstIndex (sectorCount s') (stackCount s') i j + Z.of_nat p) =
      vertexPosition v.
Proof.
  destruct (flat_vertices_per_corner sphere0 _ 1%R 4 3 sphere0_gl) as (s' & Hset & Hv).
  exists s'. split; [exact Hset|]. intros i j p v Hi Hj Hp.
  exact (proj1 (Hv i j p v Hi Hj Hp)).
Defined.

Lemma flat_indices_use_all_witness :
  exists s',
    set 1%R 4 3 false sphere0 = Return s' /\
    (getVertexCount s' <= 65536 ->
     forall k, k ∈ indices s' <-> 0 <= k < getVertexCount s').
Proof. exact (flat_indices_use_all sphere0 _ 1%R 4 3 sphere0_gl). Defined.

Lemma flat_indices_exact_iff_witness :
  exists s',
    set 1%R 4 3 false sphere0 = Return s' /\
    (indices s' = flatIndicesSpec (sectorCount s') (stackCount s') <->
     getVertexCount s' <= 65536).
Proof. exact (flat_indices_exact_iff sphere0 _ 1%R 4 3 sphere0_gl). Defined.

Lemma set_forgets_previous_mesh_witness :
  exists s1 s2,
    set 1%R 4 3 false sphere0 = Return s1 /\
    set 1%R 4 3 false (with_normals [1%R; 1%R; 1%R] sphere0) = Return s2 /\
    vertices s1 = vertices s2 /\ normals s1 = normals s2 /\
    texCoords s1 = texCoords s2 /\ indices s1 = indices s2 /\
    interleavedVertices s1 = interleavedVertices s2.
Proof.
  apply (set_forgets_previous_mesh sphere0 (with_normals [1%R; 1%R; 1%R] sphere0)
           {| glBuffers := 2; glCalls := [] |} {| glBuffers := 2; glCalls := [] |}
           1%R 4 3 false); reflexivity.
Defined.

Lemma reachable_invariant_witness :
  3 <= sectorCount sphere1 /\ 2 <= stackCount sphere1 /\ stride sphere1 = 32 /\
  (exists g b1 b2,
     gl sphere1 = Some g /\ vboVertex sphere1 = Some b1 /\ vboIndex sphere1 = Some b2 /\
     b1 <> b2 /\ (b1 < glBuffers g)%nat /\ (b2 < glBuffers g)%nat) /\
  getVertexCount sphere1 =
    (if smooth sphere1 then (sectorCount sphere1 + 1) * (stackCount sphere1 + 1)
     else 6 * sectorCount sphere1 + 4 * sectorCount sphere1 * (stackCount sphere1 - 2)) /\
  getIndexCount sphere1 = 6 * sectorCount sphere1 * (stackCount sphere1 - 1).
Proof. exact (reachable_invariant sphere1 sphere1_reachable). Defined.

Lemma reachable_mesh_determined_witness :
  vertices sphere1 = vertices sphere2 /\ normals sphere1 = normals sphere2 /\
  texCoords sphere1 = texCoords sphere2 /\ indices sphere1 = indices sphere2 /\
  interleavedVertices sphere1 = interleavedVertices sphere2.
Proof.
  destruct sphere1_new as (_ & Hr1 & Hsc1 & Hst1 & Hsm1).
  destruct sphere2_set as (_ & _ & Hr2 & Hsc2 & Hst2 & Hsm2).
  apply (reachable_mesh_determined sphere1 sphere2 sphere1_reachable sphere2_reachable).
  - rewrite Hr1, Hr2. reflexivity.
  - rewrite Hsc1, Hsc2. reflexivity.
  - rewrite Hst1, Hst2. reflexivity.
  - rewrite Hsm1, Hsm2. reflexivity.
Defined.

(** ** The buffers of the context *)

Lemma gl_state_app {F32} (l1 l2 : list (GLCall F32)) :
  gl_state (l1 ++ l2) = fold_left gl_step l2 (gl_state l1).
Proof. unfold gl_state. apply fold_left_app. Qed.

Section Buffers.
Context {F F32 : Type} {num : JsNumber F F32}.
Implicit Types this : Sphere F F32.

(** After the six calls of [buildVbos] the two buffers of the object
    hold its interleaved array and its index array. *)
Lemma vboCalls_contents (old : list (GLCall F32)) this b1 b2 :
  vboVertex this = Some b1 -> vboIndex this = Some b2 -> b1 <> b2 ->
  let st := bufferStore (gl_state (old ++ vboCalls this)) in
  storeLookup b1 st = Some (FloatData (interleavedVertices this)) /\
  storeLookup b2 st = Some (ShortData (indices this)).
Proof.
  intros Hb1 Hb2 Hne. rewrite gl_state_app. unfold vboCalls. rewrite Hb1, Hb2.
  cbn [fold_left gl_step glBinding arrayBinding elementBinding bufferStore storeLookup].
  rewrite (decide_True (P := b2 = b2)) by done.
  rewrite (decide_False (P := b2 = b1)) by done.
  rewrite (decide_True (P := b1 = b1)) by done. done.
Qed.

(** What [set] returns: the mesh, with the sizes and the frame. *)
Lemma set_mesh_facts this g r se st sm :
  gl this = Some g ->
  exists s',
    set r se st sm this = Return s' /\ built this g s' /\
    let n := getVertexCount s' in
    Z.of_nat (length (vertices s')) = 3 * n /\
    Z.of_nat (length (normals s')) = 3 * n /\
    Z.of_nat (length (texCoords s')) = 2 * n /\
    interleaves (vertices s') (normals s') (texCoords s') (interleavedVertices s') n /\
    Forall (fun x => 0 <= x < n) (indices s').
Proof.
  intros Hg. destruct sm.
  - destruct (set_smooth_spec this g r se st Hg) as (s' & Hset & Hbuilt).
    exists s'. split; [done|]. split; [by eapply built_set_smooth|]. cbn zeta.
    rewrite (proj2 (smoothBuilt_vertexCount _ _ _ Hbuilt)).
    rewrite (smoothBuilt_indices _ _ _ Hbuilt).
    split; [|split; [|split; [|split]]].
    5:{ apply Forall_fmap. eapply Forall_impl; [apply smoothIndicesSpec_bound|].
        intros k Hk. cbn beta in Hk |- *. unfold compose.
        pose proof (to_uint16_le k). lia. }
    all: by destruct Hbuilt as (V & N & T & I & -> & HV & HN & HT & HlI & _ & HI).
  - destruct (set_flat_spec this g r se st Hg) as (s' & Hset & Hbuilt).
    exists s'. split; [done|]. split; [by eapply built_set_flat|]. cbn zeta.
    rewrite (flatBuilt_vertexCount _ _ _ Hbuilt).
    by destruct Hbuilt as (V & N & T & X & I & -> & HV & HN & HT & _ & HlI & HX & HI).
Qed.

Lemma steady_mesh s :
  steady s ->
  exists g b1 b2,
    gl s = Some g /\ vboVertex s = Some b1 /\ vboIndex s = Some b2 /\
    bufferContents g b1 = Some (FloatData (interleavedVertices s)) /\
    bufferContents g b2 = Some (ShortData (indices s)) /\
    let n := getVertexCount s in
    Z.of_nat (length (vertices s)) = 3 * n /\
    Z.of_nat (length (normals s)) = 3 * n /\
    Z.of_nat (length (texCoords s)) = 2 * n /\
    interleaves (vertices s) (normals s) (texCoords s) (interleavedVertices s) n /\
    Forall (fun x => 0 <= x < n) (indices s).
Proof.
  intros ((_ & g' & b1 & b2 & Hg' & Hb1 & Hb2 & Hne & _) & this & g & Hg & Hset).
  destruct (set_mesh_facts this g (radius s) (sectorCount s) (stackCount s) (smooth s) Hg)
    as (s' & Hset' & Hbuilt & Hmesh).
  rewrite Hset in Hset'. injection Hset' as <-.
  destruct (built_frame this g s Hbuilt) as (Hgl & _).
  rewrite Hgl in Hg'. injection Hg' as <-.
  eexists _, b1, b2. split; [exact Hgl|]. do 2 (split; [done|]).
  destruct (vboCalls_contents (glCalls g) s b1 b2 Hb1 Hb2 Hne) as (HcV & HcI).
  split; [exact HcV|]. split; [exact HcI|exact Hmesh].
Qed.

(** X21. The buffers of the context follow the object: for every object
    of a page, whatever calls have led to it, the buffer [vboVertex]
    holds the interleaved array of the object and the buffer [vboIndex]
    its index array, as [bindBuffer] and [bufferData] of WebGL leave
    them. *)
Theorem reachable_buffers_in_sync s :
  reachable s ->
  exists g b1 b2,
    gl s = Some g /\ vboVertex s = Some b1 /\ vboIndex s = Some b2 /\
    bufferContents g b1 = Some (FloatData (interleavedVertices s)) /\
    bufferContents g b2 = Some (ShortData (indices s)).
Proof.
  intros Hs. apply reachable_steady, steady_mesh in Hs.
  destruct Hs as (g & b1 & b2 & Hg & Hb1 & Hb2 & HcV & HcI & _).
  by exists g, b1, b2.
Qed.

(** X22. What the draw call of the page reads. With the vertex buffer
    described by the three attribute pointers of [drawScene] (sizes 3, 3
    and 2, stride 32, offsets 0, 12 and 24 bytes) and the index buffer
    drawn for [getIndexCount()] elements, every index drawn is the number
    of a vertex of the object, and the three attributes read for it are
    the position, the normal and the texture coordinates the object
    stores for that vertex. *)
Theorem draw_reads_mesh s :
  reachable s ->
  exists g b1 b2 data elements,
    gl s = Some g /\ vboVertex s = Some b1 /\ vboIndex s = Some b2 /\
    bufferContents g b1 = Some (FloatData data) /\
    bufferContents g b2 = Some (ShortData elements) /\
    getIndexCount s = Z.of_nat (length elements) /\
    Forall (fun k =>
      0 <= k < getVertexCount s /\
      vertexAttrib data 3 32 0 k = slice3 (vertices s) k /\
      vertexAttrib data 3 32 12 k = slice3 (normals s) k /\
      vertexAttrib data 2 32 24 k = slice2 (texCoords s) k /\
      length (slice3 (vertices s) k) = 3%nat /\
      length (slice3 (normals s) k) = 3%nat /\
      length (slice2 (texCoords s) k) = 2%nat) elements.
Proof.
  intros Hs. apply reachable_steady in Hs.
  destruct (steady_mesh s Hs)
    as (g & b1 & b2 & Hg & Hb1 & Hb2 & HcV & HcI & HV & HN & HT & HI & HX).
  exists g, b1, b2, (interleavedVertices s), (indices s).
  do 5 (split; [done|]). split; [done|].
  eapply Forall_impl; [exact HX|]. intros k Hk. cbn beta in Hk |- *.
  split; [done|]. unfold vertexAttrib.
  replace ((32 * k + 0) / 4) with (8 * k) by (Z.div_mod_to_equations; lia).
  replace ((32 * k + 12) / 4) with (8 * k + 3) by (Z.div_mod_to_equations; lia).
  replace ((32 * k + 24) / 4) with (8 * k + 6) by (Z.div_mod_to_equations; lia).
  change (Z.to_nat 3) with 3%nat. change (Z.to_nat 2) with 2%nat.
  by apply (interleaves_parts _ _ _ _ (getVertexCount s)).
Qed.

End Buffers.

Lemma reachable_buffers_in_sync_witness :
  exists g b1 b2,
    gl sphere2 = Some g /\ vboVertex sphere2 = Some b1 /\ vboIndex sphere2 = Some b2 /\
    bufferContents g b1 = Some (FloatData (interleavedVertices sphere2)) /\
    bufferContents g b2 = Some (ShortData (indices sphere2)).
Proof. exact (reachable_buffers_in_sync sphere2 sphere2_reachable). Defined.

Lemma draw_reads_mesh_witness :
  exists g b1 b2 data elements,
    gl sphere1 = Some g /\ vboVertex sphere1 = Some b1 /\ vboIndex sphere1 = Some b2 /\
    bufferContents g b1 = Some (FloatData data) /\
    bufferContents g b2 = Some (ShortData elements) /\
    getIndexCount sphere1 = Z.of_nat (length elements) /\
    Forall (fun k =>
      0 <= k < getVertexCount sphere1 /\
      vertexAttrib data 3 32 0 k = slice3 (vertices sphere1) k /\
      vertexAttrib data 3 32 12 k = slice3 (normals sphere1) k /\
      vertexAttrib data 2 32 24 k = slice2 (texCoords sphere1) k /\
      length (slice3 (vertices sphere1) k) = 3%nat /\
      length (slice3 (normals sphere1) k) = 3%nat /\
      length (slice2 (texCoords sphere1) k) = 2%nat) elements.
Proof. exact (draw_reads_mesh sphere1 sphere1_reachable). Defined.

Lemma flat_corners_from_smooth_grid_witness :
  exists sf ss,
    set 1%R 4 3 false sphere0 = Return sf /\ set 1%R 4 3 true sphere0 = Return ss /\
    forall i j,
      0 <= i < stackCount ss -> 0 <= j < sectorCount ss ->
      slice3 (vertices sf) (flatFirstIndex (sectorCount ss) (stackCount ss) i j + 1) =
      slice3 (vertices ss) ((i + 1) * (sectorCount ss + 1) + j).
Proof.
  destruct (flat_corners_from_smooth_grid sphere0 _ 1%R 4 3 sphere0_gl)
    as (sf & ss & Hsf & Hss & Hsc & Hst & Hgrid).
  exists sf, ss. split; [exact Hsf|]. split; [exact Hss|]. intros i j Hi Hj.
  refine (proj1 (Hgrid i j 1%nat (i + 1) j Hi Hj _ _ _)); [|lia|lia].
  unfold flatCorners. destruct (decide (i = 0)); [reflexivity|].
  destruct (decide (i = stackCount sf - 1)); reflexivity.
Defined.

Lemma setter_twice_witness :
  (exists s', setSectorCount 2 sphere1 = Return s' /\ setSectorCount 2 s' <> Return s') /\
  (exists s', setSectorCount 7 sphere1 = Return s' /\ setSectorCount 7 s' = Return s').
Proof.
  destruct (setter_twice sphere1 sphere1_reachable) as (Hsc & _).
  split.
  - destruct (Hsc 2) as (s' & Hset & Hiff).
    exists s'. split; [exact Hset|]. intros H. apply Hiff in H. lia.
  - destruct (Hsc 7) as (s' & Hset & Hiff).
    exists s'. split; [exact Hset|]. apply Hiff. lia.
Defined.


(** * Allocation limits *)

Lemma newTypedArrayOn_fits {A} (limit : Z) (zero : A) len :
  0 <= len -> len <= Z.min maxIndex limit ->
  newTypedArrayOn limit zero len = newTypedArray zero len.
Proof.
  intros Hlo Hhi. unfold newTypedArrayOn, newTypedArray.
  by rewrite !decide_False by lia.
Qed.

Lemma newTypedArrayOn_over {A} (limit : Z) (zero : A) len :
  Z.min maxIndex limit < len -> newTypedArrayOn limit zero len = Throw RangeError.
Proof.
  intros Hover. unfold newTypedArrayOn. repeat case_decide; try reflexivity. lia.
Qed.

Section LimitsProofs.
Context {F F32 : Type} {num : JsNumber F F32}.
Implicit Types this : Sphere F F32.

Lemma setOn_unfold (e : Engine) r se st sm this :
  setOn e r se st sm this =
  if sm then buildVerticesSmoothOn e (shaped r se st sm this)
  else buildVerticesFlatOn e (shaped r se st sm this).
Proof.
  unfold setOn, shaped.
  destruct (decide (se < 3)), (decide (st < 2));
    rewrite ?(Z.max_l 3 se), ?(Z.max_r 3 se), ?(Z.max_l 2 st), ?(Z.max_r 2 st) by lia;
    reflexivity.
Qed.

Lemma buildInterleavedVerticesOn_fits (e : Engine) this n :
  0 <= n -> Z.of_nat (length (vertices this)) = 3 * n ->
  8 * n <= Z.min maxIndex (maxFloat32Length e) ->
  buildInterleavedVerticesOn e this = buildInterleavedVertices this.
Proof.
  intros Hn Hlen Hfit. unfold buildInterleavedVerticesOn, buildInterleavedVertices.
  rewrite (getVertexCount_exact this n Hlen).
  by rewrite newTypedArrayOn_fits by lia.
Qed.

Lemma buildInterleavedVerticesOn_over (e : Engine) this n :
  Z.of_nat (length (vertices this)) = 3 * n ->
  Z.min maxIndex (maxFloat32Length e) < 8 * n ->
  buildInterleavedVerticesOn e this = Throw RangeError.
Proof.
  intros Hlen Hover. unfold buildInterleavedVerticesOn.
  rewrite (getVertexCount_exact this n Hlen).
  by rewrite newTypedArrayOn_over by lia.
Qed.

(** The loops of the smooth builder keep the length of [vertices]. *)
Lemma smooth_loops_vertices this1 n :
  0 <= sectorCount this1 -> 0 <= stackCount this1 ->
  n = (sectorCount this1 + 1) * (stackCount this1 + 1) ->
  Z.of_nat (length (vertices this1)) = 3 * n ->
  Z.of_nat (length (normals this1)) = 3 * n ->
  Z.of_nat (length (texCoords this1)) = 2 * n ->
  Z.of_nat (length (vertices (smoothIndexLoop (smoothVertexLoop this1).1.1).1)) = 3 * n.
Proof.
  intros Hsc Hst -> HlV HlN HlT.
  destruct (smoothVertexLoop_filled this1) as (V & N & T & HV & HlV' & _); [done..|].
  rewrite HV. rewrite smoothIndexLoop_emitted by done.
  unfold emitted. cbn [fst vertices with_indices with_texCoords with_normals with_vertices].
  by rewrite HlV'.
Qed.

(** The triangle loop of the flat builder returns and keeps the length
    of [vertices]. *)
Lemma flat_loop_vertices this this1 :
  0 <= sectorCount this -> 2 <= stackCount this ->
  let n := 6 * sectorCount this + 4 * sectorCount this * (stackCount this - 2) in
  let m := 6 * sectorCount this * (stackCount this - 1) in
  this1 = with_indices (replicate (Z.to_nat m) 0)
            (with_texCoords (replicate (Z.to_nat (2 * n)) f32_zero)
               (with_normals (replicate (Z.to_nat (3 * n)) f32_zero)
                  (with_vertices (replicate (Z.to_nat (3 * n)) f32_zero) this))) ->
  exists s, flatTriangleLoop (flatTmpVertices this) this1 = Return s /\
            Z.of_nat (length (vertices (f_this s))) = 3 * n.
Proof.
  intros Hsc Hst n m ->.
  assert (Hn : 0 <= n) by (unfold n; nia).
  set (this1 := with_indices _ _).
  destruct (flatTriangleLoop_inv this1 (flatTmpVertices this))
    as (s & Hrun & (V & N & T & X & Hs & HlV & _) & _); [done|done|..].
  { change (stackCount this1) with (stackCount this).
    change (sectorCount this1) with (sectorCount this).
    by apply length_flatTmpVertices; lia. }
  { change (stackCount this1) with (stackCount this).
    change (sectorCount this1) with (sectorCount this).
    change (indices this1) with (replicate (Z.to_nat m) 0). fold n.
    destruct (decide (sectorCount this = 0)) as [Hz|Hnz].
    - replace m with 0 by (unfold m; rewrite Hz; lia). constructor.
    - apply Forall_replicate. unfold n. nia. }
  exists s. split; [exact Hrun|]. rewrite Hs.
  cbn [vertices with_indices with_texCoords with_normals with_vertices]. rewrite HlV.
  change (length (vertices this1))
    with (length (replicate (Z.to_nat (3 * n)) (f32_zero (F := F)))).
  rewrite length_replicate. lia.
Qed.

(** On an engine the smooth build is the build above when its arrays
    fit, and fails in an allocation otherwise. *)
Lemma buildVerticesSmoothOn_cases (e : Engine) this :
  0 <= sectorCount this -> 2 <= stackCount this ->
  (meshFits e (sectorCount this) (stackCount this) true ->
   buildVerticesSmoothOn e this = buildVerticesSmooth this) /\
  (~ meshFits e (sectorCount this) (stackCount this) true ->
   buildVerticesSmoothOn e this = Throw RangeError).
Proof.
  intros Hsc Hst. unfold meshFits, meshVertexCount.
  set (n := (sectorCount this + 1) * (stackCount this + 1)).
  set (m := 6 * sectorCount this * (stackCount this - 1)).
  assert (Hn : 0 <= n) by (unfold n; nia).
  assert (Hm : 0 <= m) by (unfold m; nia).
  unfold buildVerticesSmoothOn, buildVerticesSmooth, resizeArraysSmoothOn,
    resizeArraysSmooth, clearArrays. fold n m.
  assert (Hloops : forall this1,
    this1 = with_indices (replicate (Z.to_nat m) 0)
              (with_texCoords (replicate (Z.to_nat (2 * n)) f32_zero)
                 (with_normals (replicate (Z.to_nat (3 * n)) f32_zero)
                    (with_vertices (replicate (Z.to_nat (3 * n)) f32_zero) this))) ->
    Z.of_nat (length (vertices (smoothIndexLoop (smoothVertexLoop this1).1.1).1)) = 3 * n).
  { intros this1 ->. apply smooth_loops_vertices;
      cbn [sectorCount stackCount vertices normals texCoords with_indices with_texCoords
           with_normals with_vertices]; rewrite ?length_replicate; fold n; lia. }
  split.
  - intros (HF & HU).
    rewrite !newTypedArrayOn_fits by lia.
    rewrite !newTypedArray_nonneg by lia. cbn [mbind Js_bind mret Js_ret].
    by rewrite (buildInterleavedVerticesOn_fits e _ n Hn (Hloops _ eq_refl)).
  - intros Hno.
    destruct (decide (3 * n <= Z.min maxIndex (maxFloat32Length e))) as [H3|H3];
      [|by rewrite (newTypedArrayOn_over (maxFloat32Length e) f32_zero (3 * n)) by lia].
    destruct (decide (m <= Z.min maxIndex (maxUint16Length e))) as [HU|HU].
    + rewrite !newTypedArrayOn_fits by lia.
      rewrite !newTypedArray_nonneg by lia. cbn [mbind Js_bind mret Js_ret].
      by rewrite (buildInterleavedVerticesOn_over e _ n (Hloops _ eq_refl)) by lia.
    + rewrite !(newTypedArrayOn_fits (maxFloat32Length e)) by lia.
      rewrite !(newTypedArray_nonneg f32_zero) by lia. cbn [mbind Js_bind mret Js_ret].
      by rewrite (newTypedArrayOn_over (maxUint16Length e) 0 m) by lia.
Qed.

Lemma buildVerticesFlatOn_cases (e : Engine) this :
  0 <= sectorCount this -> 2 <= stackCount this ->
  (meshFits e (sectorCount this) (stackCount this) false ->
   buildVerticesFlatOn e this = buildVerticesFlat this) /\
  (~ meshFits e (sectorCount this) (stackCount this) false ->
   buildVerticesFlatOn e this = Throw RangeError).
Proof.
  intros Hsc Hst. unfold meshFits, meshVertexCount.
  set (n := 6 * sectorCount this + 4 * sectorCount this * (stackCount this - 2)).
  set (m := 6 * sectorCount this * (stackCount this - 1)).
  assert (Hn : 0 <= n) by (unfold n; nia).
  assert (Hm : 0 <= m) by (unfold m; nia).
  unfold buildVerticesFlatOn, buildVerticesFlat, resizeArraysFlatOn,
    resizeArraysFlat, clearArrays. fold n m.
  destruct (flat_loop_vertices this _ Hsc Hst eq_refl) as (s & Hrun & Hlen).
  fold n m in Hrun, Hlen.
  split.
  - intros (HF & HU).
    rewrite !newTypedArrayOn_fits by lia.
    rewrite !newTypedArray_nonneg by lia. cbn [mbind Js_bind mret Js_ret].
    rewrite Hrun. cbn [mbind Js_bind].
    by rewrite (buildInterleavedVerticesOn_fits e _ n Hn Hlen).
  - intros Hno.
    destruct (decide (3 * n <= Z.min maxIndex (maxFloat32Length e))) as [H3|H3];
      [|by rewrite (newTypedArrayOn_over (maxFloat32Length e) f32_zero (3 * n)) by lia].
    destruct (decide (m <= Z.min maxIndex (maxUint16Length e))) as [HU|HU].
    + rewrite !newTypedArrayOn_fits by lia.
      rewrite !newTypedArray_nonneg by lia. cbn [mbind Js_bind mret Js_ret].
      rewrite Hrun. cbn [mbind Js_bind].
      by rewrite (buildInterleavedVerticesOn_over e _ n Hlen) by lia.
    + rewrite !(newTypedArrayOn_fits (maxFloat32Length e)) by lia.
      rewrite !(newTypedArray_nonneg f32_zero) by lia. cbn [mbind Js_bind mret Js_ret].
      by rewrite (newTypedArrayOn_over (maxUint16Length e) 0 m) by lia.
Qed.

(** [set] on an engine: the [set] above when the arrays of the clamped
    shape fit, a RangeError otherwise. *)
Lemma setOn_cases (e : Engine) r se st sm this :
  (meshFits e (Z.max 3 se) (Z.max 2 st) sm ->
   setOn e r se st sm this = set r se st sm this) /\
  (~ meshFits e (Z.max 3 se) (Z.max 2 st) sm ->
   setOn e r se st sm this = Throw RangeError).
Proof.
  rewrite setOn_unfold, set_unfold. destruct sm.
  - apply (buildVerticesSmoothOn_cases e (shaped r se st true this));
      cbn [shaped sectorCount stackCount with_smooth with_stackCount with_sectorCount]; lia.
  - apply (buildVerticesFlatOn_cases e (shaped r se st false this));
      cbn [shaped sectorCount stackCount with_smooth with_stackCount with_sectorCount]; lia.
Qed.



End LimitsProofs.



(** * Normals in binary64 arithmetic *)

(** A product with an infinity is an infinity or NaN. *)
Lemma mul_infinity_not_finite (x : PrimFloat.float) :
  PrimFloat.is_finite (PrimFloat.mul x PrimFloat.infinity) = false.
Proof.
  pose proof (FloatAxioms.mul_spec x PrimFloat.infinity) as Hmul.
  change (FloatOps.Prim2SF PrimFloat.infinity) with (SpecFloat.S754_infinity false) in Hmul.
  set (p := PrimFloat.mul x PrimFloat.infinity) in *.
  assert (Hcase : FloatOps.Prim2SF p = SpecFloat.S754_nan \/
                  exists s, FloatOps.Prim2SF p = SpecFloat.S754_infinity s).
  { rewrite Hmul. destruct (FloatOps.Prim2SF x); cbn; eauto. }
  clearbody p. clear Hmul.
  unfold PrimFloat.is_finite. unfold FloatOps.Prim2SF in Hcase.
  destruct (PrimFloat.is_nan p); [reflexivity|].
  destruct (PrimFloat.is_zero p); [by destruct Hcase as [|[? ?]]|].
  destruct (PrimFloat.is_infinity p); [reflexivity|].
  destruct (FloatOps.Z.frexp p) as [r ex].
  destruct (SpecFloat.shr_fexp _ _ _ _ _) as [shr e'].
  destruct (SpecFloat.shr_m shr); by destruct Hcase as [|[? ?]].
Qed.

(** What is not finite is stored as it is. *)
Lemma float32_round_not_finite (x : PrimFloat.float) :
  PrimFloat.is_finite x = false -> f32_val (float32_round x) = x.
Proof.
  intros Hx.
  assert (Hr : round32 x = x).
  { unfold round32, FloatOps.Prim2SF. unfold PrimFloat.is_finite in Hx.
    destruct (PrimFloat.is_nan x); [reflexivity|].
    destruct (PrimFloat.is_zero x); [reflexivity|].
    destruct (PrimFloat.is_infinity x); [reflexivity|discriminate Hx]. }
  unfold float32_round. rewrite !Hr.
  destruct (Sumbool.sumbool_of_bool _) as [ok|no]; [reflexivity|].
  assert (PrimFloat.Leibniz.eqb x x = true) by (by apply FloatAxioms.Leibniz.eqb_spec).
  congruence.
Qed.

Lemma float_tiny_inverse :
  PrimFloat.div (float_of_Z 1) float_tiny = PrimFloat.infinity.
Proof. reflexivity. Qed.

Section NormalStored.
Context {F F32 : Type} {num : JsNumber F F32}.
Implicit Types this : Sphere F F32.

(** The smooth mesh vertex by vertex, with its number of vertices. *)
Lemma smooth_mesh_stored this g r se st :
  gl this = Some g ->
  exists s',
    set r se st true this = Return s' /\
    radius s' = r /\
    getVertexCount s' = (Z.max 3 se + 1) * (Z.max 2 st + 1) /\
    forall v, 0 <= v < getVertexCount s' ->
      let i := v / (sectorCount s' + 1) in
      let j := v mod (sectorCount s' + 1) in
      slice3 (vertices s') v = round3 (smoothPosition s' i j) /\
      slice3 (normals s') v = round3 (smoothNormal s' i j) /\
      slice2 (texCoords s') v = round2 (smoothTexCoord s' i j).
Proof.
  intros Hg.
  destruct (smooth_vertex_stored this g r se st Hg) as (s' & Hset & Hr & Hv).
  destruct (set_smooth_spec this g r se st Hg) as (s'' & Hset' & Hbuilt).
  rewrite Hset in Hset'. injection Hset' as <-.
  exists s'. do 2 (split; [done|]). split; [|exact Hv].
  by rewrite (proj2 (smoothBuilt_vertexCount _ _ _ Hbuilt)).
Qed.


End NormalStored.



